(** * Watermark pod autoscaler: replica calculator, normalizer, cooldown gate
      and reconciliation driver.

    Shallow embedding of the package [watermarkpodautoscaler]:
      - the replica calculator ([getReplicaCount], [GetExternalMetricReplicas],
        [GetResourceReplicas], [getReadyPodsCount], [groupPods],
        [removeMetricsForPods], [getPodCondition]), and
      - the controller, [watermarkpodautoscaler_controller.go]
        ([Reconcile], [reconcileWPA], [getScaleForResourceMappings],
        [computeReplicasForMetrics], [shouldScale], [canScale],
        [normalizeDesiredReplicas], [convertDesiredReplicasWithRules],
        [calculateScaleUpLimit], [calculateScaleDownLimit], [setStatus],
        [setCurrentReplicasInStatus], [updateStatusIfNeeded], [setCondition],
        [setConditionInList]).

    Conventions of the embedding.
      - [int32] and [int64] values are integers of [Z]; wrap-around is written
        out where the code adds ([wrap64] for the sums of samples).
      - [float64] values are the type [F64]: a rational number, or one of the
        IEEE 754 special values +Inf, -Inf and NaN.  Division by zero and the
        arithmetic of the special values follow IEEE 754, as Go does.  Finite
        arithmetic is exact: the rounding of double precision is not part of
        the model, so that a ceiling or a floor taken at the very boundary
        between two integers may differ by one from the one the program
        takes.
      - Go leaves the result of converting a floating-point value to an
        integer type that cannot represent it implementation-dependent.  The
        class [Arch] supplies that result; every statement below holds for
        every instance.
      - Pointers that may be nil are [option]; a nil dereference is the
        outcome [Panicked].
      - Logging, events and the Prometheus gauges are not modelled.
      - Collaborators (pod lister, metrics clients, scale client, REST
        mapper, status client, clock) are the fields of [Env]; the client
        and the functions of the package that only [Reconcile] calls are
        the fields of [Reconciler]. *)

From Stdlib Require Import ZArith QArith Qround Lia Lqa Bool List Ascii String.
From stdpp Require Import gmap strings pretty list fin_maps.

Import ListNotations.
Local Open Scope Z_scope.

(** ** Machine integers *)

Definition min_int32 : Z := - 2 ^ 31.
Definition max_int32 : Z := 2 ^ 31 - 1.
Definition min_int64 : Z := - 2 ^ 63.
Definition max_int64 : Z := 2 ^ 63 - 1.

Definition in_int32 (z : Z) : bool := (min_int32 <=? z) && (z <=? max_int32).
Definition in_int64 (z : Z) : bool := (min_int64 <=? z) && (z <=? max_int64).

(** Two's complement wrap-around of [int64] arithmetic. *)
Definition wrap64 (z : Z) : Z := (z + 2 ^ 63) mod 2 ^ 64 - 2 ^ 63.
(** Conversion [int32(n)] of an [int]. *)
Definition wrap32 (z : Z) : Z := (z + 2 ^ 31) mod 2 ^ 32 - 2 ^ 31.

(** ** float64 *)

Inductive F64 : Type :=
| Fin (q : Q)
| PInf
| NInf
| NaN.

Definition F64_of_Z (z : Z) : F64 := Fin (inject_Z z).

Definition Qltb (x y : Q) : bool := negb (Qle_bool y x).
Definition Qis0 (x : Q) : bool := Qeq_bool x 0.

Definition fneg (x : F64) : F64 :=
  match x with
  | Fin q => Fin (- q)
  | PInf => NInf
  | NInf => PInf
  | NaN => NaN
  end.

Definition fadd (x y : F64) : F64 :=
  match x, y with
  | NaN, _ | _, NaN => NaN
  | PInf, NInf | NInf, PInf => NaN
  | PInf, _ | _, PInf => PInf
  | NInf, _ | _, NInf => NInf
  | Fin a, Fin b => Fin (a + b)
  end.

Definition fsub (x y : F64) : F64 := fadd x (fneg y).

(** The infinity with the sign of [q] times the sign of [pos]; NaN for 0. *)
Definition inf_signed (pos : bool) (q : Q) : F64 :=
  if Qis0 q then NaN
  else if Bool.eqb pos (Qltb 0 q) then PInf else NInf.

Definition fmul (x y : F64) : F64 :=
  match x, y with
  | NaN, _ | _, NaN => NaN
  | Fin a, Fin b => Fin (a * b)
  | PInf, Fin q | Fin q, PInf => inf_signed true q
  | NInf, Fin q | Fin q, NInf => inf_signed false q
  | PInf, PInf | NInf, NInf => PInf
  | PInf, NInf | NInf, PInf => NInf
  end.

(** Division.  A zero divisor is +0 (every divisor of the program is the
    conversion of an integer): x/0 is an infinity with the sign of x, 0/0 is
    NaN. *)
Definition fdiv (x y : F64) : F64 :=
  match x, y with
  | NaN, _ | _, NaN => NaN
  | Fin a, Fin b =>
      if Qis0 b then inf_signed true a else Fin (a / b)
  | Fin _, (PInf | NInf) => Fin 0
  | PInf, Fin b => if Qltb b 0 then NInf else PInf
  | NInf, Fin b => if Qltb b 0 then PInf else NInf
  | (PInf | NInf), (PInf | NInf) => NaN
  end.

(** [x < y] and [x > y]; false as soon as one side is NaN. *)
Definition fltb (x y : F64) : bool :=
  match x, y with
  | NaN, _ | _, NaN => false
  | Fin a, Fin b => Qltb a b
  | NInf, (Fin _ | PInf) => true
  | Fin _, PInf => true
  | _, _ => false
  end.

Definition fgtb (x y : F64) : bool := fltb y x.

(** [math.Ceil] and [math.Floor]. *)
Definition fceil (x : F64) : F64 :=
  match x with Fin q => F64_of_Z (Qceiling q) | _ => x end.
Definition ffloor (x : F64) : F64 :=
  match x with Fin q => F64_of_Z (Qfloor q) | _ => x end.

(** [math.Max]: +Inf wins, then NaN. *)
Definition fmax (x y : F64) : F64 :=
  match x, y with
  | PInf, _ | _, PInf => PInf
  | NaN, _ | _, NaN => NaN
  | NInf, z | z, NInf => z
  | Fin a, Fin b => if Qltb a b then y else x
  end.

(** [math.Min]: -Inf wins, then NaN. *)
Definition fmin (x y : F64) : F64 :=
  match x, y with
  | NInf, _ | _, NInf => NInf
  | NaN, _ | _, NaN => NaN
  | PInf, z | z, PInf => z
  | Fin a, Fin b => if Qltb b a then y else x
  end.

(** Truncation toward zero, the rounding of Go's float-to-integer
    conversions. *)
Definition Qtrunc (q : Q) : Z := if Qle_bool 0 q then Qfloor q else Qceiling q.

(** The implementation-dependent results of float-to-integer conversions
    whose operand the target type cannot represent. *)
Class Arch : Type := {
  undef32 : F64 -> Z;
  undef64 : F64 -> Z
}.

Section Conversions.
Context {arch : Arch}.

Definition int32_of_F64 (x : F64) : Z :=
  match x with
  | Fin q => if in_int32 (Qtrunc q) then Qtrunc q else undef32 x
  | _ => undef32 x
  end.

Definition int64_of_F64 (x : F64) : Z :=
  match x with
  | Fin q => if in_int64 (Qtrunc q) then Qtrunc q else undef64 x
  | _ => undef64 x
  end.

End Conversions.

(** ** Results of fallible calls

    A Go call returning [(value, error)] yields [Ok] or [Err]; [Panicked]
    is a run-time panic (nil dereference) unwinding through the caller. *)

Inductive result (A : Type) : Type :=
| Ok (a : A)
| Err (e : string)
| Panicked.
Arguments Ok {A} a.
Arguments Err {A} e.
Arguments Panicked {A}.

(** ** Kubernetes objects *)

(** Instants and durations, in nanoseconds. *)
Definition Time : Type := Z.
Definition Duration : Type := Z.
Definition Second : Duration := 1000000000.

(** [time.Duration(seconds) * time.Second], in [int64]. *)
Definition seconds (s : Z) : Duration := wrap64 (s * Second).

(** [t.Sub(u)]: the difference, saturated to the range of [Duration]. *)
Definition Time_Sub (t u : Time) : Duration :=
  Z.max min_int64 (Z.min max_int64 (t - u)).

Definition Time_Add (t : Time) (d : Duration) : Time := t + d.

(** [t.After(u)]. *)
Definition Time_After (t u : Time) : bool := u <? t.

(** [corev1.PodPhase], [corev1.ConditionStatus] and
    [corev1.PodConditionType] are string types. *)
Definition PodPending : string := "Pending".
Definition PodRunning : string := "Running".
Definition PodFailed : string := "Failed".
Definition PodReady : string := "Ready".
Definition ConditionTrue : string := "True".
Definition ConditionFalse : string := "False".
Definition ResourceCPU : string := "cpu".
Definition NamespaceAll : string := "".

Record PodCondition : Type := {
  pc_Type : string;
  pc_Status : string;
  pc_LastTransitionTime : Time
}.

Record PodStatus : Type := {
  Phase : string;
  StartTime : option Time;
  PodConditions : list PodCondition
}.

Record Pod : Type := {
  pod_Name : string;
  pod_Namespace : string;
  pod_Status : PodStatus
}.

(** [autoscalingv1.Scale]. *)
Record Scale : Type := {
  scale_SpecReplicas : Z;
  scale_StatusReplicas : Z;
  scale_StatusSelector : string
}.

(** A [*metav1.LabelSelector], by its rendering; a parsed [labels.Selector]
    likewise. *)
Definition LabelSelector : Type := string.
Definition Selector : Type := string.

(** A [*resource.Quantity], by its [MilliValue()]. *)
Definition Quantity : Type := Z.

Record ExternalMetricSource : Type := {
  ext_MetricName : string;
  ext_MetricSelector : option LabelSelector;
  ext_HighWatermark : option Quantity;
  ext_LowWatermark : option Quantity
}.

Record ResourceMetricSource : Type := {
  rsrc_Name : string;
  rsrc_MetricSelector : option LabelSelector;
  rsrc_HighWatermark : option Quantity;
  rsrc_LowWatermark : option Quantity
}.

(** Modelled from the spec: the constants [ExternalMetricSourceType] and
    [ResourceMetricSourceType] of the API package [v1alpha1], which is not
    part of the sources at hand; a metric spec "is either external or
    resource". *)
Definition ExternalMetricSourceType : string := "External".
Definition ResourceMetricSourceType : string := "Resource".

Record MetricSpec : Type := {
  ms_Type : string;
  ms_External : option ExternalMetricSource;
  ms_Resource : option ResourceMetricSource
}.

Record CrossVersionObjectReference : Type := {
  ref_Kind : string;
  ref_Name : string;
  ref_APIVersion : string
}.

(** [WatermarkPodAutoscalerSpec].  The [float64] fields are decoded from
    the stored object and therefore finite. *)
Record WatermarkPodAutoscalerSpec : Type := {
  ScaleTargetRef : CrossVersionObjectReference;
  MinReplicas : option Z;
  MaxReplicas : Z;
  Algorithm : string;
  Tolerance : Q;
  ScaleUpLimitFactor : Q;
  ScaleDownLimitFactor : Q;
  UpscaleForbiddenWindowSeconds : Z;
  DownscaleForbiddenWindowSeconds : Z;
  ReadinessDelaySeconds : Z;
  DryRun : bool;
  Metrics : list MetricSpec
}.

(** [autoscalingv2.MetricStatus]; [NoMetricStatus] is the zero value. *)
Inductive MetricStatus : Type :=
| NoMetricStatus
| ExternalMetricStatus (selector : option LabelSelector) (name : string) (currentValue : Quantity)
| ResourceMetricStatus (name : string) (currentAverageValue : Quantity).

(** [autoscalingv2.HorizontalPodAutoscalerCondition]. *)
Record Condition : Type := {
  c_Type : string;
  c_Status : string;
  c_LastTransitionTime : option Time;
  c_Reason : string;
  c_Message : string
}.

Definition AbleToScale : string := "AbleToScale".
Definition ScalingActive : string := "ScalingActive".
Definition ScalingLimited : string := "ScalingLimited".
Definition dryRunCondition : string := "DryRun".

Record WatermarkPodAutoscalerStatus : Type := {
  CurrentReplicas : Z;
  DesiredReplicas : Z;
  CurrentMetrics : list MetricStatus;
  LastScaleTime : option Time;
  Conditions : list Condition
}.

Record WatermarkPodAutoscaler : Type := {
  Name : string;
  Namespace : string;
  Spec : WatermarkPodAutoscalerSpec;
  Status : WatermarkPodAutoscalerStatus
}.

Definition with_Status (wpa : WatermarkPodAutoscaler)
    (st : WatermarkPodAutoscalerStatus) : WatermarkPodAutoscaler :=
  {| Name := Name wpa; Namespace := Namespace wpa; Spec := Spec wpa; Status := st |}.

Definition with_Conditions (wpa : WatermarkPodAutoscaler)
    (cs : list Condition) : WatermarkPodAutoscaler :=
  with_Status wpa
    {| CurrentReplicas := CurrentReplicas (Status wpa);
       DesiredReplicas := DesiredReplicas (Status wpa);
       CurrentMetrics := CurrentMetrics (Status wpa);
       LastScaleTime := LastScaleTime (Status wpa);
       Conditions := cs |}.

(** [ReplicaCalculation]. *)
Record ReplicaCalculation : Type := {
  replicaCount : Z;
  utilization : Z;
  timestamp : Time
}.

(** The zero [time.Time{}]. *)
Definition zeroTime : Time := 0.

(** ** Collaborators *)

Record GroupResource : Type := { gr_Group : string; gr_Resource : string }.

(** [apimeta.RESTMapping]: the group-resource of [mapping.Resource] and the
    rendering of [mapping.GroupVersionKind.GroupVersion()]. *)
Record RESTMapping : Type := {
  m_GroupResource : GroupResource;
  m_GroupVersion : string
}.

Record Env : Type := {
  (** [labels.Parse] *)
  labels_Parse : string -> result Selector;
  (** [metav1.LabelSelectorAsSelector]; nil selects nothing, without error *)
  LabelSelectorAsSelector : option LabelSelector -> result Selector;
  (** [podLister.Pods(namespace).List(selector)]; the selector is nil when
      parsing it failed *)
  podLister_List : string -> option Selector -> result (list Pod);
  (** [metricsClient.GetExternalMetric(name, namespace, selector)] *)
  GetExternalMetric : string -> string -> Selector -> result (list Z * Time);
  (** [metricsClient.GetResourceMetric(resource, namespace, selector)]: the
      value of each pod's sample, by pod name *)
  GetResourceMetric : string -> string -> Selector -> result (gmap string Z * Time);
  (** [restMapper.RESTMappings(groupKind)], by group and kind *)
  RESTMappings : string -> string -> result (list RESTMapping);
  (** [scaleClient.Scales(namespace).Get(groupResource, name)]: the scale
      pointer and the error, either of which may be nil *)
  Scales_Get : string -> GroupResource -> string -> option Scale * option string;
  (** [scaleClient.Scales(namespace).Update(groupResource, scale)]: the error *)
  Scales_Update : string -> GroupResource -> Scale -> option string;
  (** [client.Status().Update(ctx, wpa)]: the error *)
  Status_Update : WatermarkPodAutoscaler -> option string;
  (** [time.Now()], one reading for the whole reconciliation *)
  Now : Time
}.

(** ** The replica calculator *)

Section ReplicaCalculator.
Context {arch : Arch}.

(** [getReplicaCount]: the watermark evaluator.  Returns the proposed
    replica count and the utilization in milli-units. *)
Definition getReplicaCount (currentReplicas : Z) (wpa : WatermarkPodAutoscaler)
    (adjustedUsage : F64) (lowMark highMark : Quantity) : Z * Z :=
  let utilizationQuantity := int64_of_F64 adjustedUsage in
  let tolerance := Fin (Tolerance (Spec wpa)) in
  let adjustedHM := fadd (F64_of_Z highMark) (fmul tolerance (F64_of_Z highMark)) in
  let adjustedLM := fsub (F64_of_Z lowMark) (fmul tolerance (F64_of_Z lowMark)) in
  if fgtb adjustedUsage adjustedHM then
    let replicaCount :=
      int32_of_F64 (fceil (fdiv (fmul (F64_of_Z currentReplicas) adjustedUsage)
                                (F64_of_Z highMark))) in
    (replicaCount, utilizationQuantity)
  else if fltb adjustedUsage adjustedLM then
    let replicaCount :=
      int32_of_F64 (ffloor (fdiv (fmul (F64_of_Z currentReplicas) adjustedUsage)
                                 (F64_of_Z lowMark))) in
    (* Keep a minimum of 1 replica *)
    let replicaCount := int32_of_F64 (fmax (F64_of_Z replicaCount) (F64_of_Z 1)) in
    (replicaCount, utilizationQuantity)
  else
    (currentReplicas, utilizationQuantity).

(** [getPodCondition]: the first condition of the given type, with its
    index; [(-1, nil)] when there is none. *)
Fixpoint getPodCondition_from (i : Z) (conditions : list PodCondition)
    (conditionType : string) : Z * option PodCondition :=
  match conditions with
  | [] => (-1, None)
  | c :: rest =>
      if String.eqb (pc_Type c) conditionType then (i, Some c)
      else getPodCondition_from (i + 1) rest conditionType
  end.

Definition getPodCondition (status : PodStatus) (conditionType : string)
    : Z * option PodCondition :=
  getPodCondition_from 0 (PodConditions status) conditionType.

(** The test of the loop of [getReadyPodsCount]: is the pod counted as
    ready? *)
Definition toleratedAsReady (readinessDelay : Duration) (pod : Pod) : bool :=
  match snd (getPodCondition (pod_Status pod) PodReady), StartTime (pod_Status pod) with
  | Some condition, Some startTime =>
      (String.eqb (Phase (pod_Status pod)) PodRunning
         && String.eqb (pc_Status condition) ConditionTrue)
      || (String.eqb (Phase (pod_Status pod)) PodPending
            && (Time_Sub (pc_LastTransitionTime condition) startTime <? readinessDelay))
  | _, _ => false
  end.

Definition getReadyPodsCount (env : Env) (namespace : string)
    (selector : option Selector) (readinessDelay : Duration) : result Z :=
  match podLister_List env namespace selector with
  | Panicked => Panicked
  | Err e => Err ("unable to get pods while calculating replica count: " +:+ e)
  | Ok podList =>
      if (Z.of_nat (length podList) =? 0) then
        Err "no pods returned by selector while calculating replica count"
      else
        let toleratedAsReadyPodCount :=
          fold_left (fun n pod => if toleratedAsReady readinessDelay pod then n + 1 else n)
                    podList 0 in
        if toleratedAsReadyPodCount =? 0 then
          Err ("among the " +:+ pretty (Z.of_nat (length podList))
               +:+ " pods, none is ready. Skipping recommendation")
        else Ok (wrap32 toleratedAsReadyPodCount)
  end.

(** The three sets built by [groupPods]. *)
Record PodGroups : Type := {
  readyPods : gset string;
  ignoredPods : gset string;
  missing : gset string
}.

(** One iteration of the loop of [groupPods]. *)
Definition groupPod (metrics : gmap string Z) (resource : string)
    (delayOfInitialReadinessStatus : Duration) (g : PodGroups) (pod : Pod) : PodGroups :=
  let ignore := {| readyPods := readyPods g;
                   ignoredPods := {[ pod_Name pod ]} ∪ ignoredPods g;
                   missing := missing g |} in
  (* Failed pods shouldn't produce metrics, but add to ignoredPods to be safe *)
  if String.eqb (Phase (pod_Status pod)) PodFailed then ignore
  (* Pending pods are ignored with Resource metrics. *)
  else if String.eqb (Phase (pod_Status pod)) PodPending then ignore
  else
    match metrics !! pod_Name pod with
    | None =>
        (* Pods missing metrics *)
        {| readyPods := readyPods g; ignoredPods := ignoredPods g;
           missing := {[ pod_Name pod ]} ∪ missing g |}
    | Some _ =>
        let ignorePod :=
          if String.eqb resource ResourceCPU then
            match snd (getPodCondition (pod_Status pod) PodReady),
                  StartTime (pod_Status pod) with
            | Some condition, Some startTime =>
                (* Ignore metric if pod is unready and it has never been ready. *)
                String.eqb (pc_Status condition) ConditionFalse
                && Time_After (Time_Add startTime delayOfInitialReadinessStatus)
                              (pc_LastTransitionTime condition)
            | _, _ => true
            end
          else false in
        if ignorePod then ignore
        else {| readyPods := {[ pod_Name pod ]} ∪ readyPods g;
                ignoredPods := ignoredPods g; missing := missing g |}
    end.

(** [groupPods] returns the ready and the ignored pods. *)
Definition groupPods (podList : list Pod) (metrics : gmap string Z) (resource : string)
    (delayOfInitialReadinessStatus : Duration) : gset string * gset string :=
  let g := fold_left (groupPod metrics resource delayOfInitialReadinessStatus) podList
             {| readyPods := ∅; ignoredPods := ∅; missing := ∅ |} in
  (readyPods g, ignoredPods g).

Definition removeMetricsForPods (metrics : gmap string Z) (pods : gset string)
    : gmap string Z :=
  set_fold (fun pod m => delete pod m) metrics pods.

(** The sum of the samples, in [int64]. *)
Definition sum_samples (metrics : list Z) : Z :=
  fold_left (fun sum val => wrap64 (sum + val)) metrics 0.

Definition sum_podMetrics (metrics : gmap string Z) : Z :=
  map_fold (fun _ val sum => wrap64 (sum + val)) 0 metrics.

(** The divisor of the usage: the number of ready pods under the "average"
    algorithm, 1 otherwise. *)
Definition averaged_of (wpa : WatermarkPodAutoscaler) (readyCount : Z) : F64 :=
  if String.eqb (Algorithm (Spec wpa)) "average" then F64_of_Z readyCount
  else Fin 1.

(** The first part of [GetExternalMetricReplicas], up to the usage handed to
    the evaluator: the number of ready pods, the adjusted usage and the
    timestamp of the samples. *)
Definition externalUsage (env : Env) (target : Scale) (metric : MetricSpec)
    (wpa : WatermarkPodAutoscaler) : result (Z * F64 * Time) :=
  let lbl := match labels_Parse env (scale_StatusSelector target) with
             | Ok s => Some s
             | _ => None
             end in
  match getReadyPodsCount env NamespaceAll lbl (seconds (ReadinessDelaySeconds (Spec wpa))) with
  | Panicked => Panicked
  | Err e =>
      Err ("unable to get the number of ready pods across all namespaces for "
           +:+ default "<nil>" lbl +:+ ": " +:+ e)
  | Ok currentReadyReplicas =>
      let averaged := averaged_of wpa currentReadyReplicas in
      match ms_External metric with
      | None => Panicked
      | Some external =>
          let metricName := ext_MetricName external in
          let selector := ext_MetricSelector external in
          match LabelSelectorAsSelector env selector with
          | Panicked => Panicked
          | Err e => Err e
          | Ok labelSelector =>
              match GetExternalMetric env metricName (Namespace wpa) labelSelector with
              | Panicked => Panicked
              | Err e =>
                  Err ("unable to get external metric " +:+ Namespace wpa +:+ "/"
                       +:+ metricName +:+ "/" +:+ default "<nil>" selector +:+ ": " +:+ e)
              | Ok (metrics, timestamp) =>
                  let sum := sum_samples metrics in
                  (* if the average algorithm is used, the metrics retrieved has to
                     be divided by the number of available replicas. *)
                  let adjustedUsage := fdiv (F64_of_Z sum) averaged in
                  Ok (currentReadyReplicas, adjustedUsage, timestamp)
              end
          end
      end
  end.

(** [GetExternalMetricReplicas]: the evaluator on the usage, with the number
    of ready pods as current replicas. *)
Definition GetExternalMetricReplicas (env : Env) (target : Scale) (metric : MetricSpec)
    (wpa : WatermarkPodAutoscaler) : result ReplicaCalculation :=
  match externalUsage env target metric wpa with
  | Panicked => Panicked
  | Err e => Err e
  | Ok (currentReadyReplicas, adjustedUsage, timestamp) =>
      match ms_External metric with
      | None => Panicked
      | Some external =>
          match ext_LowWatermark external, ext_HighWatermark external with
          | Some lowMark, Some highMark =>
              let '(replicaCount, utilizationQuantity) :=
                getReplicaCount currentReadyReplicas wpa adjustedUsage lowMark highMark in
              Ok {| replicaCount := replicaCount;
                    utilization := utilizationQuantity;
                    timestamp := timestamp |}
          | _, _ => Panicked
          end
      end
  end.

(** The first part of [GetResourceReplicas], up to the usage handed to the
    evaluator: the ready pods, the samples left once those of the ignored
    pods are removed, the adjusted usage and the timestamp of the samples. *)
Definition resourceUsage (env : Env) (target : Scale) (metric : MetricSpec)
    (wpa : WatermarkPodAutoscaler) : result (gset string * gmap string Z * F64 * Time) :=
  match ms_Resource metric with
  | None => Panicked
  | Some resource =>
      let resourceName := rsrc_Name resource in
      let selector := rsrc_MetricSelector resource in
      match LabelSelectorAsSelector env selector with
      | Panicked => Panicked
      | Err e => Err e
      | Ok labelSelector =>
          let namespace := Namespace wpa in
          match GetResourceMetric env resourceName namespace labelSelector with
          | Panicked => Panicked
          | Err e =>
              Err ("unable to get resource metric " +:+ Namespace wpa +:+ "/"
                   +:+ resourceName +:+ "/" +:+ default "<nil>" selector +:+ ": " +:+ e)
          | Ok (metrics, timestamp) =>
              match labels_Parse env (scale_StatusSelector target) with
              | Panicked => Panicked
              | Err e => Err ("could not parse the labels of the target: " +:+ e)
              | Ok lbl =>
                  match podLister_List env namespace (Some lbl) with
                  | Panicked => Panicked
                  | Err e =>
                      Err ("unable to get pods while calculating replica count: " +:+ e)
                  | Ok podList =>
                      if Z.of_nat (length podList) =? 0 then
                        Err "no pods returned by selector while calculating replica count"
                      else
                        let '(readyPods, ignoredPods) :=
                          groupPods podList metrics resourceName
                                    (seconds (ReadinessDelaySeconds (Spec wpa))) in
                        let readyPodCount := Z.of_nat (size readyPods) in
                        let metrics := removeMetricsForPods metrics ignoredPods in
                        if Z.of_nat (size metrics) =? 0 then
                          Err "did not receive metrics for any ready pods"
                        else
                          let averaged := averaged_of wpa readyPodCount in
                          let sum := sum_podMetrics metrics in
                          let adjustedUsage := fdiv (F64_of_Z sum) averaged in
                          Ok (readyPods, metrics, adjustedUsage, timestamp)
                  end
              end
          end
      end
  end.

(** [GetResourceReplicas]: the evaluator on the usage, with the status
    replicas of the target as current replicas. *)
Definition GetResourceReplicas (env : Env) (target : Scale) (metric : MetricSpec)
    (wpa : WatermarkPodAutoscaler) : result ReplicaCalculation :=
  match resourceUsage env target metric wpa with
  | Panicked => Panicked
  | Err e => Err e
  | Ok (_, _, adjustedUsage, timestamp) =>
      match ms_Resource metric with
      | None => Panicked
      | Some resource =>
          match rsrc_LowWatermark resource, rsrc_HighWatermark resource with
          | Some lowMark, Some highMark =>
              let '(replicaCount, utilizationQuantity) :=
                getReplicaCount (scale_StatusReplicas target) wpa
                                adjustedUsage lowMark highMark in
              Ok {| replicaCount := replicaCount;
                    utilization := utilizationQuantity;
                    timestamp := timestamp |}
          | _, _ => Panicked
          end
      end
  end.

End ReplicaCalculator.

(** ** Library functions used by the controller *)

(** [strings.HasPrefix(s, prefix)] and [strings.Contains(s, substr)]. *)
Fixpoint strings_HasPrefix (s pre : string) : bool :=
  match pre, s with
  | EmptyString, _ => true
  | String _ _, EmptyString => false
  | String a pre', String b s' => Ascii.eqb a b && strings_HasPrefix s' pre'
  end.

Fixpoint strings_Contains (s substr : string) : bool :=
  strings_HasPrefix s substr ||
  match s with
  | EmptyString => false
  | String _ s' => strings_Contains s' substr
  end.

(** [strings.Count(s, "/")] and the split of [s] at its first "/". *)
Fixpoint count_slash (s : string) : nat :=
  match s with
  | EmptyString => O
  | String a s' => if Ascii.eqb a "/"%char then S (count_slash s') else count_slash s'
  end.

Fixpoint split_slash (s : string) : string * string :=
  match s with
  | EmptyString => (EmptyString, EmptyString)
  | String a s' =>
      if Ascii.eqb a "/"%char then (EmptyString, s')
      else let '(g, v) := split_slash s' in (String a g, v)
  end.

(** [schema.ParseGroupVersion]: the group and the version. *)
Definition ParseGroupVersion (gv : string) : result (string * string) :=
  if String.eqb gv "" || String.eqb gv "/" then Ok ("", "")
  else
    match count_slash gv with
    | O => Ok ("", gv)
    | S O => Ok (split_slash gv)
    | _ => Err ("unexpected GroupVersion string: " +:+ gv)
    end.

(** [utilerrors.NewAggregate(errs)], by the message of the aggregate: nil for
    no error, the message of a single error, and otherwise the messages
    between brackets, separated by ", ". *)
Definition aggregate_Error (errs : list string) : string :=
  match errs with
  | [] => ""
  | [e] => e
  | e :: rest => "[" +:+ fold_left (fun acc e' => acc +:+ ", " +:+ e') rest e +:+ "]"
  end.

Definition NewAggregate (errs : list string) : option string :=
  match errs with
  | [] => None
  | _ => Some (aggregate_Error errs)
  end.

(** [apiequality.Semantic.DeepEqual] on statuses is equality of the values. *)
#[global] Instance MetricStatus_eq_dec : EqDecision MetricStatus.
Proof. solve_decision. Defined.
#[global] Instance Condition_eq_dec : EqDecision Condition.
Proof. solve_decision. Defined.
#[global] Instance WatermarkPodAutoscalerStatus_eq_dec :
  EqDecision WatermarkPodAutoscalerStatus.
Proof. solve_decision. Defined.

(** ** The controller *)

(** [setConditionInList]. *)
Definition setConditionFields (now : Time) (status reason message : string)
    (existingCond : Condition) : Condition :=
  {| c_Type := c_Type existingCond;
     c_Status := status;
     c_LastTransitionTime :=
       if String.eqb (c_Status existingCond) status
       then c_LastTransitionTime existingCond else Some now;
     c_Reason := reason;
     c_Message := message |}.

Fixpoint setConditionInList (now : Time) (inputList : list Condition)
    (conditionType status reason message : string) : list Condition :=
  match inputList with
  | [] =>
      [setConditionFields now status reason message
         {| c_Type := conditionType; c_Status := ""; c_LastTransitionTime := None;
            c_Reason := ""; c_Message := "" |}]
  | condition :: rest =>
      if String.eqb (c_Type condition) conditionType
      then setConditionFields now status reason message condition :: rest
      else condition :: setConditionInList now rest conditionType status reason message
  end.

(** [setCondition]; [message] is the formatted message. *)
Definition setCondition (env : Env) (wpa : WatermarkPodAutoscaler)
    (conditionType status reason message : string) : WatermarkPodAutoscaler :=
  with_Conditions wpa
    (setConditionInList (Now env) (Conditions (Status wpa)) conditionType status reason message).

(** [setStatus]. *)
Definition setStatus (env : Env) (wpa : WatermarkPodAutoscaler)
    (currentReplicas desiredReplicas : Z) (metricStatuses : list MetricStatus)
    (rescale : bool) : WatermarkPodAutoscaler :=
  with_Status wpa
    {| CurrentReplicas := currentReplicas;
       DesiredReplicas := desiredReplicas;
       CurrentMetrics := metricStatuses;
       LastScaleTime := if rescale then Some (Now env) else LastScaleTime (Status wpa);
       Conditions := Conditions (Status wpa) |}.

(** [setCurrentReplicasInStatus]. *)
Definition setCurrentReplicasInStatus (env : Env) (wpa : WatermarkPodAutoscaler)
    (currentReplicas : Z) : WatermarkPodAutoscaler :=
  setStatus env wpa currentReplicas (DesiredReplicas (Status wpa))
            (CurrentMetrics (Status wpa)) false.

(** [updateStatusIfNeeded]: the object sent to the status client, if any,
    and the error. *)
Definition updateStatusIfNeeded (env : Env) (wpaStatus : WatermarkPodAutoscalerStatus)
    (wpa : WatermarkPodAutoscaler) : option WatermarkPodAutoscaler * option string :=
  (* skip a write if we wouldn't need to update *)
  if bool_decide (wpaStatus = Status wpa) then (None, None)
  else (Some wpa, Status_Update env wpa).

(** [canScale] ensures that we only scale under the right conditions. *)
Definition canScale (backoffUp backoffDown : bool) (currentReplicas desiredReplicas : Z)
    : bool :=
  if desiredReplicas =? currentReplicas then false
  else (negb backoffUp && (currentReplicas <? desiredReplicas))
       || (negb backoffDown && (desiredReplicas <? currentReplicas)).

(** [shouldScale]: the cooldown gate. *)
Definition shouldScale (env : Env) (wpa : WatermarkPodAutoscaler)
    (currentReplicas desiredReplicas : Z) (timestamp : Time)
    : WatermarkPodAutoscaler * bool :=
  match LastScaleTime (Status wpa) with
  | None => (wpa, true)
  | Some lastScaleTime =>
      let downscaleForbiddenWindow := seconds (DownscaleForbiddenWindowSeconds (Spec wpa)) in
      let downscaleCountdown :=
        Time_Sub (Time_Add lastScaleTime downscaleForbiddenWindow) timestamp in
      let backoffDown := 0 <? downscaleCountdown in
      let wpa :=
        if backoffDown
        then setCondition env wpa AbleToScale ConditionFalse "BackoffDownscale"
               "the time since the previous scale is still within the downscale forbidden window"
        else wpa in
      let upscaleForbiddenWindow := seconds (UpscaleForbiddenWindowSeconds (Spec wpa)) in
      let upscaleCountdown :=
        Time_Sub (Time_Add lastScaleTime upscaleForbiddenWindow) timestamp in
      (* Only upscale if there was no rescaling in the last upscaleForbiddenWindow *)
      let backoffUp := 0 <? upscaleCountdown in
      let wpa :=
        if backoffUp then
          if backoffDown
          then setCondition env wpa AbleToScale ConditionFalse "BackoffBoth"
                 "the time since the previous scale is still within both the downscale and upscale forbidden windows"
          else setCondition env wpa AbleToScale ConditionFalse "BackoffUpscale"
                 "the time since the previous scale is still within the upscale forbidden window"
        else wpa in
      (wpa, canScale backoffUp backoffDown currentReplicas desiredReplicas)
  end.

Section Normalizer.
Context {arch : Arch}.

(** Scaleup limit is used to maximize the upscaling rate: it returns TO how
    much we can upscale, not BY how much. *)
Definition calculateScaleUpLimit (wpa : WatermarkPodAutoscaler) (currentReplicas : Z) : Z :=
  int32_of_F64
    (fadd (F64_of_Z currentReplicas)
          (fmax (F64_of_Z 1)
                (ffloor (fmul (fdiv (Fin (ScaleUpLimitFactor (Spec wpa))) (F64_of_Z 100))
                              (F64_of_Z currentReplicas))))).

(** Scaledown limit is used to maximize the downscaling rate. *)
Definition calculateScaleDownLimit (wpa : WatermarkPodAutoscaler) (currentReplicas : Z) : Z :=
  int32_of_F64
    (fsub (F64_of_Z currentReplicas)
          (fmax (F64_of_Z 1)
                (ffloor (fmul (fdiv (Fin (ScaleDownLimitFactor (Spec wpa))) (F64_of_Z 100))
                              (F64_of_Z currentReplicas))))).

(** [convertDesiredReplicasWithRules] performs the actual normalization.
    Returns the replica count, the limiting condition and its reason. *)
Definition convertDesiredReplicasWithRules (wpa : WatermarkPodAutoscaler)
    (currentReplicas desiredReplicas wpaMinReplicas wpaMaxReplicas : Z)
    : Z * string * string :=
  let scaleDownLimit := calculateScaleDownLimit wpa currentReplicas in
  (* Compute the maximum and minimum number of replicas we can have *)
  let '(minimumAllowedReplicas, possibleLimitingCondition, possibleLimitingReason) :=
    if wpaMinReplicas =? 0 then (1, "", "")
    else if desiredReplicas <? scaleDownLimit then
      (int32_of_F64 (fmax (F64_of_Z scaleDownLimit) (F64_of_Z wpaMinReplicas)),
       "ScaleDownLimit",
       "the desired replica count is decreasing faster than the maximum scale rate")
    else
      (wpaMinReplicas, "TooFewReplicas",
       "the desired replica count is below the minimum replica count") in
  if desiredReplicas <? minimumAllowedReplicas then
    (minimumAllowedReplicas, possibleLimitingCondition, possibleLimitingReason)
  else
    let scaleUpLimit := calculateScaleUpLimit wpa currentReplicas in
    let '(maximumAllowedReplicas, possibleLimitingCondition, possibleLimitingReason) :=
      if scaleUpLimit <? desiredReplicas then
        (int32_of_F64 (fmin (F64_of_Z scaleUpLimit) (F64_of_Z wpaMaxReplicas)),
         "ScaleUpLimit",
         "the desired replica count is increasing faster than the maximum scale rate")
      else
        (wpaMaxReplicas, "TooManyReplicas",
         "the desired replica count is above the maximum replica count") in
    (* make sure the desiredReplicas is between the allowed boundaries. *)
    if maximumAllowedReplicas <? desiredReplicas then
      (maximumAllowedReplicas, possibleLimitingCondition, possibleLimitingReason)
    else
      (desiredReplicas, "DesiredWithinRange",
       "the desired count is within the acceptable range").

(** [normalizeDesiredReplicas] takes the metrics desired replicas value and
    normalizes it based on the appropriate conditions. *)
Definition normalizeDesiredReplicas (env : Env) (wpa : WatermarkPodAutoscaler)
    (currentReplicas prenormalizedDesiredReplicas : Z) : WatermarkPodAutoscaler * Z :=
  let minReplicas := match MinReplicas (Spec wpa) with Some m => m | None => 0 end in
  let '(desiredReplicas, condition, reason) :=
    convertDesiredReplicasWithRules wpa currentReplicas prenormalizedDesiredReplicas
                                    minReplicas (MaxReplicas (Spec wpa)) in
  let wpa :=
    if desiredReplicas =? prenormalizedDesiredReplicas
    then setCondition env wpa ScalingLimited ConditionFalse condition reason
    else setCondition env wpa ScalingLimited ConditionTrue condition reason in
  (wpa, desiredReplicas).

End Normalizer.

(** ** The metric aggregator *)

(** [ReplicaCalculatorItf]. *)
Record ReplicaCalculatorItf : Type := {
  itf_GetExternalMetricReplicas :
    Scale -> MetricSpec -> WatermarkPodAutoscaler -> result ReplicaCalculation;
  itf_GetResourceReplicas :
    Scale -> MetricSpec -> WatermarkPodAutoscaler -> result ReplicaCalculation
}.

(** [NewReplicaCalculator]: the calculator over the metrics client and the
    pod lister of [env]. *)
Definition NewReplicaCalculator {arch : Arch} (env : Env) : ReplicaCalculatorItf :=
  {| itf_GetExternalMetricReplicas := GetExternalMetricReplicas env;
     itf_GetResourceReplicas := GetResourceReplicas env |}.

(** What one metric spec contributes in [computeReplicasForMetrics]. *)
Record MetricProposal : Type := {
  replicaCountProposal : Z;
  timestampProposal : Time;
  metricNameProposal : string;
  statusProposal : MetricStatus
}.

(** The body of the [switch metricSpec.Type] of [computeReplicasForMetrics],
    for a spec that has a source. *)
Definition evalMetricSpec (env : Env) (replicaCalc : ReplicaCalculatorItf)
    (wpa : WatermarkPodAutoscaler) (scale : Scale) (metricSpec : MetricSpec)
    : WatermarkPodAutoscaler * result MetricProposal :=
  if String.eqb (ms_Type metricSpec) ExternalMetricSourceType then
    match ms_External metricSpec with
    | None => (wpa, Panicked)
    | Some external =>
        match ext_HighWatermark external, ext_LowWatermark external with
        | Some _, Some _ =>
            match ext_MetricSelector external with
            | None => (wpa, Panicked)
            | Some matchLabels =>
                let metricNameProposal :=
                  ext_MetricName external +:+ "{" +:+ matchLabels +:+ "}" in
                match itf_GetExternalMetricReplicas replicaCalc scale metricSpec wpa with
                | Panicked => (wpa, Panicked)
                | Err errMetricsServer =>
                    (setCondition env wpa ScalingActive ConditionFalse "FailedGetExternalMetric"
                       ("the HPA was unable to compute the replica count: " +:+ errMetricsServer),
                     Err ("failed to get external metric " +:+ ext_MetricName external
                          +:+ ": " +:+ errMetricsServer))
                | Ok replicaCalculation =>
                    (wpa,
                     Ok {| replicaCountProposal := replicaCount replicaCalculation;
                           timestampProposal := timestamp replicaCalculation;
                           metricNameProposal := metricNameProposal;
                           statusProposal :=
                             ExternalMetricStatus (ext_MetricSelector external)
                               (ext_MetricName external) (utilization replicaCalculation) |})
                end
            end
        | _, _ =>
            let errMsg :=
              "invalid external metric source: the high watermark and the low watermark are required" in
            (setCondition env wpa ScalingActive ConditionFalse "FailedGetExternalMetric"
               "the WPA was unable to compute the replica count: <nil>",
             Err errMsg)
        end
    end
  else if String.eqb (ms_Type metricSpec) ResourceMetricSourceType then
    match ms_Resource metricSpec with
    | None => (wpa, Panicked)
    | Some resource =>
        match rsrc_HighWatermark resource, rsrc_LowWatermark resource with
        | Some _, Some _ =>
            match rsrc_MetricSelector resource with
            | None => (wpa, Panicked)
            | Some matchLabels =>
                let metricNameProposal :=
                  rsrc_Name resource +:+ "{" +:+ matchLabels +:+ "}" in
                match itf_GetResourceReplicas replicaCalc scale metricSpec wpa with
                | Panicked => (wpa, Panicked)
                | Err errMetricsServer =>
                    (setCondition env wpa ScalingActive ConditionFalse "FailedGetResourceMetric"
                       ("the WPA was unable to compute the replica count: " +:+ errMetricsServer),
                     Err ("failed to get resource metric " +:+ rsrc_Name resource
                          +:+ ": " +:+ errMetricsServer))
                | Ok replicaCalculation =>
                    (wpa,
                     Ok {| replicaCountProposal := replicaCount replicaCalculation;
                           timestampProposal := timestamp replicaCalculation;
                           metricNameProposal := metricNameProposal;
                           statusProposal :=
                             ResourceMetricStatus (rsrc_Name resource)
                               (utilization replicaCalculation) |})
                end
            end
        | _, _ =>
            let errMsg :=
              "invalid resource metric source: the high watermark and the low watermark are required" in
            (setCondition env wpa ScalingActive ConditionFalse "FailedGetResourceMetric"
               "the WPA was unable to compute the replica count: <nil>",
             Err errMsg)
        end
    end
  else (wpa, Err ("metricSpec.Type:" +:+ ms_Type metricSpec +:+ " not supported")).

(** The results of [computeReplicasForMetrics]. *)
Record MetricsReplicas : Type := {
  replicas : Z;
  metric : string;
  statuses : list MetricStatus;
  metricTimestamp : Time
}.

(** The loop of [computeReplicasForMetrics] over the metric specs from index
    [i] on. *)
Fixpoint computeReplicasLoop (env : Env) (replicaCalc : ReplicaCalculatorItf)
    (scale : Scale) (specs : list MetricSpec) (i : nat)
    (wpa : WatermarkPodAutoscaler) (acc : MetricsReplicas)
    : WatermarkPodAutoscaler * result MetricsReplicas :=
  match specs with
  | [] => (wpa, Ok acc)
  | metricSpec :: rest =>
      match ms_External metricSpec, ms_Resource metricSpec with
      | None, None => computeReplicasLoop env replicaCalc scale rest (S i) wpa acc
      | _, _ =>
          match evalMetricSpec env replicaCalc wpa scale metricSpec with
          | (wpa, Panicked) => (wpa, Panicked)
          | (wpa, Err e) => (wpa, Err e)
          | (wpa, Ok p) =>
              let statuses := <[ i := statusProposal p ]> (statuses acc) in
              (* replicas will end up being the max of the replicaCountProposal
                 if there are several metrics *)
              let acc :=
                if (replicas acc =? 0) || (replicas acc <? replicaCountProposal p) then
                  {| replicas := replicaCountProposal p;
                     metric := metricNameProposal p;
                     statuses := statuses;
                     metricTimestamp := timestampProposal p |}
                else
                  {| replicas := replicas acc; metric := metric acc;
                     statuses := statuses; metricTimestamp := metricTimestamp acc |} in
              computeReplicasLoop env replicaCalc scale rest (S i) wpa acc
          end
      end
  end.

(** [computeReplicasForMetrics]. *)
Definition computeReplicasForMetrics (env : Env) (replicaCalc : ReplicaCalculatorItf)
    (wpa : WatermarkPodAutoscaler) (scale : Scale)
    : WatermarkPodAutoscaler * result MetricsReplicas :=
  let statuses := replicate (length (Metrics (Spec wpa))) NoMetricStatus in
  match computeReplicasLoop env replicaCalc scale (Metrics (Spec wpa)) 0 wpa
          {| replicas := 0; metric := ""; statuses := statuses;
             metricTimestamp := zeroTime |} with
  | (wpa, Ok r) =>
      (setCondition env wpa ScalingActive ConditionTrue "ValidMetricFound"
         ("the HPA was able to successfully calculate a replica count from " +:+ metric r),
       Ok r)
  | other => other
  end.

(** ** The reconciliation driver *)

(** Modelled from the spec: the constant [ConditionReasonSucceededRescale] of
    the API package [v1alpha1], which is not part of the sources at hand; the
    reason recorded after a successful rescale. *)
Definition ConditionReasonSucceededRescale : string := "SucceededRescale".

(** The loop of [getScaleForResourceMappings]: each mapping in turn until a
    working one is found. *)
Fixpoint getScaleLoop (env : Env) (namespace name : string) (mappings : list RESTMapping)
    (errs : list string) (scale : option Scale) (targetGR : GroupResource)
    : option Scale * GroupResource * list string :=
  match mappings with
  | [] => (scale, targetGR, errs)
  | mapping :: rest =>
      let targetGR := m_GroupResource mapping in
      let '(scale, err) := Scales_Get env namespace targetGR name in
      match err with
      | None => (scale, targetGR, errs)
      | Some e =>
          getScaleLoop env namespace name rest
            (errs ++ ["could not get scale for the GV " +:+ m_GroupVersion mapping
                      +:+ ", error: " +:+ e])
            scale targetGR
      end
  end.

(** [getScaleForResourceMappings]: the scale, the group-resource of the
    working mapping, and the aggregate of the errors. *)
Definition getScaleForResourceMappings (env : Env) (namespace name : string)
    (mappings : list RESTMapping) : option Scale * GroupResource * option string :=
  let '(scale, targetGR, errs) :=
    getScaleLoop env namespace name mappings [] None
                 {| gr_Group := ""; gr_Resource := "" |} in
  let errs := match scale with
              | None => errs ++ ["scale not found"]
              | Some _ => errs
              end in
  (* make sure we handle an empty set of mappings *)
  (scale, targetGR, NewAggregate errs).

(** The call of [scaleClient.Scales(namespace).Update]. *)
Record ScaleUpdate : Type := {
  su_namespace : string;
  su_target : GroupResource;
  su_scale : Scale;
  su_error : option string
}.

(** What one run of [reconcileWPA] does: the object as it is left in memory,
    the update of the scale subresource and the object sent to the status
    client, if any, and the value returned; [Panicked] is a panic caught by
    the deferred [recover]. *)
Record Outcome : Type := {
  out_wpa : WatermarkPodAutoscaler;
  out_scaleUpdate : option ScaleUpdate;
  out_statusUpdate : option WatermarkPodAutoscaler;
  out_return : result unit
}.

Definition returned (wpa : WatermarkPodAutoscaler) (r : result unit) : Outcome :=
  {| out_wpa := wpa; out_scaleUpdate := None; out_statusUpdate := None; out_return := r |}.

Definition error_result (e : option string) : result unit :=
  match e with None => Ok tt | Some msg => Err msg end.

Section Driver.
Context {arch : Arch}.

(** The decision of the [switch] of [reconcileWPA]: either the function has
    returned, or it goes on with the desired replicas and the gate's verdict. *)
Inductive Decision : Type :=
| Return (o : Outcome)
| Proceed (wpa : WatermarkPodAutoscaler) (desiredReplicas : Z) (rescale : bool)
          (metricStatuses : list MetricStatus).

Definition decide_replicas (env : Env) (replicaCalc : ReplicaCalculatorItf)
    (wpa : WatermarkPodAutoscaler) (wpaStatusOriginal : WatermarkPodAutoscalerStatus)
    (currentScale : Scale) : Decision :=
  let currentReplicas := scale_StatusReplicas currentScale in
  let metricStatuses := CurrentMetrics wpaStatusOriginal in
  if scale_SpecReplicas currentScale =? 0 then
    (* Autoscaling is disabled for this resource *)
    Proceed
      (setCondition env wpa ScalingActive ConditionFalse "ScalingDisabled"
         "scaling is disabled since the replica count of the target is zero")
      0 false metricStatuses
  else if MaxReplicas (Spec wpa) <? currentReplicas then
    Proceed wpa (MaxReplicas (Spec wpa)) true metricStatuses
  else if match MinReplicas (Spec wpa) with
          | Some minReplicas => currentReplicas <? minReplicas
          | None => false
          end then
    (* [*wpa.Spec.MinReplicas], which is not nil here *)
    Proceed wpa (default 0 (MinReplicas (Spec wpa))) true metricStatuses
  else if currentReplicas =? 0 then
    Proceed wpa 1 true metricStatuses
  else
    match computeReplicasForMetrics env replicaCalc wpa currentScale with
    | (wpa, Panicked) => Return (returned wpa Panicked)
    | (wpa, Err err) =>
        let wpa := setCurrentReplicasInStatus env wpa currentReplicas in
        match updateStatusIfNeeded env wpaStatusOriginal wpa with
        | (sent, Some err2) =>
            Return
              {| out_wpa :=
                   setCondition env wpa AbleToScale ConditionFalse "FailedUpdateReplicas"
                     ("the WPA controller was unable to update the number of replicas: " +:+ err);
                 out_scaleUpdate := None;
                 out_statusUpdate := sent;
                 out_return := Ok tt |}
        | (sent, None) =>
            Return {| out_wpa := wpa; out_scaleUpdate := None;
                      out_statusUpdate := sent; out_return := Ok tt |}
        end
    | (wpa, Ok r) =>
        let proposedReplicas := replicas r in
        let desiredReplicas := 0 in
        let now := Now env in
        let '(desiredReplicas, now) :=
          if desiredReplicas <? proposedReplicas
          then (proposedReplicas, metricTimestamp r)
          else (desiredReplicas, now) in
        let '(wpa, desiredReplicas) :=
          normalizeDesiredReplicas env wpa currentReplicas desiredReplicas in
        let '(wpa, rescale) := shouldScale env wpa currentReplicas desiredReplicas now in
        Proceed wpa desiredReplicas rescale (statuses r)
    end.

(** [reconcileWPA] from the point where the scale of the target is known. *)
Definition reconcileScale (env : Env) (replicaCalc : ReplicaCalculatorItf)
    (wpa : WatermarkPodAutoscaler) (currentScale : Scale) (targetGR : GroupResource)
    : Outcome :=
  let currentReplicas := scale_StatusReplicas currentScale in
  let wpaStatusOriginal := Status wpa in
  let wpa :=
    setCondition env wpa AbleToScale ConditionTrue "SucceededGetScale"
      "the WPA controller was able to get the target's current scale" in
  match decide_replicas env replicaCalc wpa wpaStatusOriginal currentScale with
  | Return o => o
  | Proceed wpa desiredReplicas rescale metricStatuses =>
      if rescale then
        let wpa :=
          setCondition env wpa AbleToScale ConditionTrue "ReadyForScale"
            "the last scaling time was sufficiently old as to warrant a new scale" in
        if DryRun (Spec wpa) then
          let wpa := setStatus env wpa currentReplicas desiredReplicas metricStatuses rescale in
          let '(sent, err) := updateStatusIfNeeded env wpaStatusOriginal wpa in
          {| out_wpa := wpa; out_scaleUpdate := None; out_statusUpdate := sent;
             out_return := error_result err |}
        else
          let newScale :=
            {| scale_SpecReplicas := desiredReplicas;
               scale_StatusReplicas := scale_StatusReplicas currentScale;
               scale_StatusSelector := scale_StatusSelector currentScale |} in
          let update err :=
            {| su_namespace := Namespace wpa; su_target := targetGR;
               su_scale := newScale; su_error := err |} in
          match Scales_Update env (Namespace wpa) targetGR newScale with
          | Some err =>
              let wpa :=
                setCondition env wpa AbleToScale ConditionFalse "FailedUpdateScale"
                  ("the HPA controller was unable to update the target scale: " +:+ err) in
              let wpa := setCurrentReplicasInStatus env wpa currentReplicas in
              match updateStatusIfNeeded env wpaStatusOriginal wpa with
              | (sent, Some err2) =>
                  {| out_wpa :=
                       setCondition env wpa AbleToScale ConditionFalse "FailedUpdateReplicas"
                         ("the WPA controller was unable to update the number of replicas: "
                          +:+ err2);
                     out_scaleUpdate := Some (update (Some err));
                     out_statusUpdate := sent;
                     out_return := Ok tt |}
              | (sent, None) =>
                  {| out_wpa := wpa; out_scaleUpdate := Some (update (Some err));
                     out_statusUpdate := sent; out_return := Ok tt |}
              end
          | None =>
              let wpa :=
                setCondition env wpa AbleToScale ConditionTrue ConditionReasonSucceededRescale
                  ("the HPA controller was able to update the target scale to "
                   +:+ pretty desiredReplicas) in
              let wpa := setStatus env wpa currentReplicas desiredReplicas metricStatuses rescale in
              let '(sent, err) := updateStatusIfNeeded env wpaStatusOriginal wpa in
              {| out_wpa := wpa; out_scaleUpdate := Some (update None);
                 out_statusUpdate := sent; out_return := error_result err |}
          end
      else
        let desiredReplicas := currentReplicas in
        let wpa := setStatus env wpa currentReplicas desiredReplicas metricStatuses rescale in
        let '(sent, err) := updateStatusIfNeeded env wpaStatusOriginal wpa in
        {| out_wpa := wpa; out_scaleUpdate := None; out_statusUpdate := sent;
           out_return := error_result err |}
  end.

(** The first lines of [reconcileWPA]: the scale of the target and the
    group-resource it was found under. *)
Definition getTargetScale (env : Env) (wpa : WatermarkPodAutoscaler)
    : result (Scale * GroupResource) :=
  (* the following line are here to retrieve the GVK of the target ref *)
  match ParseGroupVersion (ref_APIVersion (ScaleTargetRef (Spec wpa))) with
  | Panicked => Panicked
  | Err err => Err ("invalid API version in scale target reference: " +:+ err)
  | Ok (group, _) =>
      match RESTMappings env group (ref_Kind (ScaleTargetRef (Spec wpa))) with
      | Panicked => Panicked
      | Err err =>
          Err ("unable to determine resource for scale target reference: " +:+ err)
      | Ok mappings =>
          let '(currentScale, targetGR, err) :=
            getScaleForResourceMappings env (Namespace wpa)
              (ref_Name (ScaleTargetRef (Spec wpa))) mappings in
          match currentScale with
          | None =>
              match err with
              | None => Panicked
              | Some msg =>
                  if strings_Contains msg "not found" then
                    (* it is possible that one of the GK in the mappings was not
                       found, but if we have at least one that works, we can
                       continue reconciling. *)
                    Err msg
                  else Panicked
              end
          | Some currentScale => Ok (currentScale, targetGR)
          end
      end
  end.

(** [reconcileWPA] is the core of the controller. *)
Definition reconcileWPA (env : Env) (replicaCalc : ReplicaCalculatorItf)
    (wpa : WatermarkPodAutoscaler) : Outcome :=
  match getTargetScale env wpa with
  | Panicked => returned wpa Panicked
  | Err err => returned wpa (Err err)
  | Ok (currentScale, targetGR) =>
      reconcileScale env replicaCalc wpa currentScale targetGR
  end.

End Driver.

(** * Sample inputs *)

(** One implementation of the conversions: the "integer indefinite" value of
    amd64. *)
Definition amd64 : Arch :=
  {| undef32 := fun _ => min_int32; undef64 := fun _ => min_int64 |}.

Definition sample_ref : CrossVersionObjectReference :=
  {| ref_Kind := "Deployment"; ref_Name := "web"; ref_APIVersion := "apps/v1" |}.

Definition sample_status (lastScaleTime : option Time) : WatermarkPodAutoscalerStatus :=
  {| CurrentReplicas := 0; DesiredReplicas := 0; CurrentMetrics := [];
     LastScaleTime := lastScaleTime; Conditions := [] |}.

(** A policy on the deployment "web", with no readiness delay and cooldown
    windows of 60 seconds. *)
Definition sample_wpa (algorithm : string) (minReplicas : option Z) (maxReplicas : Z)
    (tolerance : Q) (scaleUp scaleDown : Q) (dryRun : bool) (metrics : list MetricSpec)
    (lastScaleTime : option Time) : WatermarkPodAutoscaler :=
  {| Name := "wpa"; Namespace := "default";
     Spec := {| ScaleTargetRef := sample_ref;
                MinReplicas := minReplicas; MaxReplicas := maxReplicas;
                Algorithm := algorithm; Tolerance := tolerance;
                ScaleUpLimitFactor := scaleUp; ScaleDownLimitFactor := scaleDown;
                UpscaleForbiddenWindowSeconds := 60;
                DownscaleForbiddenWindowSeconds := 60;
                ReadinessDelaySeconds := 0;
                DryRun := dryRun; Metrics := metrics |};
     Status := sample_status lastScaleTime |}.

(** A running pod whose Ready condition is true, and a failed pod. *)
Definition ready_pod (name : string) : Pod :=
  {| pod_Name := name; pod_Namespace := "default";
     pod_Status := {| Phase := PodRunning; StartTime := Some 0;
                      PodConditions := [ {| pc_Type := PodReady; pc_Status := ConditionTrue;
                                            pc_LastTransitionTime := 0 |} ] |} |}.

Definition failed_pod (name : string) : Pod :=
  {| pod_Name := name; pod_Namespace := "default";
     pod_Status := {| Phase := PodFailed; StartTime := Some 0; PodConditions := [] |} |}.

Definition external_spec (name : string) (low high : Quantity) : MetricSpec :=
  {| ms_Type := ExternalMetricSourceType;
     ms_External := Some {| ext_MetricName := name; ext_MetricSelector := Some "app:web";
                            ext_HighWatermark := Some high; ext_LowWatermark := Some low |};
     ms_Resource := None |}.

Definition resource_spec (name : string) (low high : Quantity) : MetricSpec :=
  {| ms_Type := ResourceMetricSourceType;
     ms_External := None;
     ms_Resource := Some {| rsrc_Name := name; rsrc_MetricSelector := Some "app:web";
                            rsrc_HighWatermark := Some high; rsrc_LowWatermark := Some low |} |}.

Definition sample_mapping : RESTMapping :=
  {| m_GroupResource := {| gr_Group := "apps"; gr_Resource := "deployments" |};
     m_GroupVersion := "apps/v1" |}.

(** Collaborators that answer every call: the scale of the target, its
    pods, the samples of each external metric and of the resource metrics,
    the error of the scale update, and the clock at 1000 seconds; metric
    samples carry the timestamp of 990 seconds. *)
Definition sample_env (scale : Scale) (pods : list Pod) (external : string -> list Z)
    (resource : gmap string Z) (updateError : option string) : Env :=
  {| labels_Parse := fun s => Ok s;
     LabelSelectorAsSelector := fun s => Ok (default "" s);
     podLister_List := fun _ _ => Ok pods;
     GetExternalMetric := fun name _ _ => Ok (external name, 990 * Second);
     GetResourceMetric := fun _ _ _ => Ok (resource, 990 * Second);
     RESTMappings := fun _ _ => Ok [sample_mapping];
     Scales_Get := fun _ _ _ => (Some scale, None);
     Scales_Update := fun _ _ _ => updateError;
     Status_Update := fun _ => None;
     Now := 1000 * Second |}.

Definition sample_scale (specReplicas statusReplicas : Z) : Scale :=
  {| scale_SpecReplicas := specReplicas; scale_StatusReplicas := statusReplicas;
     scale_StatusSelector := "app=web" |}.

(** [n] ready pods. *)
Definition ready_pods (n : nat) : list Pod :=
  map (fun i => ready_pod ("web-" +:+ pretty i)) (seq 0 n).

(** The samples of one pod. *)
Definition one_sample (pod : string) (value : Z) : gmap string Z := {[ pod := value ]}.

(** Scenario "upscale above the high watermark": 10 replicas, all ready, an
    external metric at 9000 for watermarks 5000 and 8000 and a tolerance of
    0.1, limit factors of 50 percent, replica bounds 1 and 20. *)
Definition upscale_metrics : list MetricSpec := [external_spec "qps" 5000 8000].

Definition upscale_wpa (dryRun : bool) (lastScaleTime : option Time)
    : WatermarkPodAutoscaler :=
  sample_wpa "absolute" (Some 1) 20 (1 # 10) 50 50 dryRun upscale_metrics lastScaleTime.

Definition upscale_env (updateError : option string) : Env :=
  sample_env (sample_scale 10 10) (ready_pods 10) (fun _ => [9000]) ∅ updateError.

(** Scenario "above the maximum": 100 replicas for a policy with at most 10
    and limit factors of 10 percent. *)
Definition over_max_wpa : WatermarkPodAutoscaler :=
  sample_wpa "absolute" (Some 1) 10 (1 # 10) 10 10 false upscale_metrics None.

Definition over_max_env : Env :=
  sample_env (sample_scale 100 100) (ready_pods 10) (fun _ => [9000]) ∅ None.

(** Scenario "dead band": 2 replicas, both ready, a resource metric whose
    samples sum to 6000 for watermarks 5000 and 8000 and a tolerance of
    0.1. *)
Definition dead_band_metric : MetricSpec := resource_spec "cpu" 5000 8000.

Definition dead_band_wpa (lastScaleTime : option Time) : WatermarkPodAutoscaler :=
  sample_wpa "absolute" (Some 1) 20 (1 # 10) 50 50 false [dead_band_metric] lastScaleTime.

Definition dead_band_samples : gmap string Z :=
  {[ "web-0" := 3000; "web-1" := 3000 ]}.

Definition dead_band_env : Env :=
  sample_env (sample_scale 2 2) (ready_pods 2) (fun _ => []) dead_band_samples None.





(** Scenario "several metrics": two ready pods and two external metrics with
    watermarks 500 and 1000, at 2000 and at 3500. *)
Definition several_metrics : list MetricSpec :=
  [external_spec "a" 500 1000; external_spec "b" 500 1000].

Definition several_wpa : WatermarkPodAutoscaler :=
  sample_wpa "absolute" (Some 1) 20 0 50 50 false several_metrics None.

Definition several_env : Env :=
  sample_env (sample_scale 2 2) (ready_pods 2)
             (fun name => if String.eqb name "a" then [2000] else [3500]) ∅ None.

(** Scenario "stale samples": the only pod of the target has failed, and the
    metrics client reports a sample for a pod "b" that is not listed. *)
Definition stale_wpa (algorithm : string) : WatermarkPodAutoscaler :=
  sample_wpa algorithm (Some 1) 20 0 50 50 false [dead_band_metric] None.

Definition stale_env : Env :=
  sample_env (sample_scale 3 3) [failed_pod "a"] (fun _ => []) (one_sample "b" 100) None.

(** Scenario "no scale": the scale client fails for the only mapping. *)
Definition no_scale_env : Env :=
  {| labels_Parse := fun s => Ok s;
     LabelSelectorAsSelector := fun s => Ok (default "" s);
     podLister_List := fun _ _ => Ok [];
     GetExternalMetric := fun _ _ _ => Ok ([], 0);
     GetResourceMetric := fun _ _ _ => Ok (∅, 0);
     RESTMappings := fun _ _ => Ok [sample_mapping];
     Scales_Get := fun _ _ _ => (None, Some "connection refused");
     Scales_Update := fun _ _ _ => None;
     Status_Update := fun _ => None;
     Now := 1000 * Second |}.

(** * The quantities of the specification *)

Definition is_int32 (z : Z) : Prop := min_int32 <= z <= max_int32.

(** The lower bound on the replicas: [MinReplicas], taken as 1 when it is
    zero or unset. *)
Definition effective_min (minReplicas : option Z) : Z :=
  match minReplicas with
  | None => 1
  | Some m => if m =? 0 then 1 else m
  end.

(** The rate bounds [N + max(1, floor(fUp * N / 100))] and
    [N - max(1, floor(fDown * N / 100))] around [N] replicas. *)
Definition spec_scaleUpCap (wpa : WatermarkPodAutoscaler) (N : Z) : Z :=
  N + Z.max 1 (Qfloor (ScaleUpLimitFactor (Spec wpa) * inject_Z N / inject_Z 100)).

Definition spec_scaleDownCap (wpa : WatermarkPodAutoscaler) (N : Z) : Z :=
  N - Z.max 1 (Qfloor (ScaleDownLimitFactor (Spec wpa) * inject_Z N / inject_Z 100)).

(** Both rate bounds are values of [int32]. *)
Definition caps_representable (wpa : WatermarkPodAutoscaler) (N : Z) : Prop :=
  is_int32 (spec_scaleDownCap wpa N) /\ is_int32 (spec_scaleUpCap wpa N).

(** The replica bounds of a policy: [MaxReplicas] is a positive [int32] and
    [MinReplicas], when set, an [int32] not above it. *)
Definition valid_bounds (wpa : WatermarkPodAutoscaler) : Prop :=
  1 <= MaxReplicas (Spec wpa) /\ is_int32 (MaxReplicas (Spec wpa))
  /\ match MinReplicas (Spec wpa) with
     | Some m => is_int32 m /\ m <= MaxReplicas (Spec wpa)
     | None => True
     end.

(** The normalization of [desired] in integers, between the rate bounds
    [sdl] and [sul] and the replica bounds [m] and [M]. *)
Definition clamp (sdl sul desired m M : Z) : Z :=
  let minimumAllowed :=
    if m =? 0 then 1 else if desired <? sdl then Z.max sdl m else m in
  if desired <? minimumAllowed then minimumAllowed
  else
    let maximumAllowed := if sul <? desired then Z.min sul M else M in
    if maximumAllowed <? desired then maximumAllowed else desired.

(** Two states of a policy object with the same namespace, the same spec
    and the same last scale time: what the steps that only set conditions preserve. *)
Definition same_policy (a b : WatermarkPodAutoscaler) : Prop :=
  Namespace a = Namespace b /\ Spec a = Spec b
  /\ LastScaleTime (Status a) = LastScaleTime (Status b).

(** The proposal that enters the normalizer and the timestamp that enters
    the cooldown gate, from the result of the aggregator. *)
Definition prenormalized (r : MetricsReplicas) : Z :=
  if 0 <? replicas r then replicas r else 0.

Definition gate_timestamp (env : Env) (r : MetricsReplicas) : Time :=
  if 0 <? replicas r then metricTimestamp r else Now env.

(** The verdict of the cooldown gate, without the conditions it sets. *)
Definition gate (wpa : WatermarkPodAutoscaler) (currentReplicas desiredReplicas : Z)
    (timestamp : Time) : bool :=
  match LastScaleTime (Status wpa) with
  | None => true
  | Some lastScaleTime =>
      canScale
        (0 <? Time_Sub (Time_Add lastScaleTime
                          (seconds (UpscaleForbiddenWindowSeconds (Spec wpa)))) timestamp)
        (0 <? Time_Sub (Time_Add lastScaleTime
                          (seconds (DownscaleForbiddenWindowSeconds (Spec wpa)))) timestamp)
        currentReplicas desiredReplicas
  end.

(** The replica proposals of the metric specs of a policy, in order, when
    every spec that has a source evaluates successfully. *)
Fixpoint proposals (env : Env) (replicaCalc : ReplicaCalculatorItf)
    (wpa : WatermarkPodAutoscaler) (scale : Scale) (specs : list MetricSpec)
    : option (list MetricProposal) :=
  match specs with
  | [] => Some []
  | metricSpec :: rest =>
      match ms_External metricSpec, ms_Resource metricSpec with
      | None, None => proposals env replicaCalc wpa scale rest
      | _, _ =>
          match (evalMetricSpec env replicaCalc wpa scale metricSpec).2 with
          | Ok p => cons p <$> proposals env replicaCalc wpa scale rest
          | _ => None
          end
      end
  end.



(** The value written to the scale subresource, if the reconciliation
    called [Update]. *)
Definition written (o : Outcome) : option Z :=
  match out_scaleUpdate o with
  | Some u => Some (scale_SpecReplicas (su_scale u))
  | None => None
  end.

(** * The entry point of the controller *)

(** [reconcile.Result]. *)
Record ReconcileResult : Type := {
  Requeue : bool;
  RequeueAfter : Duration
}.

(** What [client.Get] answers: the object, an error for which
    [errors.IsNotFound] holds, or another error. *)
Inductive GetOutcome : Type :=
| Found (instance : WatermarkPodAutoscaler)
| NotFound
| GetFailed (err : string).

(** [ReconcileWatermarkPodAutoscaler]: the fields and the functions of the
    package that [Reconcile] calls and whose code is not part of the sources
    at hand.  [handleFinalizer] answers the instance as it leaves it, whether
    to return, and the error. *)
Record Reconciler : Type := {
  client_Get : string -> string -> GetOutcome;
  client_Update : WatermarkPodAutoscaler -> option string;
  handleFinalizer : WatermarkPodAutoscaler -> WatermarkPodAutoscaler * bool * option string;
  IsDefaultWatermarkPodAutoscaler : WatermarkPodAutoscaler -> bool;
  DefaultWatermarkPodAutoscaler : WatermarkPodAutoscaler -> WatermarkPodAutoscaler;
  CheckWPAValidity : WatermarkPodAutoscaler -> option string;
  syncPeriod : Duration;
  replicaCalc : ReplicaCalculatorItf
}.

(** What one run of [Reconcile] does: the result and the error returned, the
    object sent to [client.Update], and the run of [reconcileWPA] if it came
    to it, else the object sent to the status client. *)
Record Reconciliation : Type := {
  rec_result : ReconcileResult;
  rec_error : option string;
  rec_update : option WatermarkPodAutoscaler;
  rec_statusUpdate : option WatermarkPodAutoscaler;
  rec_reconcileWPA : option Outcome
}.

Definition reconciled (result : ReconcileResult) (err : option string) : Reconciliation :=
  {| rec_result := result; rec_error := err; rec_update := None;
     rec_statusUpdate := None; rec_reconcileWPA := None |}.

Section EntryPoint.
Context {arch : Arch}.

(** [Reconcile]. *)
Definition Reconcile (env : Env) (r : Reconciler) (namespace name : string)
    : Reconciliation :=
  (* resRepeat will be returned if we want to re-run reconcile process *)
  let resRepeat := {| Requeue := false; RequeueAfter := syncPeriod r |} in
  let noRequeue := {| Requeue := false; RequeueAfter := 0 |} in
  match client_Get r namespace name with
  | NotFound =>
      (* Return and don't requeue *)
      reconciled noRequeue None
  | GetFailed err =>
      (* Error reading the object - requeue the request. *)
      reconciled noRequeue (Some err)
  | Found instance =>
      let '(instance, needToReturn, err) := handleFinalizer r instance in
      if bool_decide (err <> None) || needToReturn then reconciled noRequeue err
      else if negb (IsDefaultWatermarkPodAutoscaler r instance) then
        let defaultWPA := DefaultWatermarkPodAutoscaler r instance in
        match client_Update r defaultWPA with
        | Some err =>
            {| rec_result := noRequeue; rec_error := Some err;
               rec_update := Some defaultWPA; rec_statusUpdate := None;
               rec_reconcileWPA := None |}
        | None =>
            (* default values of the WatermarkPodAutoscaler are set. Return and
               requeue to show them in the spec. *)
            {| rec_result := {| Requeue := true; RequeueAfter := 0 |};
               rec_error := None;
               rec_update := Some defaultWPA; rec_statusUpdate := None;
               rec_reconcileWPA := None |}
        end
      else
        match CheckWPAValidity r instance with
        | Some err =>
            (* If the WPA spec is incorrect stop processing it *)
            let wpaStatusOriginal := Status instance in
            let instance :=
              setCondition env instance AbleToScale ConditionFalse "FailedSpecCheck"
                ("Invalid WPA specification: " +:+ err) in
            let '(sent, err) := updateStatusIfNeeded env wpaStatusOriginal instance in
            (* we don't requeue here since the error was added properly in the
               WPA.Status *)
            {| rec_result := noRequeue; rec_error := err; rec_update := None;
               rec_statusUpdate := sent; rec_reconcileWPA := None |}
        | None =>
            let instance :=
              if DryRun (Spec instance)
              then setCondition env instance dryRunCondition ConditionTrue
                     "DryRun mode enabled" "Scaling changes won't be applied"
              else setCondition env instance dryRunCondition ConditionFalse
                     "DryRun mode disabled" "Scaling changes can be applied" in
            let o := reconcileWPA env (replicaCalc r) instance in
            match out_return o with
            | Err err =>
                (* In case of [reconcileWPA] error, we need to requeue the
                   Resource in order to retry to process it again *)
                {| rec_result := {| Requeue := false; RequeueAfter := Second |};
                   rec_error := None; rec_update := None; rec_statusUpdate := None;
                   rec_reconcileWPA :=
                     Some {| out_wpa :=
                               setCondition env (out_wpa o) AbleToScale ConditionFalse
                                 "FailedProcessWPA" "Error happened while processing the WPA";
                             out_scaleUpdate := out_scaleUpdate o;
                             out_statusUpdate := out_statusUpdate o;
                             out_return := out_return o |} |}
            | _ =>
                {| rec_result := resRepeat; rec_error := None; rec_update := None;
                   rec_statusUpdate := None; rec_reconcileWPA := Some o |}
            end
        end
  end.

End EntryPoint.

(** * The quantities of the further properties *)

(** The condition of a type as a reader of the status finds it: the first
    one of the list. *)
Definition getCondition (conditionType : string) (conditions : list Condition)
    : option Condition :=
  List.find (fun c => String.eqb (c_Type c) conditionType) conditions.

(** The number of conditions of a type. *)
Definition countConditions (conditionType : string) (conditions : list Condition) : nat :=
  length (List.filter (fun c => String.eqb (c_Type c) conditionType) conditions).

(** The condition of a type, by its status and its reason. *)
Definition condition_is (wpa : WatermarkPodAutoscaler) (conditionType status reason : string)
    : Prop :=
  exists c, getCondition conditionType (Conditions (Status wpa)) = Some c
            /\ c_Status c = status /\ c_Reason c = reason.

(** The policy object once [reconcileWPA] has fetched the scale of the
    target: the state in which the metrics are evaluated. *)
Definition gotScale (env : Env) (wpa : WatermarkPodAutoscaler) : WatermarkPodAutoscaler :=
  setCondition env wpa AbleToScale ConditionTrue "SucceededGetScale"
    "the WPA controller was able to get the target's current scale".

(** The pods counted by [getReadyPodsCount]. *)
Definition toleratedPods (readinessDelay : Duration) (podList : list Pod) : list Pod :=
  List.filter (toleratedAsReady readinessDelay) podList.

(** The names of the listed pods. *)
Definition podNames (podList : list Pod) : gset string :=
  list_to_set (pod_Name <$> podList).

(** The sum of a list of integers. *)
Definition Zsum (l : list Z) : Z := fold_right Z.add 0 l.

(** The message recorded by [getScaleForResourceMappings] for a mapping
    whose scale could not be fetched. *)
Definition mappingError (env : Env) (namespace name : string) (mapping : RESTMapping)
    : string :=
  "could not get scale for the GV " +:+ m_GroupVersion mapping +:+ ", error: "
  +:+ default "" (Scales_Get env namespace (m_GroupResource mapping) name).2.

(** The status entry that [computeReplicasForMetrics] records for a metric
    spec: that of its proposal, the zero value for a spec without source. *)
Definition statusOf (env : Env) (replicaCalc : ReplicaCalculatorItf)
    (wpa : WatermarkPodAutoscaler) (scale : Scale) (metricSpec : MetricSpec)
    : MetricStatus :=
  match ms_External metricSpec, ms_Resource metricSpec with
  | None, None => NoMetricStatus
  | _, _ =>
      match (evalMetricSpec env replicaCalc wpa scale metricSpec).2 with
      | Ok p => statusProposal p
      | _ => NoMetricStatus
      end
  end.

(** The types of the conditions that [reconcileWPA] sets. *)
Definition driverConditions : list string := [AbleToScale; ScalingActive; ScalingLimited].

(** Two states of a policy object, the second obtained from the first by
    setting conditions of the types of [driverConditions] only. *)
Definition conditions_step (a b : WatermarkPodAutoscaler) : Prop :=
  b = with_Conditions a (Conditions (Status b))
  /\ forall conditionType, conditionType ∉ driverConditions ->
       getCondition conditionType (Conditions (Status b))
       = getCondition conditionType (Conditions (Status a)).

(** Two states of a policy object, the second with the name, the namespace
    and the spec of the first, and with the conditions of the first for every
    type that is not one of [driverConditions]. *)
Definition reconciled_from (a b : WatermarkPodAutoscaler) : Prop :=
  Name b = Name a /\ Namespace b = Namespace a /\ Spec b = Spec a
  /\ forall conditionType, conditionType ∉ driverConditions ->
       getCondition conditionType (Conditions (Status b))
       = getCondition conditionType (Conditions (Status a)).

(** * Further sample inputs *)

(** Scenario "failed pod with a sample": the only pod of the target has
    failed, and the metrics client reports a sample for it. *)
Definition failed_env : Env :=
  sample_env (sample_scale 3 3) [failed_pod "a"] (fun _ => []) (one_sample "a" 100) None.

(** Scenario "unsupported type": an external metric, then a metric spec of
    the type "Pods", then another external metric. *)
Definition unsupported_spec : MetricSpec :=
  {| ms_Type := "Pods";
     ms_External := Some {| ext_MetricName := "p"; ext_MetricSelector := Some "app:web";
                            ext_HighWatermark := Some 1000; ext_LowWatermark := Some 500 |};
     ms_Resource := None |}.

Definition unsupported_wpa : WatermarkPodAutoscaler :=
  sample_wpa "absolute" (Some 1) 20 0 50 50 false
    [external_spec "a" 500 1000; unsupported_spec; external_spec "b" 500 1000] None.

(** Scenario "second mapping": the scale client fails for the mapping of
    the group "extensions" and answers for the one of the group "apps". *)
Definition extensions_mapping : RESTMapping :=
  {| m_GroupResource := {| gr_Group := "extensions"; gr_Resource := "deployments" |};
     m_GroupVersion := "extensions/v1beta1" |}.

Definition fallback_env : Env :=
  {| labels_Parse := fun s => Ok s;
     LabelSelectorAsSelector := fun s => Ok (default "" s);
     podLister_List := fun _ _ => Ok (ready_pods 10);
     GetExternalMetric := fun _ _ _ => Ok ([9000], 990 * Second);
     GetResourceMetric := fun _ _ _ => Ok (∅, 990 * Second);
     RESTMappings := fun _ _ => Ok [extensions_mapping; sample_mapping];
     Scales_Get := fun _ gr _ =>
                     if String.eqb (gr_Group gr) "extensions"
                     then (None, Some "the server could not find the requested resource")
                     else (Some (sample_scale 10 10), None);
     Scales_Update := fun _ _ _ => None;
     Status_Update := fun _ => None;
     Now := 1000 * Second |}.

(** Scenario "scaling disabled": the scale of the target asks for no
    replica while 3 are observed. *)
Definition disabled_env : Env :=
  sample_env (sample_scale 0 3) (ready_pods 3) (fun _ => [9000]) ∅ None.

(** Scenario "no metrics": 10 replicas, all ready, and a metrics client that
    fails. *)
Definition no_metrics_env : Env :=
  {| labels_Parse := fun s => Ok s;
     LabelSelectorAsSelector := fun s => Ok (default "" s);
     podLister_List := fun _ _ => Ok (ready_pods 10);
     GetExternalMetric := fun _ _ _ => Err "metrics not available";
     GetResourceMetric := fun _ _ _ => Err "metrics not available";
     RESTMappings := fun _ _ => Ok [sample_mapping];
     Scales_Get := fun _ _ _ => (Some (sample_scale 10 10), None);
     Scales_Update := fun _ _ _ => None;
     Status_Update := fun _ => None;
     Now := 1000 * Second |}.

(** A policy that carries the condition [DryRun], as [Reconcile] hands it to
    [reconcileWPA]. *)
Definition checked_wpa : WatermarkPodAutoscaler :=
  setCondition (upscale_env None) (upscale_wpa false None) dryRunCondition ConditionFalse
    "DryRun mode disabled" "Scaling changes can be applied".

(** A reconciler that finds the given policy, complete, with the verdict
    [validity] of [CheckWPAValidity], and a sync period of 15 seconds. *)
Definition sample_reconciler (wpa : WatermarkPodAutoscaler) (validity : option string)
    (calc : ReplicaCalculatorItf) : Reconciler :=
  {| client_Get := fun _ _ => Found wpa;
     client_Update := fun _ => None;
     handleFinalizer := fun instance => (instance, false, None);
     IsDefaultWatermarkPodAutoscaler := fun _ => true;
     DefaultWatermarkPodAutoscaler := fun instance => instance;
     CheckWPAValidity := fun _ => validity;
     syncPeriod := 15 * Second;
     replicaCalc := calc |}.

(** * Properties *)


(** ** Arithmetic of the embedding *)

Lemma Qltb_lt (x y : Q) : Qltb x y = true <-> (x < y)%Q.
Proof.
  unfold Qltb. rewrite negb_true_iff. split.
  - intros Hb. apply Qnot_le_lt. intros Hle. apply Qle_bool_iff in Hle. congruence.
  - intros Hlt. destruct (Qle_bool y x) eqn:E; [|reflexivity].
    apply Qle_bool_iff in E. lra.
Qed.

Lemma Qltb_ge (x y : Q) : Qltb x y = false <-> (y <= x)%Q.
Proof.
  unfold Qltb. rewrite negb_false_iff. apply Qle_bool_iff.
Qed.

Lemma Qis0_inject_Z (z : Z) : Qis0 (inject_Z z) = false <-> z <> 0.
Proof.
  unfold Qis0. split.
  - intros Hb ->. discriminate Hb.
  - intros Hz. destruct (Qeq_bool (inject_Z z) 0) eqn:E; [|reflexivity].
    apply Qeq_bool_eq in E. unfold Qeq in E. simpl in E. lia.
Qed.

Lemma Qtrunc_inject_Z (z : Z) : Qtrunc (inject_Z z) = z.
Proof.
  unfold Qtrunc. rewrite Qfloor_Z, Qceiling_Z. destruct (Qle_bool _ _); reflexivity.
Qed.

Lemma in_int32_spec (z : Z) : in_int32 z = true <-> min_int32 <= z <= max_int32.
Proof. unfold in_int32. rewrite andb_true_iff, !Z.leb_le. tauto. Qed.

Lemma int32_of_F64_of_Z {arch : Arch} (z : Z) :
  in_int32 z = true -> int32_of_F64 (F64_of_Z z) = z.
Proof.
  intros Hz. unfold int32_of_F64, F64_of_Z. rewrite Qtrunc_inject_Z, Hz. reflexivity.
Qed.

(** [math.Max] and [math.Min] of two converted integers. *)
Lemma fmax_of_Z (a b : Z) : fmax (F64_of_Z a) (F64_of_Z b) = F64_of_Z (Z.max a b).
Proof.
  unfold fmax, F64_of_Z. destruct (Qltb (inject_Z a) (inject_Z b)) eqn:E.
  - apply Qltb_lt in E. rewrite <- Zlt_Qlt in E. f_equal. f_equal. lia.
  - apply Qltb_ge in E. rewrite <- Zle_Qle in E. f_equal. f_equal. lia.
Qed.

Lemma fmin_of_Z (a b : Z) : fmin (F64_of_Z a) (F64_of_Z b) = F64_of_Z (Z.min a b).
Proof.
  unfold fmin, F64_of_Z. destruct (Qltb (inject_Z b) (inject_Z a)) eqn:E.
  - apply Qltb_lt in E. rewrite <- Zlt_Qlt in E. f_equal. f_equal. lia.
  - apply Qltb_ge in E. rewrite <- Zle_Qle in E. f_equal. f_equal. lia.
Qed.

(** ** The watermark evaluator *)

Section Evaluator.
Context {arch : Arch}.
Local Open Scope Q_scope.





End Evaluator.

(** ** The normalizer *)

Lemma is_int32_in (z : Z) : is_int32 z -> in_int32 z = true.
Proof. intros Hz. apply in_int32_spec, Hz. Qed.

Lemma Qtrunc_comp (x y : Q) : (x == y)%Q -> Qtrunc x = Qtrunc y.
Proof.
  intros E. unfold Qtrunc. rewrite (Qfloor_comp _ _ E), (Qceiling_comp _ _ E).
  destruct (Qle_bool 0 x) eqn:Ex, (Qle_bool 0 y) eqn:Ey; try reflexivity.
  - apply Qle_bool_iff in Ex. rewrite E in Ex. apply Qle_bool_iff in Ex. congruence.
  - apply Qle_bool_iff in Ey. rewrite <- E in Ey. apply Qle_bool_iff in Ey. congruence.
Qed.

Section NormalizerProperties.
Context {arch : Arch}.

(** The scale-up limit of the code is the rate bound of the specification,
    as long as that bound is an [int32]. *)
Lemma calculateScaleUpLimit_spec (wpa : WatermarkPodAutoscaler) (N : Z) :
  is_int32 (spec_scaleUpCap wpa N) ->
  calculateScaleUpLimit wpa N = spec_scaleUpCap wpa N.
Proof.
  intros Hr. unfold calculateScaleUpLimit, spec_scaleUpCap in *.
  set (f := ScaleUpLimitFactor (Spec wpa)) in *.
  change (fdiv (Fin f) (F64_of_Z 100)) with (Fin (f / inject_Z 100)).
  unfold F64_of_Z at 3. cbn [fmul ffloor]. rewrite fmax_of_Z.
  assert (E : (f / inject_Z 100 * inject_Z N == f * inject_Z N / inject_Z 100)%Q)
    by (field; discriminate).
  rewrite (Qfloor_comp _ _ E).
  set (m := Z.max 1 _) in *. unfold F64_of_Z. cbn [fadd int32_of_F64].
  rewrite (Qtrunc_comp _ (inject_Z (N + m))) by (rewrite inject_Z_plus; reflexivity).
  rewrite Qtrunc_inject_Z, (is_int32_in _ Hr). reflexivity.
Qed.

Lemma calculateScaleDownLimit_spec (wpa : WatermarkPodAutoscaler) (N : Z) :
  is_int32 (spec_scaleDownCap wpa N) ->
  calculateScaleDownLimit wpa N = spec_scaleDownCap wpa N.
Proof.
  intros Hr. unfold calculateScaleDownLimit, spec_scaleDownCap in *.
  set (f := ScaleDownLimitFactor (Spec wpa)) in *.
  change (fdiv (Fin f) (F64_of_Z 100)) with (Fin (f / inject_Z 100)).
  unfold F64_of_Z at 3. cbn [fmul ffloor]. rewrite fmax_of_Z.
  assert (E : (f / inject_Z 100 * inject_Z N == f * inject_Z N / inject_Z 100)%Q)
    by (field; discriminate).
  rewrite (Qfloor_comp _ _ E).
  set (m := Z.max 1 _) in *. unfold F64_of_Z. cbn [fsub fneg fadd int32_of_F64].
  rewrite (Qtrunc_comp _ (inject_Z (N - m))).
  - rewrite Qtrunc_inject_Z, (is_int32_in _ Hr). reflexivity.
  - unfold Z.sub. rewrite inject_Z_plus, inject_Z_opp. reflexivity.
Qed.

(** The rate bounds leave at least one replica of room on each side. *)
Lemma spec_caps_bracket (wpa : WatermarkPodAutoscaler) (N : Z) :
  spec_scaleDownCap wpa N < N < spec_scaleUpCap wpa N.
Proof. unfold spec_scaleDownCap, spec_scaleUpCap. lia. Qed.

(** With representable rate bounds, the normalizer is [clamp] between
    them. *)
Lemma convertDesiredReplicasWithRules_clamp (wpa : WatermarkPodAutoscaler)
    (current desired m M : Z) :
  caps_representable wpa current -> is_int32 m -> is_int32 M ->
  (convertDesiredReplicasWithRules wpa current desired m M).1.1
  = clamp (spec_scaleDownCap wpa current) (spec_scaleUpCap wpa current) desired m M.
Proof.
  intros [Hd Hu] Hm HM. unfold convertDesiredReplicasWithRules, clamp.
  rewrite (calculateScaleDownLimit_spec _ _ Hd), (calculateScaleUpLimit_spec _ _ Hu).
  set (sdl := spec_scaleDownCap wpa current) in *.
  set (sul := spec_scaleUpCap wpa current) in *.
  rewrite fmax_of_Z, fmin_of_Z.
  rewrite !int32_of_F64_of_Z
    by (apply is_int32_in; unfold is_int32 in *; lia).
  destruct (m =? 0); [|destruct (desired <? sdl)]; cbn -[Z.ltb];
    (destruct (desired <? _); [reflexivity|]);
    destruct (sul <? desired); cbn -[Z.ltb];
    destruct (_ <? desired); reflexivity.
Qed.

End NormalizerProperties.

(** ** Steps that only set conditions *)

Lemma same_policy_refl (a : WatermarkPodAutoscaler) : same_policy a a.
Proof. repeat split; reflexivity. Qed.

Lemma same_policy_trans (a b c : WatermarkPodAutoscaler) :
  same_policy a b -> same_policy b c -> same_policy a c.
Proof. intros (? & ? & ?) (? & ? & ?). repeat split; congruence. Qed.

Lemma setCondition_same (env : Env) (wpa : WatermarkPodAutoscaler)
    (conditionType status reason message : string) :
  same_policy wpa (setCondition env wpa conditionType status reason message).
Proof. repeat split; reflexivity. Qed.

Create HintDb policy.
#[local] Hint Resolve same_policy_refl setCondition_same : policy.

Lemma evalMetricSpec_same (env : Env) (replicaCalc : ReplicaCalculatorItf)
    (wpa : WatermarkPodAutoscaler) (scale : Scale) (metricSpec : MetricSpec) :
  same_policy wpa (evalMetricSpec env replicaCalc wpa scale metricSpec).1.
Proof.
  unfold evalMetricSpec.
  repeat (case_match; cbn [fst]; auto with policy).
Qed.

Lemma computeReplicasLoop_same (env : Env) (replicaCalc : ReplicaCalculatorItf)
    (scale : Scale) (specs : list MetricSpec) :
  forall (i : nat) (wpa : WatermarkPodAutoscaler) (acc : MetricsReplicas),
    same_policy wpa (computeReplicasLoop env replicaCalc scale specs i wpa acc).1.
Proof.
  induction specs as [|metricSpec rest IH]; intros i wpa acc; cbn [computeReplicasLoop].
  - apply same_policy_refl.
  - pose proof (evalMetricSpec_same env replicaCalc wpa scale metricSpec) as He.
    destruct (evalMetricSpec env replicaCalc wpa scale metricSpec) as [wpa' [p|e|]];
      cbn [fst] in He.
    + destruct (ms_External metricSpec), (ms_Resource metricSpec);
        first [apply IH | eapply same_policy_trans; [exact He|apply IH]].
    + destruct (ms_External metricSpec), (ms_Resource metricSpec);
        first [apply IH | exact He].
    + destruct (ms_External metricSpec), (ms_Resource metricSpec);
        first [apply IH | exact He].
Qed.

Lemma computeReplicasForMetrics_same (env : Env) (replicaCalc : ReplicaCalculatorItf)
    (wpa : WatermarkPodAutoscaler) (scale : Scale) :
  same_policy wpa (computeReplicasForMetrics env replicaCalc wpa scale).1.
Proof.
  unfold computeReplicasForMetrics.
  match goal with |- context [computeReplicasLoop ?e ?c ?s ?l ?i ?w ?a] =>
    pose proof (computeReplicasLoop_same e c s l i w a) as Hl;
    destruct (computeReplicasLoop e c s l i w a) as [wpa' [r|e'|]] end;
    cbn [fst] in *; exact Hl.
Qed.

Lemma shouldScale_same (env : Env) (wpa : WatermarkPodAutoscaler)
    (currentReplicas desiredReplicas : Z) (timestamp : Time) :
  same_policy wpa (shouldScale env wpa currentReplicas desiredReplicas timestamp).1.
Proof.
  unfold shouldScale. destruct (LastScaleTime (Status wpa)); cbn [fst].
  - repeat case_match; repeat split; reflexivity.
  - apply same_policy_refl.
Qed.

Section DriverProperties.
Context {arch : Arch}.

Lemma normalizeDesiredReplicas_same (env : Env) (wpa : WatermarkPodAutoscaler)
    (currentReplicas desired : Z) :
  same_policy wpa (normalizeDesiredReplicas env wpa currentReplicas desired).1.
Proof.
  unfold normalizeDesiredReplicas.
  destruct (convertDesiredReplicasWithRules _ _ _ _ _) as [[d c] r].
  destruct (d =? desired); repeat split; reflexivity.
Qed.

Lemma normalizeDesiredReplicas_value (env : Env) (wpa : WatermarkPodAutoscaler)
    (currentReplicas desired : Z) :
  (normalizeDesiredReplicas env wpa currentReplicas desired).2
  = (convertDesiredReplicasWithRules wpa currentReplicas desired
       (default 0 (MinReplicas (Spec wpa))) (MaxReplicas (Spec wpa))).1.1.
Proof.
  unfold normalizeDesiredReplicas.
  destruct (MinReplicas (Spec wpa)); cbn [from_option id];
    destruct (convertDesiredReplicasWithRules _ _ _ _ _) as [[d c] r];
    destruct (d =? desired); reflexivity.
Qed.

(** The normalizer reads the policy object through its spec only. *)
Lemma convertDesiredReplicasWithRules_spec_only (a b : WatermarkPodAutoscaler)
    (current desired m M : Z) :
  Spec a = Spec b ->
  convertDesiredReplicasWithRules a current desired m M
  = convertDesiredReplicasWithRules b current desired m M.
Proof.
  intros E. unfold convertDesiredReplicasWithRules, calculateScaleDownLimit,
    calculateScaleUpLimit. rewrite E. reflexivity.
Qed.

End DriverProperties.

(** ** The cooldown gate *)

Lemma shouldScale_gate (env : Env) (wpa : WatermarkPodAutoscaler)
    (currentReplicas desiredReplicas : Z) (timestamp : Time) :
  (shouldScale env wpa currentReplicas desiredReplicas timestamp).2
  = gate wpa currentReplicas desiredReplicas timestamp.
Proof.
  unfold shouldScale, gate. destruct (LastScaleTime (Status wpa)); [|reflexivity].
  cbn [snd]. repeat case_match; reflexivity.
Qed.

Lemma gate_same (a b : WatermarkPodAutoscaler) (currentReplicas desiredReplicas : Z)
    (timestamp : Time) :
  same_policy a b ->
  gate a currentReplicas desiredReplicas timestamp
  = gate b currentReplicas desiredReplicas timestamp.
Proof. intros (_ & E1 & E2). unfold gate. rewrite E1, E2. reflexivity. Qed.

(** The saturation of [Sub] keeps the sign of the difference. *)
Lemma Time_Sub_pos (t u : Time) : (0 <? Time_Sub t u) = (u <? t).
Proof.
  unfold Time_Sub, min_int64, max_int64.
  destruct (u <? t) eqn:E; [apply Z.ltb_lt in E; apply Z.ltb_lt|
                            apply Z.ltb_ge in E; apply Z.ltb_ge]; lia.
Qed.

(** ** The reconciliation driver *)

Section DecisionProperties.
Context {arch : Arch}.

(** The branches of the [switch] of [reconcileWPA] that go on to the
    enactment, with [N] the status replicas of the target. *)
Lemma decide_replicas_cases (env : Env) (replicaCalc : ReplicaCalculatorItf)
    (wpa : WatermarkPodAutoscaler) (st0 : WatermarkPodAutoscalerStatus)
    (scale : Scale) (wpa' : WatermarkPodAutoscaler) (d : Z) (rescale : bool)
    (ms : list MetricStatus) :
  decide_replicas env replicaCalc wpa st0 scale = Proceed wpa' d rescale ms ->
  let N := scale_StatusReplicas scale in
  let M := MaxReplicas (Spec wpa) in
  same_policy wpa wpa'
  /\ ((scale_SpecReplicas scale = 0 /\ rescale = false)
      \/ (M < N /\ d = M /\ rescale = true)
      \/ (N <= M /\ (exists m, MinReplicas (Spec wpa) = Some m /\ N < m /\ d = m)
          /\ rescale = true)
      \/ (N <= M /\ (forall m, MinReplicas (Spec wpa) = Some m -> m <= N)
          /\ N = 0 /\ d = 1 /\ rescale = true)
      \/ (scale_SpecReplicas scale <> 0
          /\ N <= M /\ (forall m, MinReplicas (Spec wpa) = Some m -> m <= N) /\ N <> 0
          /\ exists wpa1 r,
               computeReplicasForMetrics env replicaCalc wpa scale = (wpa1, Ok r)
               /\ d = (convertDesiredReplicasWithRules wpa N (prenormalized r)
                         (default 0 (MinReplicas (Spec wpa))) M).1.1
               /\ rescale = gate wpa N d (gate_timestamp env r))).
Proof.
  intros Hd N M. unfold decide_replicas in Hd. fold N M in Hd.
  destruct (scale_SpecReplicas scale =? 0) eqn:E0.
  { injection Hd as <- <- <- <-. apply Z.eqb_eq in E0.
    split; [apply setCondition_same|]. left. split; [exact E0|reflexivity]. }
  apply Z.eqb_neq in E0.
  destruct (M <? N) eqn:E1.
  { injection Hd as <- <- <- <-. apply Z.ltb_lt in E1.
    split; [apply same_policy_refl|]. right. left. repeat split; assumption. }
  apply Z.ltb_ge in E1.
  destruct (match MinReplicas (Spec wpa) with
            | Some minReplicas => N <? minReplicas
            | None => false
            end) eqn:E2.
  { injection Hd as <- <- <- <-.
    split; [apply same_policy_refl|]. right. right. left.
    destruct (MinReplicas (Spec wpa)) as [m|]; [|discriminate E2].
    apply Z.ltb_lt in E2. repeat split; [assumption|]. exists m. repeat split. exact E2. }
  assert (Hmin : forall m, MinReplicas (Spec wpa) = Some m -> m <= N).
  { intros m Hm. rewrite Hm in E2. apply Z.ltb_ge in E2. exact E2. }
  destruct (N =? 0) eqn:E3.
  { injection Hd as <- <- <- <-. apply Z.eqb_eq in E3.
    split; [apply same_policy_refl|]. right. right. right. left.
    repeat split; assumption. }
  apply Z.eqb_neq in E3.
  pose proof (computeReplicasForMetrics_same env replicaCalc wpa scale) as Hs1.
  destruct (computeReplicasForMetrics env replicaCalc wpa scale) as [wpa1 [r|e|]];
    cbn [fst] in Hs1.
  - assert (Epre : (if 0 <? replicas r then (replicas r, metricTimestamp r)
                    else (0, Now env)) = (prenormalized r, gate_timestamp env r))
      by (unfold prenormalized, gate_timestamp; destruct (0 <? replicas r); reflexivity).
    rewrite Epre in Hd.
    pose proof (normalizeDesiredReplicas_same env wpa1 N (prenormalized r)) as Hs2.
    pose proof (normalizeDesiredReplicas_value env wpa1 N (prenormalized r)) as Hv.
    destruct (normalizeDesiredReplicas env wpa1 N (prenormalized r)) as [wpa2 d2].
    cbn [fst snd] in Hs2, Hv.
    pose proof (shouldScale_same env wpa2 N d2 (gate_timestamp env r)) as Hs3.
    pose proof (shouldScale_gate env wpa2 N d2 (gate_timestamp env r)) as Hg.
    destruct (shouldScale env wpa2 N d2 (gate_timestamp env r)) as [wpa3 b].
    cbn [fst snd] in Hs3, Hg.
    injection Hd as <- <- <- <-.
    assert (Hs12 : same_policy wpa wpa2) by (eapply same_policy_trans; eassumption).
    split; [eapply same_policy_trans; eassumption|].
    right. right. right. right. repeat split; try assumption.
    exists wpa1, r. split; [reflexivity|].
    destruct Hs1 as (_ & Es1 & _).
    split.
    + rewrite Hv. unfold M. rewrite <- Es1.
      apply (f_equal (fun x => x.1.1)).
      apply convertDesiredReplicasWithRules_spec_only. symmetry. exact Es1.
    + rewrite Hg. symmetry. apply gate_same. exact Hs12.
  - destruct (updateStatusIfNeeded _ _ _) as [sent [err2|]]; discriminate Hd.
  - discriminate Hd.
Qed.

(** When [reconcileWPA] returns from within the [switch], nothing was
    written and the last scale time is as before. *)
Lemma decide_replicas_Return (env : Env) (replicaCalc : ReplicaCalculatorItf)
    (wpa : WatermarkPodAutoscaler) (st0 : WatermarkPodAutoscalerStatus)
    (scale : Scale) (o : Outcome) :
  decide_replicas env replicaCalc wpa st0 scale = Return o ->
  out_scaleUpdate o = None
  /\ same_policy wpa (out_wpa o)
  /\ (forall w, out_statusUpdate o = Some w -> same_policy wpa w).
Proof.
  unfold decide_replicas. repeat (case_match; try discriminate).
  all: match goal with
       | Hc : computeReplicasForMetrics ?e ?c ?w ?s = (?w1, _) |- _ =>
           pose proof (computeReplicasForMetrics_same e c w s) as Hs;
           rewrite Hc in Hs; cbn [fst] in Hs
       end.
  all: intros [= <-]; cbn [out_scaleUpdate out_wpa out_statusUpdate returned].
  all: repeat match goal with
       | Hu : updateStatusIfNeeded _ _ _ = _ |- _ =>
           unfold updateStatusIfNeeded in Hu; case_match; simplify_eq
       end.
  all: split; [reflexivity|]; split.
  all: try (intros ? [= <-]).
  all: try discriminate.
  all: try exact Hs.
  all: eapply same_policy_trans; [exact Hs|repeat split; reflexivity].
Qed.

(** An update of the scale is made only with dry-run off and after the
    [switch] asked for a rescale; it carries the desired replicas and leaves
    the status replicas of the scale as fetched. *)
Lemma reconcileScale_update (env : Env) (replicaCalc : ReplicaCalculatorItf)
    (wpa : WatermarkPodAutoscaler) (scale : Scale) (gr : GroupResource)
    (u : ScaleUpdate) :
  out_scaleUpdate (reconcileScale env replicaCalc wpa scale gr) = Some u ->
  DryRun (Spec wpa) = false
  /\ scale_StatusReplicas (su_scale u) = scale_StatusReplicas scale
  /\ exists wpa0 wpa' ms,
       same_policy wpa wpa0
       /\ decide_replicas env replicaCalc wpa0 (Status wpa) scale
          = Proceed wpa' (scale_SpecReplicas (su_scale u)) true ms.
Proof.
  unfold reconcileScale.
  set (wpa0 := setCondition env wpa AbleToScale ConditionTrue _ _).
  assert (Hs0 : same_policy wpa wpa0) by apply setCondition_same.
  destruct (decide_replicas env replicaCalc wpa0 (Status wpa) scale)
    as [o|wpa' d rescale ms] eqn:Hd.
  - intros Hu. apply decide_replicas_Return in Hd as [Hn _]. congruence.
  - pose proof (decide_replicas_cases _ _ _ _ _ _ _ _ _ Hd) as [Hs _].
    assert (Edry : DryRun (Spec wpa') = DryRun (Spec wpa)).
    { destruct Hs0 as (_ & E0 & _), Hs as (_ & E1 & _). congruence. }
    destruct rescale.
    + cbn [Spec setCondition with_Conditions with_Status].
      destruct (DryRun (Spec wpa')) eqn:Ed.
      * destruct (updateStatusIfNeeded _ _ _); cbn; discriminate.
      * destruct (Scales_Update _ _ _ _) as [err|].
        -- destruct (updateStatusIfNeeded _ _ _) as [sent [err2|]];
             cbn [out_scaleUpdate]; intros [= <-]; cbn [su_scale scale_SpecReplicas
               scale_StatusReplicas]; (split; [congruence|]); (split; [reflexivity|]);
             exists wpa0, wpa', ms; split; assumption.
        -- destruct (updateStatusIfNeeded _ _ _) as [sent err2];
             cbn [out_scaleUpdate]; intros [= <-]; cbn [su_scale scale_SpecReplicas
               scale_StatusReplicas]; (split; [congruence|]); (split; [reflexivity|]);
             exists wpa0, wpa', ms; split; assumption.
    + destruct (updateStatusIfNeeded _ _ _); cbn; discriminate.
Qed.

Lemma reconcileWPA_update (env : Env) (replicaCalc : ReplicaCalculatorItf)
    (wpa : WatermarkPodAutoscaler) (u : ScaleUpdate) :
  out_scaleUpdate (reconcileWPA env replicaCalc wpa) = Some u ->
  exists scale gr,
    getTargetScale env wpa = Ok (scale, gr)
    /\ out_scaleUpdate (reconcileScale env replicaCalc wpa scale gr) = Some u.
Proof.
  unfold reconcileWPA. destruct (getTargetScale env wpa) as [[scale gr]|e|];
    [|discriminate|discriminate].
  intros Hu. exists scale, gr. split; [reflexivity|exact Hu].
Qed.

End DecisionProperties.

(** ** Bounds on the written replicas *)

(** Case analysis on the comparisons of [clamp], innermost first. *)
Ltac split_ltb d sdl sul :=
  let case_ltb a b :=
    let E := fresh "E" in
    destruct (a <? b) eqn:E; [apply Z.ltb_lt in E|apply Z.ltb_ge in E] in
  case_ltb d sdl; case_ltb sul d; cbn beta iota zeta;
  repeat (match goal with
          | |- context [?a <? ?b] => case_ltb a b
          end; cbn beta iota zeta).

Lemma clamp_bounds (sdl sul N d m M : Z) :
  sdl < N < sul -> m <= N <= M -> 1 <= N ->
  (if m =? 0 then 1 else m) <= clamp sdl sul d m M <= M.
Proof.
  intros Hc Hm HN. unfold clamp.
  destruct (m =? 0) eqn:Em; [apply Z.eqb_eq in Em|apply Z.eqb_neq in Em];
    split_ltb d sdl sul; lia.
Qed.



Lemma caps_representable_same (a b : WatermarkPodAutoscaler) (N : Z) :
  Spec a = Spec b -> caps_representable a N -> caps_representable b N.
Proof.
  intros E. unfold caps_representable, spec_scaleDownCap, spec_scaleUpCap.
  rewrite E. tauto.
Qed.

Section Bounds.
Context {arch : Arch}.

(** What the metric pipeline proposes for enactment, once normalized: the
    clamp of the prenormalized proposal. *)
Lemma normalized_clamp (wpa : WatermarkPodAutoscaler) (N pre : Z) :
  valid_bounds wpa -> caps_representable wpa N ->
  (convertDesiredReplicasWithRules wpa N pre
     (default 0 (MinReplicas (Spec wpa))) (MaxReplicas (Spec wpa))).1.1
  = clamp (spec_scaleDownCap wpa N) (spec_scaleUpCap wpa N) pre
          (default 0 (MinReplicas (Spec wpa))) (MaxReplicas (Spec wpa)).
Proof.
  intros (HM1 & HM & Hmin) Hc. apply convertDesiredReplicasWithRules_clamp; try assumption.
  destruct (MinReplicas (Spec wpa)) as [m|]; cbn [from_option id]; [tauto|].
  unfold is_int32, min_int32, max_int32. lia.
Qed.

(** C2.  Every value written to the scale subresource lies between
    [MinReplicas], taken as 1 when it is zero or unset, and [MaxReplicas].
    The policy has valid replica bounds ([MaxReplicas] positive,
    [MinReplicas <= MaxReplicas]), the status replicas [N] of the target are
    not negative, and the rate bounds around [N] are values of [int32]. *)
Theorem written_within_bounds (env : Env) (replicaCalc : ReplicaCalculatorItf)
    (wpa : WatermarkPodAutoscaler) (u : ScaleUpdate) :
  out_scaleUpdate (reconcileWPA env replicaCalc wpa) = Some u ->
  valid_bounds wpa ->
  0 <= scale_StatusReplicas (su_scale u) ->
  caps_representable wpa (scale_StatusReplicas (su_scale u)) ->
  effective_min (MinReplicas (Spec wpa)) <= scale_SpecReplicas (su_scale u)
  /\ scale_SpecReplicas (su_scale u) <= MaxReplicas (Spec wpa).
Proof.
  intros Hu Hv HN Hc.
  apply reconcileWPA_update in Hu as (scale & gr & _ & Hu).
  apply reconcileScale_update in Hu as (_ & EN & wpa0 & wpa' & ms & Hs0 & Hd).
  rewrite EN in *. clear EN.
  apply decide_replicas_cases in Hd as [_ Hd]. cbv zeta in Hd.
  destruct Hs0 as (_ & E0 & _). rewrite <- E0 in Hd.
  set (N := scale_StatusReplicas scale) in *.
  set (d := scale_SpecReplicas (su_scale u)) in *.
  pose proof Hv as (HM1 & HM & Hmin).
  unfold effective_min.
  destruct Hd as [[_ Hd]|[(HMN & -> & _)|[(HNM & (m & Em & Hm & ->) & _)|
                 [(HNM & Hm & HN0 & -> & _)|(_ & HNM & Hm & HN0 & wpa1 & r & _ & -> & _)]]]].
  - discriminate Hd.
  - destruct (MinReplicas (Spec wpa)) as [m|]; [|lia].
    destruct (m =? 0); lia.
  - rewrite Em in *. destruct (m =? 0) eqn:E; [apply Z.eqb_eq in E|]; lia.
  - destruct (MinReplicas (Spec wpa)) as [m|]; [|lia].
    specialize (Hm m eq_refl).
    destruct (m =? 0) eqn:E; [|apply Z.eqb_neq in E]; lia.
  - rewrite (convertDesiredReplicasWithRules_spec_only wpa0 wpa) by (symmetry; exact E0).
    rewrite normalized_clamp by assumption.
    pose proof (spec_caps_bracket wpa N) as Hb.
    pose proof (clamp_bounds (spec_scaleDownCap wpa N) (spec_scaleUpCap wpa N) N
                  (prenormalized r) (default 0 (MinReplicas (Spec wpa)))
                  (MaxReplicas (Spec wpa)) Hb) as Hcl.
    destruct (MinReplicas (Spec wpa)) as [m|]; cbn [from_option id] in *.
    + specialize (Hm m eq_refl). apply Hcl; lia.
    + change (0 =? 0) with true in Hcl. cbv iota in Hcl. apply Hcl; lia.
Qed.


End Bounds.

(** ** The cooldown gate and the last scale time *)

(** C5.  The cooldown gate, for current replicas [N], normalized proposal
    [D] and proposal timestamp [t].  With a last scale time [T0] and the
    forbidden windows [Wup] and [Wdown], enactment is allowed exactly when
    [D > N] and [T0 + Wup <= t], or [D < N] and [T0 + Wdown <= t]; in
    particular it is never allowed for [D = N].  Without a last scale time
    enactment is always allowed. *)
Theorem shouldScale_allows (env : Env) (wpa : WatermarkPodAutoscaler) (N D : Z) (t : Time) :
  let Wup := seconds (UpscaleForbiddenWindowSeconds (Spec wpa)) in
  let Wdown := seconds (DownscaleForbiddenWindowSeconds (Spec wpa)) in
  let allowed := (shouldScale env wpa N D t).2 in
  (forall T0, LastScaleTime (Status wpa) = Some T0 ->
     (allowed = true <-> (N < D /\ T0 + Wup <= t) \/ (D < N /\ T0 + Wdown <= t))
     /\ (D = N -> allowed = false))
  /\ (LastScaleTime (Status wpa) = None -> allowed = true).
Proof.
  intros Wup Wdown allowed. subst allowed. rewrite shouldScale_gate. unfold gate.
  split.
  - intros T0 ->. fold Wup Wdown. rewrite !Time_Sub_pos. unfold Time_Add, canScale.
    destruct (D =? N) eqn:E; [apply Z.eqb_eq in E|apply Z.eqb_neq in E].
    + split; [|reflexivity]. split; [discriminate|lia].
    + split; [|intros ->; contradiction].
      rewrite orb_true_iff, !andb_true_iff, !negb_true_iff, !Z.ltb_lt, !Z.ltb_ge. lia.
  - intros ->. reflexivity.
Qed.

Section LastScaleTimeProperties.
Context {arch : Arch}.

(** C6, amended.  With dry-run off, the last scale time left by a
    reconciliation, in the policy object and in what is sent to the status
    client, is the one it started with unless the reconciliation wrote the
    new replicas to the scale subresource with success: a reconciliation that
    makes no scale write, or whose write fails, leaves it unchanged. *)
Theorem LastScaleTime_unchanged (env : Env) (replicaCalc : ReplicaCalculatorItf)
    (wpa : WatermarkPodAutoscaler) :
  let o := reconcileWPA env replicaCalc wpa in
  DryRun (Spec wpa) = false ->
  (forall u, out_scaleUpdate o = Some u -> su_error u <> None) ->
  LastScaleTime (Status (out_wpa o)) = LastScaleTime (Status wpa)
  /\ (forall w, out_statusUpdate o = Some w ->
        LastScaleTime (Status w) = LastScaleTime (Status wpa)).
Proof.
  intros o Hdry Hfail. subst o. unfold reconcileWPA in *.
  destruct (getTargetScale env wpa) as [[scale gr]|e|];
    [|split; [reflexivity|discriminate]..].
  unfold reconcileScale in *.
  set (wpa0 := setCondition env wpa AbleToScale ConditionTrue _ _) in *.
  assert (Hs0 : same_policy wpa wpa0) by apply setCondition_same.
  destruct (decide_replicas env replicaCalc wpa0 (Status wpa) scale)
    as [o|wpa' d rescale ms] eqn:Hd.
  - apply decide_replicas_Return in Hd as (_ & Ho & Hw).
    split.
    + destruct (same_policy_trans _ _ _ Hs0 Ho) as (_ & _ & E). symmetry. exact E.
    + intros w Ew.
      destruct (same_policy_trans _ _ _ Hs0 (Hw w Ew)) as (_ & _ & E). symmetry. exact E.
  - pose proof (decide_replicas_cases _ _ _ _ _ _ _ _ _ Hd) as [Hs _].
    assert (Hs' : same_policy wpa wpa') by exact (same_policy_trans _ _ _ Hs0 Hs).
    assert (Edry : DryRun (Spec wpa') = false).
    { destruct Hs' as (_ & E & _). rewrite <- E. exact Hdry. }
    assert (Elast : LastScaleTime (Status wpa') = LastScaleTime (Status wpa)).
    { destruct Hs' as (_ & _ & E). symmetry. exact E. }
    destruct rescale.
    + cbn [Spec setCondition with_Conditions with_Status] in *.
      rewrite Edry in *.
      destruct (Scales_Update _ _ _ _) as [err|].
      * unfold updateStatusIfNeeded in *.
        destruct (bool_decide _); [|destruct (Status_Update _ _)];
          cbn [out_wpa out_statusUpdate]; (split; [exact Elast|]);
          intros w [= <-]; exact Elast.
      * exfalso. destruct (updateStatusIfNeeded _ _ _) as [sent err2].
        cbn [out_scaleUpdate] in Hfail. eapply Hfail; reflexivity.
    + unfold updateStatusIfNeeded in *.
      destruct (bool_decide _);
        cbn [out_wpa out_statusUpdate]; (split; [exact Elast|]);
        intros w [= <-]; exact Elast.
Qed.

End LastScaleTimeProperties.

(** ** The metric aggregator *)

(** A spec that evaluates successfully leaves the policy object as it is. *)
Lemma evalMetricSpec_Ok (env : Env) (replicaCalc : ReplicaCalculatorItf)
    (wpa : WatermarkPodAutoscaler) (scale : Scale) (metricSpec : MetricSpec)
    (w : WatermarkPodAutoscaler) (p : MetricProposal) :
  evalMetricSpec env replicaCalc wpa scale metricSpec = (w, Ok p) -> w = wpa.
Proof.
  unfold evalMetricSpec. repeat (case_match; try discriminate); congruence.
Qed.



(** ** The dead band *)

Section DeadBand.
Context {arch : Arch}.







End DeadBand.

Section DeadBandReconciliation.
Context {arch : Arch}.




End DeadBandReconciliation.

(** ** The scale of the target *)

Lemma strings_HasPrefix_app (s t sub : string) :
  strings_HasPrefix s sub = true -> strings_HasPrefix (s +:+ t) sub = true.
Proof.
  revert sub. induction s as [|a s IH]; intros [|b sub]; simpl; try discriminate.
  - destruct t; reflexivity.
  - reflexivity.
  - rewrite !andb_true_iff. intros [Hab Hs]. split; [exact Hab|apply IH, Hs].
Qed.

Lemma strings_Contains_app_l (s t sub : string) :
  strings_Contains s sub = true -> strings_Contains (s +:+ t) sub = true.
Proof.
  induction s as [|a s IH]; simpl.
  - rewrite orb_false_r. intros Hp.
    destruct sub; [|discriminate Hp]. destruct t; reflexivity.
  - rewrite !orb_true_iff. intros [Hp|Hc].
    + left. apply (strings_HasPrefix_app (String a s) t sub Hp).
    + right. apply IH, Hc.
Qed.

Lemma strings_Contains_app_r (s t sub : string) :
  strings_Contains t sub = true -> strings_Contains (s +:+ t) sub = true.
Proof.
  intros Ht. induction s as [|a s IH]; [exact Ht|].
  simpl. rewrite IH. apply orb_true_r.
Qed.

(** The aggregate of errors that end with "scale not found" contains
    "not found". *)
Lemma aggregate_not_found (errs : list string) :
  exists msg,
    NewAggregate (errs ++ ["scale not found"]) = Some msg
    /\ strings_Contains msg "not found" = true.
Proof.
  destruct errs as [|e rest].
  - exists "scale not found". split; reflexivity.
  - exists (aggregate_Error ((e :: rest) ++ ["scale not found"])). split; [reflexivity|].
    cbn [app aggregate_Error].
    destruct (rest ++ ["scale not found"]) as [|e' rest'] eqn:E.
    { destruct rest; discriminate E. }
    rewrite <- E, fold_left_app. cbn [fold_left].
    apply strings_Contains_app_r, strings_Contains_app_l, strings_Contains_app_r.
    reflexivity.
Qed.

(** When no mapping yields a scale, [getScaleForResourceMappings] returns an
    error whose message contains "not found". *)
Lemma getScaleForResourceMappings_None (env : Env) (namespace name : string)
    (mappings : list RESTMapping) :
  (getScaleForResourceMappings env namespace name mappings).1.1 = None ->
  exists msg,
    (getScaleForResourceMappings env namespace name mappings).2 = Some msg
    /\ strings_Contains msg "not found" = true.
Proof.
  unfold getScaleForResourceMappings.
  destruct (getScaleLoop _ _ _ _ _ _ _) as [[scale gr] errs].
  cbn [fst snd]. intros ->. apply aggregate_not_found.
Qed.

(** C9, amended.  Whenever no REST mapping yields a scale, the aggregate of
    the errors contains "scale not found", hence "not found": [reconcileWPA]
    returns that error and does not reach the dereference of the nil
    scale. *)
Theorem reconcileWPA_scale_not_found {arch : Arch} (env : Env) (replicaCalc : ReplicaCalculatorItf)
    (wpa : WatermarkPodAutoscaler) (group version : string)
    (mappings : list RESTMapping) :
  ParseGroupVersion (ref_APIVersion (ScaleTargetRef (Spec wpa))) = Ok (group, version) ->
  RESTMappings env group (ref_Kind (ScaleTargetRef (Spec wpa))) = Ok mappings ->
  (getScaleForResourceMappings env (Namespace wpa)
     (ref_Name (ScaleTargetRef (Spec wpa))) mappings).1.1 = None ->
  exists msg,
    (getScaleForResourceMappings env (Namespace wpa)
       (ref_Name (ScaleTargetRef (Spec wpa))) mappings).2 = Some msg
    /\ strings_Contains msg "not found" = true
    /\ reconcileWPA env replicaCalc wpa = returned wpa (Err msg).
Proof.
  intros Hgv Hmap Hnone.
  destruct (getScaleForResourceMappings_None _ _ _ _ Hnone) as (msg & Emsg & Hc).
  exists msg. split; [exact Emsg|]. split; [exact Hc|].
  unfold reconcileWPA, getTargetScale. rewrite Hgv, Hmap.
  destruct (getScaleForResourceMappings _ _ _ _) as [[scale gr] err].
  cbn [fst snd] in *. subst scale err. rewrite Hc. reflexivity.
Qed.

(** ** The readiness filter *)

Section ReadinessFilter.
Context {arch : Arch}.

Lemma count_none_ready (readinessDelay : Duration) (podList : list Pod) (n : Z) :
  Forall (fun pod => toleratedAsReady readinessDelay pod = false) podList ->
  fold_left (fun n pod => if toleratedAsReady readinessDelay pod then n + 1 else n)
            podList n = n.
Proof.
  intros Hall. revert n. induction Hall as [|pod rest Hpod _ IH]; intros n; cbn [fold_left].
  - reflexivity.
  - rewrite Hpod. apply IH.
Qed.

(** The external-metric operation fails when no listed pod counts as
    ready. *)
Lemma GetExternalMetricReplicas_no_ready_pods (env : Env) (target : Scale)
    (metric : MetricSpec) (wpa : WatermarkPodAutoscaler) (podList : list Pod) :
  (forall selector, podLister_List env NamespaceAll selector = Ok podList) ->
  Forall (fun pod => toleratedAsReady (seconds (ReadinessDelaySeconds (Spec wpa))) pod = false)
         podList ->
  exists e, GetExternalMetricReplicas env target metric wpa = Err e.
Proof.
  intros Hlist Hall. unfold GetExternalMetricReplicas, externalUsage, getReadyPodsCount.
  rewrite Hlist. destruct (Z.of_nat (length podList) =? 0); [eexists; reflexivity|].
  rewrite (count_none_ready _ _ 0 Hall). eexists. reflexivity.
Qed.

(** C8, at the input where the resource-metric operation breaks it: the only
    pod of the target has failed, so that no pod is ready, and the metrics
    client reports a sample of 100 for a pod that is not listed.  The
    operation returns a proposal, a single replica, and no error. *)
Theorem GetResourceReplicas_without_ready_pods :
  (groupPods [failed_pod "a"] (one_sample "b" 100) "cpu" 0).1 = ∅
  /\ GetResourceReplicas stale_env (sample_scale 3 3) dead_band_metric (stale_wpa "absolute")
     = Ok {| replicaCount := 1; utilization := 100; timestamp := 990 * Second |}.
Proof. split; vm_compute; reflexivity. Qed.

(** C10.  Under the "average" algorithm, at an input where no pod is ready
    after the grouping while the metric map still holds the sample of a pod
    that is not listed, the usage is divided by a count of zero ready pods:
    the adjusted usage is +Inf, and the operation returns a replica
    calculation, not an error. *)
Theorem GetResourceReplicas_divides_by_zero :
  exists (env : Env) (target : Scale) (metric : MetricSpec) (wpa : WatermarkPodAutoscaler)
         (ready : gset string) (metrics : gmap string Z) (ts : Time),
    Algorithm (Spec wpa) = "average"
    /\ resourceUsage env target metric wpa = Ok (ready, metrics, PInf, ts)
    /\ size ready = 0%nat
    /\ size metrics = 1%nat
    /\ averaged_of wpa (Z.of_nat (size ready)) = F64_of_Z 0
    /\ exists calculation, GetResourceReplicas env target metric wpa = Ok calculation.
Proof.
  exists stale_env, (sample_scale 3 3), dead_band_metric, (stale_wpa "average").
  eexists _, _, _. split; [reflexivity|]. split; [vm_compute; reflexivity|].
  split; [vm_compute; reflexivity|]. split; [vm_compute; reflexivity|].
  split; [vm_compute; reflexivity|].
  eexists. vm_compute. reflexivity.
Qed.

End ReadinessFilter.

(** ** The properties at the sample inputs *)


(** Closed arithmetic facts, by evaluation. *)
Ltac by_evaluation :=
  vm_compute; repeat split; first [reflexivity | discriminate | intros ?; discriminate].

Lemma written_within_bounds_witness :
  exists u,
    out_scaleUpdate (reconcileWPA (arch:=amd64) (upscale_env None)
                       (NewReplicaCalculator (arch:=amd64) (upscale_env None))
                       (upscale_wpa false None)) = Some u
    /\ scale_SpecReplicas (su_scale u) = 12
    /\ effective_min (MinReplicas (Spec (upscale_wpa false None)))
       <= scale_SpecReplicas (su_scale u)
    /\ scale_SpecReplicas (su_scale u) <= MaxReplicas (Spec (upscale_wpa false None)).
Proof.
  eexists. split; [vm_compute; reflexivity|]. split; [reflexivity|].
  apply (written_within_bounds (arch:=amd64) (upscale_env None)
           (NewReplicaCalculator (arch:=amd64) (upscale_env None))
           (upscale_wpa false None)); by_evaluation.
Defined.





Lemma shouldScale_allows_witness :
  let wpa := upscale_wpa false (Some (900 * Second)) in
  ((shouldScale (upscale_env None) wpa 5 3 (990 * Second)).2 = true
   <-> (5 < 3 /\ 900 * Second + seconds 60 <= 990 * Second)
       \/ (3 < 5 /\ 900 * Second + seconds 60 <= 990 * Second))
  /\ (shouldScale (upscale_env None) wpa 5 5 (990 * Second)).2 = false
  /\ (shouldScale (upscale_env None) (upscale_wpa false None) 5 5 (990 * Second)).2 = true.
Proof.
  split; [|split].
  - apply (proj1 (shouldScale_allows (upscale_env None)
                    (upscale_wpa false (Some (900 * Second))) 5 3 (990 * Second))
             (900 * Second) eq_refl).
  - apply (proj1 (shouldScale_allows (upscale_env None)
                    (upscale_wpa false (Some (900 * Second))) 5 5 (990 * Second))
             (900 * Second) eq_refl).
    reflexivity.
  - apply (proj2 (shouldScale_allows (upscale_env None)
                    (upscale_wpa false None) 5 5 (990 * Second))).
    reflexivity.
Defined.

(** C6 fails in dry-run mode: the gate allows the upscale from 10 to 12
    replicas, nothing is written to the scale subresource, and the last scale
    time moves from 900 seconds to the time of the reconciliation. *)
Lemma LastScaleTime_changes_in_dry_run :
  let wpa := upscale_wpa true (Some (900 * Second)) in
  let o := reconcileWPA (arch:=amd64) (upscale_env None)
             (NewReplicaCalculator (arch:=amd64) (upscale_env None)) wpa in
  out_scaleUpdate o = None
  /\ LastScaleTime (Status wpa) = Some (900 * Second)
  /\ LastScaleTime (Status (out_wpa o)) = Some (1000 * Second)
  /\ (exists w, out_statusUpdate o = Some w
                /\ LastScaleTime (Status w) = Some (1000 * Second)).
Proof.
  split; [vm_compute; reflexivity|]. split; [reflexivity|].
  split; [vm_compute; reflexivity|].
  eexists. split; vm_compute; reflexivity.
Qed.

Lemma LastScaleTime_unchanged_witness :
  let wpa := upscale_wpa false (Some (900 * Second)) in
  let env := upscale_env (Some "conflict") in
  let o := reconcileWPA (arch:=amd64) env (NewReplicaCalculator (arch:=amd64) env) wpa in
  written o = Some 12
  /\ LastScaleTime (Status (out_wpa o)) = LastScaleTime (Status wpa)
  /\ (forall w, out_statusUpdate o = Some w ->
        LastScaleTime (Status w) = LastScaleTime (Status wpa)).
Proof.
  split; [vm_compute; reflexivity|].
  apply (LastScaleTime_unchanged (arch:=amd64) (upscale_env (Some "conflict"))
           (NewReplicaCalculator (arch:=amd64) (upscale_env (Some "conflict")))
           (upscale_wpa false (Some (900 * Second)))).
  - reflexivity.
  - intros u Hu. vm_compute in Hu. injection Hu as <-. discriminate.
Defined.



(** C9 fails: no input makes [reconcileWPA] panic when no REST mapping
    yields a scale. *)
Lemma no_panic_without_scale :
  ~ exists (arch : Arch) (env : Env) (replicaCalc : ReplicaCalculatorItf)
           (wpa : WatermarkPodAutoscaler) (group version : string)
           (mappings : list RESTMapping),
      ParseGroupVersion (ref_APIVersion (ScaleTargetRef (Spec wpa))) = Ok (group, version)
      /\ RESTMappings env group (ref_Kind (ScaleTargetRef (Spec wpa))) = Ok mappings
      /\ (getScaleForResourceMappings env (Namespace wpa)
            (ref_Name (ScaleTargetRef (Spec wpa))) mappings).1.1 = None
      /\ (forall msg,
            (getScaleForResourceMappings env (Namespace wpa)
               (ref_Name (ScaleTargetRef (Spec wpa))) mappings).2 = Some msg ->
            strings_Contains msg "not found" = false)
      /\ out_return (reconcileWPA env replicaCalc wpa) = Panicked.
Proof.
  intros (arch & env & replicaCalc & wpa & group & version & mappings
          & Hgv & Hmap & Hnone & Hmsg & Hpanic).
  destruct (getScaleForResourceMappings_None _ _ _ _ Hnone) as (msg & Emsg & Hc).
  rewrite (Hmsg msg Emsg) in Hc. discriminate Hc.
Qed.

Lemma reconcileWPA_scale_not_found_witness :
  let calc := NewReplicaCalculator (arch:=amd64) no_scale_env in
  exists msg,
    (getScaleForResourceMappings no_scale_env "default" "web" [sample_mapping]).2 = Some msg
    /\ strings_Contains msg "not found" = true
    /\ reconcileWPA (arch:=amd64) no_scale_env calc (upscale_wpa false None)
       = returned (upscale_wpa false None) (Err msg).
Proof.
  apply (reconcileWPA_scale_not_found (arch:=amd64) no_scale_env
           (NewReplicaCalculator (arch:=amd64) no_scale_env)
           (upscale_wpa false None) "apps" "v1" [sample_mapping]); reflexivity.
Defined.

(** ** The scenarios of the specification *)

(** Upscale above the high watermark: 10 replicas, the "average" algorithm on
    samples that sum to 90000, watermarks 5000 and 8000, tolerance 0.1 and an
    upscale factor of 50 percent.  12 replicas are written and the last scale
    time is set. *)
Example scenario_upscale :
  let env := sample_env (sample_scale 10 10) (ready_pods 10) (fun _ => [90000]) ∅ None in
  let wpa := sample_wpa "average" (Some 1) 20 (1 # 10) 50 50 false upscale_metrics
               (Some (900 * Second)) in
  let o := reconcileWPA (arch:=amd64) env (NewReplicaCalculator (arch:=amd64) env) wpa in
  (exists u : Q,
     externalUsage env (sample_scale 10 10) (external_spec "qps" 5000 8000) wpa
     = Ok (10, Fin u, 990 * Second)
     /\ (u == 9000)%Q)
  /\ written o = Some 12
  /\ LastScaleTime (Status (out_wpa o)) = Some (Now env).
Proof.
  split; [eexists; split; [vm_compute; reflexivity|reflexivity]|].
  split; vm_compute; reflexivity.
Qed.

(** Dead-band hold: the same with samples that sum to 82000.  Nothing is
    written and the status has 10 current and 10 desired replicas. *)
Example scenario_dead_band :
  let env := sample_env (sample_scale 10 10) (ready_pods 10) (fun _ => [82000]) ∅ None in
  let wpa := sample_wpa "average" (Some 1) 20 (1 # 10) 50 50 false upscale_metrics
               (Some (900 * Second)) in
  let o := reconcileWPA (arch:=amd64) env (NewReplicaCalculator (arch:=amd64) env) wpa in
  written o = None
  /\ CurrentReplicas (Status (out_wpa o)) = 10
  /\ DesiredReplicas (Status (out_wpa o)) = 10
  /\ LastScaleTime (Status (out_wpa o)) = Some (900 * Second).
Proof. repeat split; vm_compute; reflexivity. Qed.

(** Downscale floor: 3 replicas, a usage of 100 under a low watermark of 5000,
    a downscale factor of 100 percent and at least 1 replica.  The proposal
    is 1, the scale-down limit 0, and 1 replica is written. *)
Example scenario_downscale_floor :
  let env := sample_env (sample_scale 3 3) (ready_pods 3) (fun _ => [100]) ∅ None in
  let wpa := sample_wpa "absolute" (Some 1) 20 0 100 100 false upscale_metrics
               (Some (900 * Second)) in
  let o := reconcileWPA (arch:=amd64) env (NewReplicaCalculator (arch:=amd64) env) wpa in
  (getReplicaCount (arch:=amd64) 3 wpa (Fin 100) 5000 8000).1 = 1
  /\ calculateScaleDownLimit (arch:=amd64) wpa 3 = 0
  /\ written o = Some 1.
Proof. repeat split; vm_compute; reflexivity. Qed.

(** Cooldown blocks downscale: 5 replicas and a proposal of 3, 20 seconds
    after the last scale with a window of 60 seconds. *)
Example scenario_cooldown :
  let wpa := sample_wpa "absolute" (Some 1) 20 0 100 100 false upscale_metrics
               (Some (970 * Second)) in
  (shouldScale (upscale_env None) wpa 5 3 (990 * Second)).2 = false.
Proof. vm_compute. reflexivity. Qed.

(** Absolute algorithm on an external metric: 7 ready pods, samples that sum
    to 60000 and a high watermark of 50000 give a proposal of 9. *)
Example scenario_absolute :
  let env := sample_env (sample_scale 7 7) (ready_pods 7) (fun _ => [60000]) ∅ None in
  let wpa := sample_wpa "absolute" (Some 1) 20 0 50 50 false
               [external_spec "qps" 10000 50000] None in
  exists calculation,
    GetExternalMetricReplicas (arch:=amd64) env (sample_scale 7 7)
      (external_spec "qps" 10000 50000) wpa = Ok calculation
    /\ replicaCount calculation = 9.
Proof. eexists. split; vm_compute; reflexivity. Qed.

(** * Further properties *)

(** ** Conditions *)

Lemma getCondition_setConditionInList (now : Time) (cs : list Condition)
    (conditionType status reason message : string) :
  getCondition conditionType
    (setConditionInList now cs conditionType status reason message)
  = Some {| c_Type := conditionType;
            c_Status := status;
            c_LastTransitionTime :=
              match getCondition conditionType cs with
              | Some c0 =>
                  if String.eqb (c_Status c0) status
                  then c_LastTransitionTime c0 else Some now
              | None => if String.eqb "" status then None else Some now
              end;
            c_Reason := reason;
            c_Message := message |}.
Proof.
  unfold getCondition.
  induction cs as [|c rest IH]; cbn [setConditionInList List.find].
  - unfold setConditionFields. cbn [c_Type c_Status c_LastTransitionTime].
    rewrite String.eqb_refl. reflexivity.
  - destruct (String.eqb (c_Type c) conditionType) eqn:E; cbn [List.find].
    + unfold setConditionFields at 1. cbn [c_Type]. rewrite E.
      apply String.eqb_eq in E. unfold setConditionFields. rewrite E. reflexivity.
    + rewrite E. exact IH.
Qed.

Lemma getCondition_setConditionInList_ne (now : Time) (cs : list Condition)
    (conditionType status reason message other : string) :
  other <> conditionType ->
  getCondition other (setConditionInList now cs conditionType status reason message)
  = getCondition other cs.
Proof.
  intros Hne. unfold getCondition.
  induction cs as [|c rest IH]; cbn [setConditionInList List.find].
  - unfold setConditionFields. cbn [c_Type].
    destruct (String.eqb conditionType other) eqn:E; [|reflexivity].
    apply String.eqb_eq in E. congruence.
  - destruct (String.eqb (c_Type c) conditionType) eqn:E; cbn [List.find].
    + unfold setConditionFields at 1. cbn [c_Type].
      apply String.eqb_eq in E.
      destruct (String.eqb (c_Type c) other) eqn:E'; [|reflexivity].
      apply String.eqb_eq in E'. congruence.
    + destruct (String.eqb (c_Type c) other); [reflexivity|exact IH].
Qed.

Lemma countConditions_setConditionInList (now : Time) (cs : list Condition)
    (conditionType status reason message other : string) :
  countConditions other (setConditionInList now cs conditionType status reason message)
  = if String.eqb other conditionType
    then Nat.max 1 (countConditions other cs)
    else countConditions other cs.
Proof.
  unfold countConditions.
  induction cs as [|c rest IH]; cbn [setConditionInList List.filter].
  - unfold setConditionFields. cbn [c_Type]. rewrite (String.eqb_sym conditionType other).
    destruct (String.eqb other conditionType); reflexivity.
  - destruct (String.eqb (c_Type c) conditionType) eqn:E; cbn [List.filter].
    + unfold setConditionFields at 1. cbn [c_Type]. apply String.eqb_eq in E.
      destruct (String.eqb (c_Type c) other) eqn:E'.
      * apply String.eqb_eq in E'.
        assert (Eo : String.eqb other conditionType = true)
          by (apply String.eqb_eq; congruence).
        rewrite Eo. cbn [length]. lia.
      * assert (Eo : String.eqb other conditionType = false).
        { apply String.eqb_neq. intros ->. apply String.eqb_neq in E'. congruence. }
        rewrite Eo. reflexivity.
    + destruct (String.eqb (c_Type c) other) eqn:E'.
      * apply String.eqb_eq in E'.
        assert (Eo : String.eqb other conditionType = false).
        { apply String.eqb_neq. intros ->. apply String.eqb_neq in E. congruence. }
        rewrite Eo in IH |- *. cbn [length]. rewrite IH. reflexivity.
      * exact IH.
Qed.

(** X1.  After [setConditionInList], the condition found for the given type
    carries the given status, reason and message; its last transition time is
    the time of the call when the status differs from the one found before
    (the empty status for a type that was absent), and is kept when the
    status is the same.  The condition found for any other type is the one
    found before. *)
Theorem setConditionInList_lookup (now : Time) (cs : list Condition)
    (conditionType status reason message other : string) :
  getCondition other (setConditionInList now cs conditionType status reason message)
  = if String.eqb other conditionType then
      Some {| c_Type := conditionType;
              c_Status := status;
              c_LastTransitionTime :=
                match getCondition conditionType cs with
                | Some c0 =>
                    if String.eqb (c_Status c0) status
                    then c_LastTransitionTime c0 else Some now
                | None => if String.eqb "" status then None else Some now
                end;
              c_Reason := reason;
              c_Message := message |}
    else getCondition other cs.
Proof.
  destruct (String.eqb other conditionType) eqn:E.
  - apply String.eqb_eq in E. subst other. apply getCondition_setConditionInList.
  - apply String.eqb_neq in E. apply getCondition_setConditionInList_ne, E.
Qed.

(** X2.  [setConditionInList] keeps one condition per type: the list grows
    by one condition when the type was absent and keeps its length when it
    was present, the number of conditions of the given type becomes one when
    it was zero and is otherwise unchanged, and the number of conditions of
    any other type is unchanged. *)
Theorem setConditionInList_count (now : Time) (cs : list Condition)
    (conditionType status reason message : string) :
  let cs' := setConditionInList now cs conditionType status reason message in
  length cs' = match getCondition conditionType cs with
               | Some _ => length cs
               | None => S (length cs)
               end
  /\ forall other,
       countConditions other cs'
       = if String.eqb other conditionType
         then Nat.max 1 (countConditions other cs)
         else countConditions other cs.
Proof.
  intros cs'. subst cs'. split.
  - unfold getCondition.
    induction cs as [|c rest IH]; cbn [setConditionInList List.find length]; [reflexivity|].
    destruct (String.eqb (c_Type c) conditionType); cbn [length]; [reflexivity|].
    rewrite IH. destruct (List.find _ rest); reflexivity.
  - intros other. apply countConditions_setConditionInList.
Qed.

(** The condition set by [setCondition], as [condition_is] reads it. *)
Lemma setCondition_condition_is (env : Env) (wpa : WatermarkPodAutoscaler)
    (conditionType status reason message : string) :
  condition_is (setCondition env wpa conditionType status reason message)
    conditionType status reason.
Proof.
  unfold condition_is, setCondition. cbn [Status Conditions with_Conditions with_Status].
  rewrite getCondition_setConditionInList. eexists. split; [reflexivity|].
  split; reflexivity.
Qed.

(** X3.  The condition left by the cooldown gate, for a policy that has a
    last scale time [T0] and a timestamp [t]: [AbleToScale] is false with
    reason [BackoffBoth] when [t] is before the end of both forbidden
    windows, [BackoffUpscale] or [BackoffDownscale] when it is before the end
    of one of them only, whatever the current and the desired replicas are;
    past both windows the gate leaves the object as it is. *)
Theorem shouldScale_conditions (env : Env) (wpa : WatermarkPodAutoscaler)
    (N D : Z) (t T0 : Time) :
  LastScaleTime (Status wpa) = Some T0 ->
  let wpa' := (shouldScale env wpa N D t).1 in
  match t <? T0 + seconds (UpscaleForbiddenWindowSeconds (Spec wpa)),
        t <? T0 + seconds (DownscaleForbiddenWindowSeconds (Spec wpa)) with
  | true, true => condition_is wpa' AbleToScale ConditionFalse "BackoffBoth"
  | true, false => condition_is wpa' AbleToScale ConditionFalse "BackoffUpscale"
  | false, true => condition_is wpa' AbleToScale ConditionFalse "BackoffDownscale"
  | false, false => wpa' = wpa
  end.
Proof.
  intros HT wpa'. subst wpa'. unfold shouldScale. rewrite HT.
  rewrite !Time_Sub_pos. unfold Time_Add.
  destruct (t <? T0 + seconds (DownscaleForbiddenWindowSeconds (Spec wpa))) eqn:Ed.
  - cbn [Spec setCondition with_Conditions with_Status].
    destruct (t <? T0 + seconds (UpscaleForbiddenWindowSeconds (Spec wpa))); cbn [fst].
    + apply setCondition_condition_is.
    + apply setCondition_condition_is.
  - destruct (t <? T0 + seconds (UpscaleForbiddenWindowSeconds (Spec wpa))); cbn [fst].
    + apply setCondition_condition_is.
    + reflexivity.
Qed.

Ltac case_ltb a b :=
  let E := fresh "E" in
  destruct (a <? b) eqn:E; [apply Z.ltb_lt in E|apply Z.ltb_ge in E].

Section NormalizerConditions.
Context {arch : Arch}.

(** The normalizer hands the proposal back exactly when it reports
    [DesiredWithinRange]. *)
Lemma convertDesiredReplicasWithRules_reason (wpa : WatermarkPodAutoscaler)
    (N d m M : Z) :
  (convertDesiredReplicasWithRules wpa N d m M).1.1 = d
  <-> (convertDesiredReplicasWithRules wpa N d m M).1.2 = "DesiredWithinRange".
Proof.
  unfold convertDesiredReplicasWithRules.
  repeat match goal with
         | |- context [if ?a <? ?b then _ else _] =>
             let E := fresh "E" in
             destruct (a <? b) eqn:E; [apply Z.ltb_lt in E|apply Z.ltb_ge in E]
         | |- context [if ?a =? ?b then _ else _] => destruct (a =? b)
         end; cbn [fst snd]; split; intros H; solve [discriminate H | lia | reflexivity].
Qed.

(** X4.  [normalizeDesiredReplicas] reports whether it changed the proposal:
    the condition [ScalingLimited] it leaves is false exactly when the value
    returned is the proposal, true exactly when it is not, and its reason is
    [DesiredWithinRange] exactly when the value returned is the proposal. *)
Theorem normalizeDesiredReplicas_limited (env : Env) (wpa : WatermarkPodAutoscaler)
    (N pre : Z) :
  let wpa' := (normalizeDesiredReplicas env wpa N pre).1 in
  let d := (normalizeDesiredReplicas env wpa N pre).2 in
  exists c,
    getCondition ScalingLimited (Conditions (Status wpa')) = Some c
    /\ (c_Status c = ConditionFalse <-> d = pre)
    /\ (c_Status c = ConditionTrue <-> d <> pre)
    /\ (c_Reason c = "DesiredWithinRange" <-> d = pre).
Proof.
  intros wpa' d. subst wpa' d. unfold normalizeDesiredReplicas.
  pose proof (convertDesiredReplicasWithRules_reason wpa N pre
                (match MinReplicas (Spec wpa) with Some m => m | None => 0 end)
                (MaxReplicas (Spec wpa))) as Hr.
  destruct (convertDesiredReplicasWithRules _ _ _ _ _) as [[d c] r].
  cbn [fst snd] in Hr.
  destruct (d =? pre) eqn:E; [apply Z.eqb_eq in E|apply Z.eqb_neq in E];
    cbn [fst snd]; unfold setCondition;
    cbn [Status Conditions with_Conditions with_Status];
    rewrite getCondition_setConditionInList; eexists; (split; [reflexivity|]);
    cbn [c_Status c_Reason]; repeat split; intros; try tauto; try discriminate.
Qed.

(** The range of [clamp], and its fixed points. *)
Lemma clamp_range (sdl sul N d m M : Z) :
  sdl < N < sul -> m <= N <= M -> 1 <= N ->
  (if m =? 0 then 1 else Z.max sdl m) <= clamp sdl sul d m M <= Z.min sul M.
Proof.
  intros Hc Hm HN. unfold clamp.
  destruct (m =? 0) eqn:Em; [apply Z.eqb_eq in Em|apply Z.eqb_neq in Em];
    split_ltb d sdl sul; lia.
Qed.

Lemma clamp_in_range (sdl sul x m M : Z) :
  (if m =? 0 then 1 else Z.max sdl m) <= x <= Z.min sul M ->
  clamp sdl sul x m M = x.
Proof.
  intros Hx. unfold clamp.
  destruct (m =? 0) eqn:Em; [apply Z.eqb_eq in Em|apply Z.eqb_neq in Em];
    split_ltb x sdl sul; lia.
Qed.

Lemma clamp_monotone (sdl sul N d d' m M : Z) :
  sdl < N < sul -> m <= N <= M -> 1 <= N -> d <= d' ->
  clamp sdl sul d m M <= clamp sdl sul d' m M.
Proof.
  intros Hc Hm HN Hd. unfold clamp.
  destruct (m =? 0) eqn:Em; [apply Z.eqb_eq in Em|apply Z.eqb_neq in Em];
    case_ltb d' sdl; case_ltb sul d'; split_ltb d sdl sul; lia.
Qed.

(** X5.  Normalizing is idempotent: for a policy with valid replica bounds
    and rate bounds that fit [int32], and current replicas [N >= 1] within
    the replica bounds, the normalizer returns a value that it returns
    unchanged when given it again. *)
Theorem convertDesiredReplicasWithRules_idempotent (wpa : WatermarkPodAutoscaler)
    (N d : Z) :
  valid_bounds wpa -> caps_representable wpa N -> 1 <= N ->
  default 0 (MinReplicas (Spec wpa)) <= N <= MaxReplicas (Spec wpa) ->
  let normalized x :=
    (convertDesiredReplicasWithRules wpa N x (default 0 (MinReplicas (Spec wpa)))
       (MaxReplicas (Spec wpa))).1.1 in
  normalized (normalized d) = normalized d.
Proof.
  intros Hv Hc HN Hm normalized. subst normalized. cbn beta.
  rewrite !(normalized_clamp _ _ _ Hv Hc).
  apply clamp_in_range, (clamp_range _ _ N); [apply spec_caps_bracket|assumption..].
Qed.

(** X6.  Normalizing is monotone: under the same conditions, a larger
    proposal is never normalized to fewer replicas than a smaller one. *)
Theorem convertDesiredReplicasWithRules_monotone (wpa : WatermarkPodAutoscaler)
    (N d d' : Z) :
  valid_bounds wpa -> caps_representable wpa N -> 1 <= N ->
  default 0 (MinReplicas (Spec wpa)) <= N <= MaxReplicas (Spec wpa) ->
  d <= d' ->
  (convertDesiredReplicasWithRules wpa N d (default 0 (MinReplicas (Spec wpa)))
     (MaxReplicas (Spec wpa))).1.1
  <= (convertDesiredReplicasWithRules wpa N d' (default 0 (MinReplicas (Spec wpa)))
        (MaxReplicas (Spec wpa))).1.1.
Proof.
  intros Hv Hc HN Hm Hd.
  rewrite !(normalized_clamp _ _ _ Hv Hc).
  apply (clamp_monotone _ _ N); [apply spec_caps_bracket|assumption..].
Qed.

End NormalizerConditions.

(** ** The direction of the watermark evaluator *)

Section EvaluatorDirection.
Context {arch : Arch}.
Local Open Scope Q_scope.




End EvaluatorDirection.

(** ** Pods and samples *)

Lemma getPodCondition_from_first (i : Z) (conditions : list PodCondition)
    (conditionType : string) :
  match getPodCondition_from i conditions conditionType with
  | (j, Some c) =>
      exists k : nat,
        j = i + Z.of_nat k
        /\ conditions !! k = Some c
        /\ pc_Type c = conditionType
        /\ forall (k' : nat) c', (k' < k)%nat -> conditions !! k' = Some c' ->
             pc_Type c' <> conditionType
  | (j, None) =>
      j = -1 /\ forall c, c ∈ conditions -> pc_Type c <> conditionType
  end.
Proof.
  revert i. induction conditions as [|c rest IH]; intros i; cbn [getPodCondition_from].
  - split; [reflexivity|]. intros c Hc. inversion Hc.
  - destruct (String.eqb (pc_Type c) conditionType) eqn:E.
    + apply String.eqb_eq in E. exists 0%nat. repeat split; [lia|assumption|].
      intros k' c' Hk. lia.
    + apply String.eqb_neq in E. specialize (IH (i + 1)).
      destruct (getPodCondition_from (i + 1) rest conditionType) as [j [c1|]].
      * destruct IH as (k & -> & Hl & Ht & Hfirst).
        exists (S k). repeat split; [lia|assumption|assumption|].
        intros [|k'] c' Hk Hl'; cbn in Hl'.
        -- congruence.
        -- apply (Hfirst k'); [lia|assumption].
      * destruct IH as [-> Hnone]. split; [reflexivity|].
        intros c' Hc'. apply elem_of_cons in Hc' as [->|Hc']; [assumption|].
        apply Hnone, Hc'.
Qed.

(** X8.  [getPodCondition] answers the first condition of the given type
    together with its index in the list, and [(-1, nil)] exactly when the
    status has no condition of that type. *)
Theorem getPodCondition_first (status : PodStatus) (conditionType : string) :
  match getPodCondition status conditionType with
  | (j, Some c) =>
      exists k : nat,
        j = Z.of_nat k
        /\ PodConditions status !! k = Some c
        /\ pc_Type c = conditionType
        /\ forall (k' : nat) c', (k' < k)%nat -> PodConditions status !! k' = Some c' ->
             pc_Type c' <> conditionType
  | (j, None) =>
      j = -1 /\ forall c, c ∈ PodConditions status -> pc_Type c <> conditionType
  end.
Proof.
  unfold getPodCondition.
  pose proof (getPodCondition_from_first 0 (PodConditions status) conditionType) as H.
  destruct (getPodCondition_from 0 (PodConditions status) conditionType) as [j [c|]];
    exact H.
Qed.

(** The counter of [getReadyPodsCount] counts the tolerated pods. *)
Lemma count_toleratedPods (readinessDelay : Duration) (podList : list Pod) (n : Z) :
  fold_left (fun n pod => if toleratedAsReady readinessDelay pod then n + 1 else n)
            podList n
  = n + Z.of_nat (length (toleratedPods readinessDelay podList)).
Proof.
  unfold toleratedPods. revert n.
  induction podList as [|pod rest IH]; intros n; cbn [fold_left List.filter length].
  - lia.
  - rewrite IH. destruct (toleratedAsReady readinessDelay pod); cbn [length]; lia.
Qed.

Lemma length_toleratedPods (readinessDelay : Duration) (podList : list Pod) :
  (length (toleratedPods readinessDelay podList) <= length podList)%nat.
Proof. unfold toleratedPods. apply List.filter_length_le. Qed.

Lemma wrap32_small (z : Z) : min_int32 <= z <= max_int32 -> wrap32 z = z.
Proof.
  unfold wrap32, min_int32, max_int32. intros Hz.
  rewrite Z.mod_small by lia. lia.
Qed.

(** X9.  [getReadyPodsCount], when the pod lister answers a list that fits
    [int32]: it returns the number of pods tolerated as ready, which is at
    least 1 and at most the number of listed pods, and it returns an error
    exactly when no listed pod is tolerated as ready (an empty list
    included). *)
Theorem getReadyPodsCount_count (env : Env) (namespace : string)
    (selector : option Selector) (readinessDelay : Duration) (podList : list Pod) :
  podLister_List env namespace selector = Ok podList ->
  Z.of_nat (length podList) <= max_int32 ->
  match getReadyPodsCount env namespace selector readinessDelay with
  | Ok n =>
      n = Z.of_nat (length (toleratedPods readinessDelay podList))
      /\ 1 <= n <= Z.of_nat (length podList)
  | Err _ => toleratedPods readinessDelay podList = []
  | Panicked => False
  end.
Proof.
  intros Hl Hlen. unfold getReadyPodsCount. rewrite Hl.
  pose proof (length_toleratedPods readinessDelay podList) as Hle.
  destruct (Z.of_nat (length podList) =? 0) eqn:E0.
  - apply Z.eqb_eq in E0. destruct podList; [reflexivity|cbn in E0; lia].
  - rewrite count_toleratedPods, Z.add_0_l.
    destruct (Z.of_nat (length (toleratedPods readinessDelay podList)) =? 0) eqn:E1.
    + apply Z.eqb_eq in E1.
      destruct (toleratedPods readinessDelay podList); [reflexivity|cbn in E1; lia].
    + apply Z.eqb_neq in E1. rewrite wrap32_small by (unfold min_int32; lia).
      split; [reflexivity|lia].
Qed.

(** Addition in [int64] is addition modulo [2 ^ 64]. *)
Lemma wrap64_add_l (a b : Z) : wrap64 (wrap64 a + b) = wrap64 (a + b).
Proof.
  unfold wrap64. f_equal.
  replace ((a + 2 ^ 63) mod 2 ^ 64 - 2 ^ 63 + b + 2 ^ 63)
    with ((a + 2 ^ 63) mod 2 ^ 64 + b) by lia.
  rewrite Zplus_mod_idemp_l. f_equal. lia.
Qed.

Lemma wrap64_small (z : Z) : min_int64 <= z <= max_int64 -> wrap64 z = z.
Proof.
  unfold wrap64, min_int64, max_int64. intros Hz.
  rewrite Z.mod_small by lia. lia.
Qed.

Lemma sum_samples_from (metrics : list Z) (a : Z) :
  fold_left (fun sum val => wrap64 (sum + val)) metrics (wrap64 a)
  = wrap64 (a + Zsum metrics).
Proof.
  revert a. induction metrics as [|v rest IH]; intros a; cbn [fold_left].
  - f_equal. unfold Zsum. cbn [fold_right]. lia.
  - change (Zsum (v :: rest)) with (v + Zsum rest).
    rewrite wrap64_add_l, IH. f_equal. lia.
Qed.

Lemma Zsum_Permutation (l l' : list Z) : l ≡ₚ l' -> Zsum l = Zsum l'.
Proof.
  unfold Zsum. induction 1; cbn [fold_right] in *; lia.
Qed.

(** X10.  The sums of the samples are sums modulo [2 ^ 64], whatever the
    order in which the samples are visited: the sum of the external samples
    is that of the list, and the sum of the pod samples is that of the
    values of the map in any order of its entries.  A sum that fits [int64]
    is exact. *)
Theorem sum_samples_any_order (metrics : list Z) (podMetrics : gmap string Z) :
  sum_samples metrics = wrap64 (Zsum metrics)
  /\ (forall visited, visited ≡ₚ metrics -> sum_samples visited = sum_samples metrics)
  /\ (forall entries : list (string * Z), entries ≡ₚ map_to_list podMetrics ->
        sum_podMetrics podMetrics = wrap64 (Zsum (map snd entries)))
  /\ (min_int64 <= Zsum metrics <= max_int64 -> sum_samples metrics = Zsum metrics).
Proof.
  assert (Hs : forall l, sum_samples l = wrap64 (Zsum l)).
  { intros l. unfold sum_samples. change 0 with (wrap64 0) at 1.
    rewrite sum_samples_from. reflexivity. }
  split; [apply Hs|]. split; [|split].
  - intros visited Hp. rewrite !Hs. f_equal. apply Zsum_Permutation, Hp.
  - intros entries Hp. unfold sum_podMetrics.
    rewrite (Zsum_Permutation _ _ (Permutation_map snd Hp)).
    rewrite map_fold_foldr. clear Hp.
    induction (map_to_list podMetrics) as [|[k v] rest IH]; cbn [foldr map].
    + reflexivity.
    + unfold uncurry at 1. cbn [fst snd]. rewrite IH, wrap64_add_l. f_equal.
      change (Zsum (v :: map snd rest)) with (v + Zsum (map snd rest)). lia.
  - intros Hr. rewrite Hs. apply wrap64_small, Hr.
Qed.

(** One iteration of [groupPods]: the pod joins one group at most, and the
    groups only grow. *)
Lemma groupPod_step (metrics : gmap string Z) (resource : string) (delay : Duration)
    (g : PodGroups) (pod : Pod) :
  let g' := groupPod metrics resource delay g pod in
  ((readyPods g' = readyPods g
    /\ (ignoredPods g' = ignoredPods g \/ ignoredPods g' = {[ pod_Name pod ]} ∪ ignoredPods g))
   \/ (readyPods g' = {[ pod_Name pod ]} ∪ readyPods g
       /\ ignoredPods g' = ignoredPods g
       /\ is_Some (metrics !! pod_Name pod)
       /\ Phase (pod_Status pod) <> PodFailed
       /\ Phase (pod_Status pod) <> PodPending))
  /\ (is_Some (metrics !! pod_Name pod) ->
      pod_Name pod ∈ readyPods g' \/ pod_Name pod ∈ ignoredPods g').
Proof.
  unfold groupPod.
  destruct (String.eqb (Phase (pod_Status pod)) PodFailed) eqn:Ef;
    [cbn; split; [left; split; [reflexivity|right; reflexivity]|intros _; right; (set_unfold; intuition (subst; eauto))]|].
  destruct (String.eqb (Phase (pod_Status pod)) PodPending) eqn:Ep;
    [cbn; split; [left; split; [reflexivity|right; reflexivity]|intros _; right; (set_unfold; intuition (subst; eauto))]|].
  apply String.eqb_neq in Ef, Ep.
  destruct (metrics !! pod_Name pod) as [v|] eqn:Em.
  - match goal with
    | |- context [if ?b then _ else _] => destruct b
    end; cbn.
    + split; [left; split; [reflexivity|right; reflexivity]|intros _; right; (set_unfold; intuition (subst; eauto))].
    + split; [right; repeat split; (assumption || eauto)|intros _; left; (set_unfold; intuition (subst; eauto))].
  - cbn. split; [left; split; [reflexivity|left; reflexivity]|].
    intros [? ?]. discriminate.
Qed.

Lemma groupPods_fold (metrics : gmap string Z) (resource : string) (delay : Duration)
    (podList : list Pod) :
  let g := fold_left (groupPod metrics resource delay) podList
             {| readyPods := ∅; ignoredPods := ∅; missing := ∅ |} in
  (forall name, name ∈ readyPods g ->
     is_Some (metrics !! name)
     /\ exists pod, pod ∈ podList /\ pod_Name pod = name
                    /\ Phase (pod_Status pod) <> PodFailed
                    /\ Phase (pod_Status pod) <> PodPending)
  /\ (forall name, name ∈ ignoredPods g -> name ∈ podNames podList)
  /\ (forall pod, pod ∈ podList -> is_Some (metrics !! pod_Name pod) ->
        pod_Name pod ∈ readyPods g \/ pod_Name pod ∈ ignoredPods g)
  /\ (NoDup (pod_Name <$> podList) -> readyPods g ## ignoredPods g).
Proof.
  induction podList as [|pod rest IH] using rev_ind.
  - cbn. repeat split; try (set_unfold; intuition (subst; eauto)).
  - cbn zeta in *. rewrite fold_left_app. cbn [fold_left].
    remember (fold_left (groupPod metrics resource delay) rest
                {| readyPods := ∅; ignoredPods := ∅; missing := ∅ |}) as g eqn:Hg.
    clear Hg.
    destruct IH as (IHr & IHi & IHc & IHd).
    pose proof (groupPod_step metrics resource delay g pod) as [Hstep Hcls].
    cbn zeta in Hstep, Hcls.
    remember (groupPod metrics resource delay g pod) as g' eqn:Hg'. clear Hg'.
    assert (Hnames : podNames (rest ++ [pod]) = podNames rest ∪ {[ pod_Name pod ]}).
    { unfold podNames. rewrite fmap_app, list_to_set_app_L. cbn. set_unfold. tauto. }
    assert (Hsub : readyPods g ⊆ readyPods g' /\ ignoredPods g ⊆ ignoredPods g').
    { destruct Hstep as [[-> [-> | ->]] | (-> & -> & _)]; (set_unfold; intuition (subst; eauto)). }
    assert (Hready : forall name, name ∈ readyPods g ->
              name ∈ podNames rest).
    { intros name Hn. destruct (IHr name Hn) as (_ & p & Hp & <- & _).
      unfold podNames. apply elem_of_list_to_set, list_elem_of_fmap. eauto. }
    split; [|split; [|split]].
    + intros name Hn.
      destruct Hstep as [[Er _] | (Er & _ & Hs & Hf & Hp)]; rewrite Er in Hn.
      * destruct (IHr name Hn) as (Hm & p & Hin & Hnm & Hph).
        split; [assumption|]. exists p. split; [(set_unfold; intuition (subst; eauto))|]. split; assumption.
      * apply elem_of_union in Hn as [Hn|Hn].
        -- apply elem_of_singleton in Hn. subst name. split; [assumption|].
           exists pod. repeat split; try assumption. (set_unfold; intuition (subst; eauto)).
        -- destruct (IHr name Hn) as (Hm & p & Hin & Hnm & Hph).
           split; [assumption|]. exists p. split; [(set_unfold; intuition (subst; eauto))|]. split; assumption.
    + intros name Hn. rewrite Hnames.
      destruct Hstep as [[_ [Ei|Ei]] | (_ & Ei & _)]; rewrite Ei in Hn;
        (set_unfold; intuition (subst; eauto)).
    + intros p Hin Hm. apply elem_of_app in Hin as [Hin|Hin].
      * destruct (IHc p Hin Hm); (set_unfold; intuition (subst; eauto)).
      * apply list_elem_of_singleton in Hin. subst p. apply Hcls, Hm.
    + intros Hnd. rewrite fmap_app in Hnd. apply NoDup_app in Hnd as (Hnd & Hnew & _).
      specialize (IHd Hnd).
      assert (Hfresh : pod_Name pod ∉ podNames rest).
      { intros Hin. unfold podNames in Hin. apply elem_of_list_to_set in Hin.
        apply (Hnew (pod_Name pod)); [exact Hin|]. cbn. (set_unfold; intuition (subst; eauto)). }
      destruct Hstep as [[Er [Ei|Ei]] | (Er & Ei & _)]; rewrite Er, Ei.
      * exact IHd.
      * specialize (Hready (pod_Name pod)). (set_unfold; intuition (subst; eauto)).
      * specialize (IHi (pod_Name pod)). (set_unfold; intuition (subst; eauto)).
Qed.

(** X11.  The groups of [groupPods]: every ready pod is a listed pod that is
    neither failed nor pending and has a sample; every ignored pod is a
    listed pod; and every listed pod that has a sample is ready or
    ignored. *)
Theorem groupPods_groups (podList : list Pod) (metrics : gmap string Z)
    (resource : string) (delay : Duration) :
  let ready := (groupPods podList metrics resource delay).1 in
  let ignored := (groupPods podList metrics resource delay).2 in
  (forall name, name ∈ ready ->
     is_Some (metrics !! name)
     /\ exists pod, pod ∈ podList /\ pod_Name pod = name
                    /\ Phase (pod_Status pod) <> PodFailed
                    /\ Phase (pod_Status pod) <> PodPending)
  /\ (forall name, name ∈ ignored -> name ∈ podNames podList)
  /\ (forall pod, pod ∈ podList -> is_Some (metrics !! pod_Name pod) ->
        pod_Name pod ∈ ready \/ pod_Name pod ∈ ignored).
Proof.
  intros ready ignored. subst ready ignored. unfold groupPods. cbn [fst snd].
  pose proof (groupPods_fold metrics resource delay podList) as (H1 & H2 & H3 & _).
  split; [exact H1|split; [exact H2|exact H3]].
Qed.

(** X12.  When the listed pods have distinct names, no pod is both ready and
    ignored for [groupPods]. *)
Theorem groupPods_disjoint (podList : list Pod) (metrics : gmap string Z)
    (resource : string) (delay : Duration) :
  NoDup (pod_Name <$> podList) ->
  (groupPods podList metrics resource delay).1
  ## (groupPods podList metrics resource delay).2.
Proof.
  intros Hnd. unfold groupPods. cbn [fst snd].
  apply (groupPods_fold metrics resource delay podList), Hnd.
Qed.

Lemma foldr_delete_lookup (metrics : gmap string Z) (pods : list string) (name : string) :
  foldr (fun pod m => delete pod m) metrics pods !! name
  = if bool_decide (name ∈ pods) then None else metrics !! name.
Proof.
  induction pods as [|pod rest IH]; cbn [foldr].
  - rewrite bool_decide_eq_false_2 by (apply not_elem_of_nil). reflexivity.
  - destruct (decide (name = pod)) as [->|Hne].
    + rewrite lookup_delete_eq, bool_decide_eq_true_2 by (left). reflexivity.
    + rewrite lookup_delete_ne, IH by congruence.
      destruct (bool_decide (name ∈ rest)) eqn:E.
      * apply bool_decide_eq_true in E. rewrite bool_decide_eq_true_2 by (right; exact E).
        reflexivity.
      * apply bool_decide_eq_false in E.
        rewrite bool_decide_eq_false_2; [reflexivity|].
        intros Hin. apply elem_of_cons in Hin as [?|?]; congruence.
Qed.

Lemma lookup_removeMetricsForPods (metrics : gmap string Z) (pods : gset string)
    (name : string) :
  removeMetricsForPods metrics pods !! name
  = if bool_decide (name ∈ pods) then None else metrics !! name.
Proof.
  unfold removeMetricsForPods, set_fold. cbn [compose].
  rewrite foldr_delete_lookup.
  destruct (bool_decide (name ∈ elements pods)) eqn:E.
  - apply bool_decide_eq_true in E. apply elem_of_elements in E.
    rewrite bool_decide_eq_true_2 by exact E. reflexivity.
  - apply bool_decide_eq_false in E. rewrite elem_of_elements in E.
    rewrite bool_decide_eq_false_2 by exact E. reflexivity.
Qed.

(** X13.  [removeMetricsForPods] removes the samples of the given pods and
    no other: afterwards a pod of the set has no sample, and any other pod
    has the sample it had. *)
Theorem removeMetricsForPods_lookup (metrics : gmap string Z) (pods : gset string)
    (name : string) :
  removeMetricsForPods metrics pods !! name
  = if bool_decide (name ∈ pods) then None else metrics !! name.
Proof. apply lookup_removeMetricsForPods. Qed.

Section ListedSamples.
Context {arch : Arch}.

(** Once the samples of the ignored pods are removed, a sample of a listed
    pod is that of a ready pod. *)
Lemma remaining_samples_ready (podList : list Pod) (metrics : gmap string Z)
    (resource : string) (delay : Duration) (name : string) :
  dom metrics ⊆ podNames podList ->
  name ∈ dom (removeMetricsForPods metrics (groupPods podList metrics resource delay).2) ->
  name ∈ (groupPods podList metrics resource delay).1.
Proof.
  intros Hlisted Hsome. apply elem_of_dom in Hsome.
  rewrite lookup_removeMetricsForPods in Hsome.
  destruct (bool_decide _) eqn:E in Hsome; [destruct Hsome; discriminate|].
  apply bool_decide_eq_false in E.
  pose proof (Hlisted name (proj2 (elem_of_dom _ _) Hsome)) as Hin.
  unfold podNames in Hin. apply elem_of_list_to_set, list_elem_of_fmap in Hin.
  destruct Hin as (pod & -> & Hin).
  pose proof (groupPods_fold metrics resource delay podList) as (_ & _ & H3 & _).
  destruct (H3 pod Hin Hsome) as [Hr|Hi]; [exact Hr|].
  exfalso. apply E. exact Hi.
Qed.

(** X14.  [GetResourceReplicas] returns an error when no pod is ready, as
    long as every sample of the metrics client belongs to a listed pod: "no
    pods returned by selector" for an empty list, "did not receive metrics
    for any ready pods" otherwise.  The collaborators answer without
    error. *)
Theorem GetResourceReplicas_no_ready_pod (env : Env) (target : Scale)
    (metric : MetricSpec) (wpa : WatermarkPodAutoscaler)
    (resource : ResourceMetricSource) (labelSelector lbl : Selector)
    (metrics : gmap string Z) (ts : Time) (podList : list Pod) :
  ms_Resource metric = Some resource ->
  LabelSelectorAsSelector env (rsrc_MetricSelector resource) = Ok labelSelector ->
  GetResourceMetric env (rsrc_Name resource) (Namespace wpa) labelSelector
  = Ok (metrics, ts) ->
  labels_Parse env (scale_StatusSelector target) = Ok lbl ->
  podLister_List env (Namespace wpa) (Some lbl) = Ok podList ->
  dom metrics ⊆ podNames podList ->
  (groupPods podList metrics (rsrc_Name resource)
     (seconds (ReadinessDelaySeconds (Spec wpa)))).1 = ∅ ->
  GetResourceReplicas env target metric wpa
  = Err (match podList with
         | [] => "no pods returned by selector while calculating replica count"
         | _ => "did not receive metrics for any ready pods"
         end).
Proof.
  intros Hres Hsel Hmet Hlbl Hpods Hlisted Hready.
  unfold GetResourceReplicas, resourceUsage. rewrite Hres, Hsel, Hmet, Hlbl, Hpods.
  destruct podList as [|pod rest]; [reflexivity|].
  set (podList := pod :: rest) in *.
  replace (Z.of_nat (length podList) =? 0) with false
    by (symmetry; apply Z.eqb_neq; cbn; lia).
  pose proof (fun name =>
    remaining_samples_ready podList metrics (rsrc_Name resource)
      (seconds (ReadinessDelaySeconds (Spec wpa))) name Hlisted) as Hrem.
  destruct (groupPods podList metrics (rsrc_Name resource)
              (seconds (ReadinessDelaySeconds (Spec wpa)))) as [ready ignored].
  cbn [fst snd] in *. subst ready.
  assert (Hempty : removeMetricsForPods metrics ignored = ∅).
  { apply map_empty. intros name.
    destruct (removeMetricsForPods metrics ignored !! name) eqn:E; [|reflexivity].
    exfalso. apply (not_elem_of_empty (C:=gset string) name), Hrem.
    apply elem_of_dom. eauto. }
  rewrite Hempty, map_size_empty. reflexivity.
Qed.

(** X15.  When [GetResourceReplicas] gets as far as a usage and every
    sample of the metrics client belongs to a listed pod, at least one pod
    is ready, the samples that are summed are samples of ready pods, and the
    usage is a finite number: the average is never taken over zero pods. *)
Theorem resourceUsage_of_ready_pods (env : Env) (target : Scale)
    (metric : MetricSpec) (wpa : WatermarkPodAutoscaler)
    (resource : ResourceMetricSource) (labelSelector lbl : Selector)
    (metrics : gmap string Z) (ts : Time) (podList : list Pod)
    (ready : gset string) (remaining : gmap string Z) (usage : F64) (ts' : Time) :
  ms_Resource metric = Some resource ->
  LabelSelectorAsSelector env (rsrc_MetricSelector resource) = Ok labelSelector ->
  GetResourceMetric env (rsrc_Name resource) (Namespace wpa) labelSelector
  = Ok (metrics, ts) ->
  labels_Parse env (scale_StatusSelector target) = Ok lbl ->
  podLister_List env (Namespace wpa) (Some lbl) = Ok podList ->
  dom metrics ⊆ podNames podList ->
  resourceUsage env target metric wpa = Ok (ready, remaining, usage, ts') ->
  ready <> ∅
  /\ dom remaining ⊆ ready
  /\ exists q, usage = Fin q.
Proof.
  intros Hres Hsel Hmet Hlbl Hpods Hlisted.
  unfold resourceUsage. rewrite Hres, Hsel, Hmet, Hlbl, Hpods.
  destruct (Z.of_nat (length podList) =? 0); [discriminate|].
  pose proof (fun name =>
    remaining_samples_ready podList metrics (rsrc_Name resource)
      (seconds (ReadinessDelaySeconds (Spec wpa))) name Hlisted) as Hrem.
  destruct (groupPods podList metrics (rsrc_Name resource)
              (seconds (ReadinessDelaySeconds (Spec wpa)))) as [ready0 ignored].
  cbn [fst snd] in *.
  destruct (Z.of_nat (size (removeMetricsForPods metrics ignored)) =? 0) eqn:Esz;
    [discriminate|].
  intros [= <- <- <- <-]. apply Z.eqb_neq in Esz.
  assert (Hne : ready0 <> ∅).
  { intros ->.
    destruct (map_choose (removeMetricsForPods metrics ignored)) as (name & v & Hv).
    - intros E. rewrite E, map_size_empty in Esz. lia.
    - apply (not_elem_of_empty (C:=gset string) name), Hrem.
      apply elem_of_dom. eauto. }
  split; [exact Hne|]. split; [exact Hrem|].
  unfold averaged_of.
  destruct (String.eqb (Algorithm (Spec wpa)) "average").
  - unfold F64_of_Z, fdiv.
    assert (E : Qis0 (inject_Z (Z.of_nat (size ready0))) = false).
    { apply Qis0_inject_Z. intros E. apply Hne, leibniz_equiv, size_empty_inv. lia. }
    rewrite E. eauto.
  - unfold F64_of_Z, fdiv. change (Qis0 1) with false. eauto.
Qed.

End ListedSamples.

(** ** The metric aggregator: errors and statuses *)

Lemma computeReplicasLoop_first_error (env : Env) (replicaCalc : ReplicaCalculatorItf)
    (wpa : WatermarkPodAutoscaler) (scale : Scale) (pre : list MetricSpec)
    (failing : MetricSpec) (post : list MetricSpec) (e : string) :
  forall (i : nat) (acc : MetricsReplicas) (ps : list MetricProposal),
    proposals env replicaCalc wpa scale pre = Some ps ->
    (ms_External failing <> None \/ ms_Resource failing <> None) ->
    (evalMetricSpec env replicaCalc wpa scale failing).2 = Err e ->
    computeReplicasLoop env replicaCalc scale (pre ++ failing :: post) i wpa acc
    = ((evalMetricSpec env replicaCalc wpa scale failing).1, Err e).
Proof.
  induction pre as [|metricSpec rest IH]; intros i acc ps Hps Hsrc He.
  - cbn [app computeReplicasLoop].
    destruct (evalMetricSpec env replicaCalc wpa scale failing) as [w r].
    cbn [fst snd] in *. subst r.
    destruct (ms_External failing), (ms_Resource failing); try reflexivity.
    destruct Hsrc; congruence.
  - cbn [app computeReplicasLoop proposals] in *.
    destruct (ms_External metricSpec), (ms_Resource metricSpec).
    4: { apply (IH _ _ ps); assumption. }
    all: destruct (evalMetricSpec env replicaCalc wpa scale metricSpec)
           as [w [p| |]] eqn:Hev; cbn [snd] in Hps; try discriminate Hps;
         apply evalMetricSpec_Ok in Hev as ->;
         destruct (proposals env replicaCalc wpa scale rest) as [ps'|] eqn:Hrest;
         [|discriminate Hps];
         apply (IH _ _ ps'); [reflexivity|assumption..].
Qed.

(** X16.  [computeReplicasForMetrics] stops at the first metric spec that
    fails: when the specs before it evaluate successfully and it has a
    source, the error returned is the error of that spec, the policy object
    is left as the evaluation of that spec left it (so that [ScalingActive]
    is not set to true), and the result does not depend on the specs that
    follow. *)
Theorem computeReplicasForMetrics_first_error (env : Env)
    (replicaCalc : ReplicaCalculatorItf) (wpa : WatermarkPodAutoscaler) (scale : Scale)
    (pre : list MetricSpec) (failing : MetricSpec) (post : list MetricSpec)
    (ps : list MetricProposal) (e : string) :
  Metrics (Spec wpa) = pre ++ failing :: post ->
  proposals env replicaCalc wpa scale pre = Some ps ->
  (ms_External failing <> None \/ ms_Resource failing <> None) ->
  (evalMetricSpec env replicaCalc wpa scale failing).2 = Err e ->
  computeReplicasForMetrics env replicaCalc wpa scale
  = ((evalMetricSpec env replicaCalc wpa scale failing).1, Err e).
Proof.
  intros Hm Hps Hsrc He. unfold computeReplicasForMetrics. rewrite Hm.
  rewrite (computeReplicasLoop_first_error _ _ _ _ _ _ _ _ _ _ _ Hps Hsrc He).
  reflexivity.
Qed.

Lemma computeReplicasLoop_statuses (env : Env) (replicaCalc : ReplicaCalculatorItf)
    (wpa : WatermarkPodAutoscaler) (scale : Scale) (specs : list MetricSpec) :
  forall (acc : MetricsReplicas) (done : list MetricStatus) (ps : list MetricProposal),
    proposals env replicaCalc wpa scale specs = Some ps ->
    statuses acc = done ++ replicate (length specs) NoMetricStatus ->
    exists r,
      computeReplicasLoop env replicaCalc scale specs (length done) wpa acc = (wpa, Ok r)
      /\ statuses r = done ++ map (statusOf env replicaCalc wpa scale) specs.
Proof.
  induction specs as [|metricSpec rest IH]; intros acc done ps Hps Hst.
  - exists acc. split; [reflexivity|]. rewrite Hst. reflexivity.
  - cbn [computeReplicasLoop proposals map length replicate] in *.
    assert (Hlen : forall st : MetricStatus, S (length done) = length (done ++ [st]))
      by (intros st; rewrite length_app; cbn; lia).
    remember (statusOf env replicaCalc wpa scale metricSpec) as st eqn:Est.
    unfold statusOf in Est.
    assert (Hskip : ms_External metricSpec = None -> ms_Resource metricSpec = None ->
              exists r,
                computeReplicasLoop env replicaCalc scale rest (S (length done)) wpa acc
                = (wpa, Ok r)
                /\ statuses r
                   = done ++ st :: map (statusOf env replicaCalc wpa scale) rest).
    { intros Ex Er. rewrite Ex, Er in Est, Hps. subst st.
      rewrite (Hlen NoMetricStatus).
      destruct (IH acc (done ++ [NoMetricStatus]) ps Hps) as (r & Hr & Hs).
      - rewrite Hst, <- app_assoc. reflexivity.
      - exists r. split; [exact Hr|]. rewrite Hs, <- app_assoc. reflexivity. }
    assert (Heval : (ms_External metricSpec <> None \/ ms_Resource metricSpec <> None) ->
              exists r,
                match evalMetricSpec env replicaCalc wpa scale metricSpec with
                | (wpa1, Panicked) => (wpa1, Panicked)
                | (wpa1, Err e) => (wpa1, Err e)
                | (wpa1, Ok p) =>
                    computeReplicasLoop env replicaCalc scale rest (S (length done)) wpa1
                      (if (replicas acc =? 0) || (replicas acc <? replicaCountProposal p)
                       then {| replicas := replicaCountProposal p;
                               metric := metricNameProposal p;
                               statuses := <[ length done := statusProposal p ]> (statuses acc);
                               metricTimestamp := timestampProposal p |}
                       else {| replicas := replicas acc; metric := metric acc;
                               statuses := <[ length done := statusProposal p ]> (statuses acc);
                               metricTimestamp := metricTimestamp acc |})
                end = (wpa, Ok r)
                /\ statuses r
                   = done ++ st :: map (statusOf env replicaCalc wpa scale) rest).
    { intros Hsrc.
      assert (Est' : st = match (evalMetricSpec env replicaCalc wpa scale metricSpec).2 with
                          | Ok p => statusProposal p
                          | _ => NoMetricStatus
                          end).
      { destruct (ms_External metricSpec), (ms_Resource metricSpec);
          first [exact Est | destruct Hsrc; congruence]. }
      assert (Hps' : match (evalMetricSpec env replicaCalc wpa scale metricSpec).2 with
                     | Ok p => cons p <$> proposals env replicaCalc wpa scale rest
                     | _ => None
                     end = Some ps).
      { destruct (ms_External metricSpec), (ms_Resource metricSpec);
          first [exact Hps | destruct Hsrc; congruence]. }
      clear Est Hps Hskip.
      destruct (evalMetricSpec env replicaCalc wpa scale metricSpec) as [w [p| |]] eqn:Hev;
        cbn [snd] in *; try discriminate Hps'.
      apply evalMetricSpec_Ok in Hev as ->. subst st.
      destruct (proposals env replicaCalc wpa scale rest) as [ps'|] eqn:Hrest;
        [|discriminate Hps'].
      rewrite (Hlen (statusProposal p)).
      match goal with
      | |- context [computeReplicasLoop _ _ _ _ _ _ ?a] =>
          destruct (IH a (done ++ [statusProposal p]) ps' eq_refl) as (r & Hr & Hs)
      end.
      - destruct (_ || _); cbn [statuses]; rewrite Hst;
          rewrite insert_app_r_alt by lia; rewrite Nat.sub_diag, <- app_assoc; reflexivity.
      - exists r. split; [exact Hr|]. rewrite Hs, <- app_assoc. reflexivity. }
    destruct (ms_External metricSpec), (ms_Resource metricSpec);
      first [apply Hskip; reflexivity
            | apply Heval; first [left; discriminate | right; discriminate]].
Qed.

(** X17.  When every metric spec that has a source evaluates successfully,
    [computeReplicasForMetrics] returns one status entry for each metric
    spec, in the order of the specs: the status of the spec's proposal, and
    the zero value for a spec without source; and it leaves [ScalingActive]
    true with reason [ValidMetricFound]. *)
Theorem computeReplicasForMetrics_statuses (env : Env)
    (replicaCalc : ReplicaCalculatorItf) (wpa : WatermarkPodAutoscaler) (scale : Scale)
    (ps : list MetricProposal) :
  proposals env replicaCalc wpa scale (Metrics (Spec wpa)) = Some ps ->
  exists wpa' r,
    computeReplicasForMetrics env replicaCalc wpa scale = (wpa', Ok r)
    /\ statuses r = map (statusOf env replicaCalc wpa scale) (Metrics (Spec wpa))
    /\ condition_is wpa' ScalingActive ConditionTrue "ValidMetricFound".
Proof.
  intros Hps. unfold computeReplicasForMetrics.
  match goal with |- context [computeReplicasLoop ?e ?c ?s ?l 0 ?w ?a] =>
    destruct (computeReplicasLoop_statuses e c w s l a [] ps Hps eq_refl)
      as (r & Hr & Hs) end.
  cbn [length] in Hr. rewrite Hr. eexists _, r. split; [reflexivity|].
  split; [exact Hs|]. apply setCondition_condition_is.
Qed.

(** ** The scale of the target *)

Lemma getScaleLoop_first_working (env : Env) (namespace name : string)
    (pre : list RESTMapping) (working : RESTMapping) (post : list RESTMapping) :
  forall (errs : list string) (scale0 : option Scale) (gr0 : GroupResource),
    (forall mapping, mapping ∈ pre ->
       (Scales_Get env namespace (m_GroupResource mapping) name).2 <> None) ->
    (Scales_Get env namespace (m_GroupResource working) name).2 = None ->
    getScaleLoop env namespace name (pre ++ working :: post) errs scale0 gr0
    = ((Scales_Get env namespace (m_GroupResource working) name).1,
       m_GroupResource working,
       errs ++ map (mappingError env namespace name) pre).
Proof.
  induction pre as [|mapping rest IH]; intros errs scale0 gr0 Hpre Hw.
  - cbn [app getScaleLoop map].
    destruct (Scales_Get env namespace (m_GroupResource working) name) as [s err].
    cbn [fst snd] in *. subst err. rewrite app_nil_r. reflexivity.
  - cbn [app getScaleLoop map].
    pose proof (Hpre mapping ltac:(left)) as Hm.
    unfold mappingError at 1.
    destruct (Scales_Get env namespace (m_GroupResource mapping) name) as [s [err|]];
      cbn [fst snd] in *; [|congruence].
    rewrite IH; [|intros x Hx; apply Hpre; right; exact Hx|exact Hw].
    rewrite <- app_assoc. reflexivity.
Qed.

(** X18.  [getScaleForResourceMappings] returns the scale and the
    group-resource of the first mapping for which the scale client answers
    without error, whatever mappings follow it; the error it returns along
    is the aggregate of the errors of the mappings tried before, nil when it
    is the first. *)
Theorem getScaleForResourceMappings_first_working (env : Env)
    (namespace name : string) (pre : list RESTMapping) (working : RESTMapping)
    (post : list RESTMapping) (scale : Scale) :
  (forall mapping, mapping ∈ pre ->
     (Scales_Get env namespace (m_GroupResource mapping) name).2 <> None) ->
  Scales_Get env namespace (m_GroupResource working) name = (Some scale, None) ->
  getScaleForResourceMappings env namespace name (pre ++ working :: post)
  = (Some scale, m_GroupResource working,
     NewAggregate (map (mappingError env namespace name) pre)).
Proof.
  intros Hpre Hw. unfold getScaleForResourceMappings.
  rewrite (getScaleLoop_first_working _ _ _ _ _ _ _ _ _ Hpre)
    by (rewrite Hw; reflexivity).
  rewrite Hw. reflexivity.
Qed.

(** ** Steps of the driver on the policy object *)

Lemma conditions_step_refl (a : WatermarkPodAutoscaler) : conditions_step a a.
Proof. split; [destruct a as [n ns sp [c d m l cs]]; reflexivity|reflexivity]. Qed.

Lemma conditions_step_trans (a b c : WatermarkPodAutoscaler) :
  conditions_step a b -> conditions_step b c -> conditions_step a c.
Proof.
  intros [Hb Fb] [Hc Fc]. split.
  - rewrite Hc at 1. rewrite Hb. reflexivity.
  - intros t Ht. rewrite (Fc t Ht). apply Fb, Ht.
Qed.

Lemma setCondition_step (env : Env) (wpa : WatermarkPodAutoscaler)
    (conditionType status reason message : string) :
  conditionType ∈ driverConditions ->
  conditions_step wpa (setCondition env wpa conditionType status reason message).
Proof.
  intros Hin. split; [reflexivity|].
  intros t Ht. unfold setCondition. cbn [Status Conditions with_Conditions with_Status].
  apply getCondition_setConditionInList_ne. intros ->. contradiction.
Qed.

Lemma AbleToScale_driver : AbleToScale ∈ driverConditions.
Proof. left. Qed.
Lemma ScalingActive_driver : ScalingActive ∈ driverConditions.
Proof. right. left. Qed.
Lemma ScalingLimited_driver : ScalingLimited ∈ driverConditions.
Proof. right. right. left. Qed.

Create HintDb steps.
#[local] Hint Resolve conditions_step_refl setCondition_step AbleToScale_driver
  ScalingActive_driver ScalingLimited_driver : steps.

Lemma conditions_step_same (a b : WatermarkPodAutoscaler) :
  conditions_step a b -> same_policy a b.
Proof. intros [-> _]. repeat split; reflexivity. Qed.

Lemma conditions_step_fields (a b : WatermarkPodAutoscaler) :
  conditions_step a b ->
  Name b = Name a /\ Namespace b = Namespace a /\ Spec b = Spec a
  /\ CurrentReplicas (Status b) = CurrentReplicas (Status a)
  /\ DesiredReplicas (Status b) = DesiredReplicas (Status a)
  /\ CurrentMetrics (Status b) = CurrentMetrics (Status a)
  /\ LastScaleTime (Status b) = LastScaleTime (Status a).
Proof. intros [-> _]. repeat split; reflexivity. Qed.

Lemma evalMetricSpec_step (env : Env) (replicaCalc : ReplicaCalculatorItf)
    (wpa : WatermarkPodAutoscaler) (scale : Scale) (metricSpec : MetricSpec) :
  conditions_step wpa (evalMetricSpec env replicaCalc wpa scale metricSpec).1.
Proof.
  unfold evalMetricSpec.
  repeat (case_match; cbn [fst]; auto with steps).
Qed.

Lemma computeReplicasLoop_step (env : Env) (replicaCalc : ReplicaCalculatorItf)
    (scale : Scale) (specs : list MetricSpec) :
  forall (i : nat) (wpa : WatermarkPodAutoscaler) (acc : MetricsReplicas),
    conditions_step wpa (computeReplicasLoop env replicaCalc scale specs i wpa acc).1.
Proof.
  induction specs as [|metricSpec rest IH]; intros i wpa acc; cbn [computeReplicasLoop].
  - apply conditions_step_refl.
  - pose proof (evalMetricSpec_step env replicaCalc wpa scale metricSpec) as He.
    destruct (evalMetricSpec env replicaCalc wpa scale metricSpec) as [wpa' [p|e|]];
      cbn [fst] in He;
      destruct (ms_External metricSpec), (ms_Resource metricSpec);
      first [apply IH | exact He | eapply conditions_step_trans; [exact He|apply IH]].
Qed.

Lemma computeReplicasForMetrics_step (env : Env) (replicaCalc : ReplicaCalculatorItf)
    (wpa : WatermarkPodAutoscaler) (scale : Scale) :
  conditions_step wpa (computeReplicasForMetrics env replicaCalc wpa scale).1.
Proof.
  unfold computeReplicasForMetrics.
  match goal with |- context [computeReplicasLoop ?e ?c ?s ?l ?i ?w ?a] =>
    pose proof (computeReplicasLoop_step e c s l i w a) as Hl;
    destruct (computeReplicasLoop e c s l i w a) as [wpa' [r|e'|]] end;
    cbn [fst] in *; try exact Hl.
  eapply conditions_step_trans; [exact Hl|auto with steps].
Qed.

Lemma shouldScale_step (env : Env) (wpa : WatermarkPodAutoscaler)
    (currentReplicas desiredReplicas : Z) (timestamp : Time) :
  conditions_step wpa (shouldScale env wpa currentReplicas desiredReplicas timestamp).1.
Proof.
  unfold shouldScale. destruct (LastScaleTime (Status wpa)); cbn [fst];
    [|apply conditions_step_refl].
  repeat case_match; auto with steps;
    (eapply conditions_step_trans; [|apply setCondition_step]); auto with steps.
Qed.

Section DriverSteps.
Context {arch : Arch}.

Lemma normalizeDesiredReplicas_step (env : Env) (wpa : WatermarkPodAutoscaler)
    (currentReplicas desired : Z) :
  conditions_step wpa (normalizeDesiredReplicas env wpa currentReplicas desired).1.
Proof.
  unfold normalizeDesiredReplicas.
  destruct (convertDesiredReplicasWithRules _ _ _ _ _) as [[d c] r].
  destruct (d =? desired); cbn [fst]; auto with steps.
Qed.

Lemma decide_replicas_Proceed_step (env : Env) (replicaCalc : ReplicaCalculatorItf)
    (wpa : WatermarkPodAutoscaler) (st0 : WatermarkPodAutoscalerStatus)
    (scale : Scale) (wpa' : WatermarkPodAutoscaler) (d : Z) (rescale : bool)
    (ms : list MetricStatus) :
  decide_replicas env replicaCalc wpa st0 scale = Proceed wpa' d rescale ms ->
  conditions_step wpa wpa'.
Proof.
  unfold decide_replicas.
  repeat (case_match; try discriminate);
    try solve [intros [= <- <- <- <-]; auto with steps].
  all: pose proof (computeReplicasForMetrics_step env replicaCalc wpa scale) as Hstep1.
  all: match goal with
       | Hc : computeReplicasForMetrics _ _ _ _ = _ |- _ =>
           rewrite Hc in Hstep1; cbn [fst] in Hstep1
       end.
  all: match goal with
       | Hn : normalizeDesiredReplicas ?e ?w ?n ?p = _ |- _ =>
           pose proof (normalizeDesiredReplicas_step e w n p) as Hstep2;
           rewrite Hn in Hstep2; cbn [fst] in Hstep2
       end.
  all: match goal with
       | Hs : shouldScale ?e ?w ?n ?p ?t = _ |- _ =>
           pose proof (shouldScale_step e w n p t) as Hstep3;
           rewrite Hs in Hstep3; cbn [fst] in Hstep3
       end.
  all: intros [= <- <- <- <-].
  all: eapply conditions_step_trans; [exact Hstep1|].
  all: eapply conditions_step_trans; [exact Hstep2|exact Hstep3].
Qed.

End DriverSteps.

(** ** The reconciliation driver: what is written and what is recorded *)

Lemma updateStatusIfNeeded_sent (env : Env) (st0 : WatermarkPodAutoscalerStatus)
    (wpa w : WatermarkPodAutoscaler) :
  (updateStatusIfNeeded env st0 wpa).1 = Some w -> w = wpa /\ Status wpa <> st0.
Proof.
  unfold updateStatusIfNeeded. destruct (bool_decide (st0 = Status wpa)) eqn:E;
    cbn [fst]; [discriminate|].
  apply bool_decide_eq_false in E. intros [= <-]. split; [reflexivity|congruence].
Qed.

Section DriverOutcome.
Context {arch : Arch}.

(** The update of the scale made by [reconcileScale], from the decision of
    the [switch]. *)
Lemma reconcileScale_write (env : Env) (replicaCalc : ReplicaCalculatorItf)
    (wpa : WatermarkPodAutoscaler) (scale : Scale) (gr : GroupResource)
    (u : ScaleUpdate) :
  out_scaleUpdate (reconcileScale env replicaCalc wpa scale gr) = Some u ->
  let N := scale_StatusReplicas scale in
  let D := scale_SpecReplicas (su_scale u) in
  let o := reconcileScale env replicaCalc wpa scale gr in
  exists wpa' ms,
    decide_replicas env replicaCalc (gotScale env wpa) (Status wpa) scale
    = Proceed wpa' D true ms
    /\ DryRun (Spec wpa) = false
    /\ scale_StatusReplicas (su_scale u) = N
    /\ su_error u = Scales_Update env (Namespace wpa) gr (su_scale u)
    /\ match su_error u with
       | None =>
           Status (out_wpa o)
           = {| CurrentReplicas := N; DesiredReplicas := D; CurrentMetrics := ms;
                LastScaleTime := Some (Now env);
                Conditions := Conditions (Status (out_wpa o)) |}
           /\ condition_is (out_wpa o) AbleToScale ConditionTrue
                ConditionReasonSucceededRescale
       | Some _ =>
           out_return o = Ok tt
           /\ Status (out_wpa o)
              = {| CurrentReplicas := N;
                   DesiredReplicas := DesiredReplicas (Status wpa);
                   CurrentMetrics := CurrentMetrics (Status wpa);
                   LastScaleTime := LastScaleTime (Status wpa);
                   Conditions := Conditions (Status (out_wpa o)) |}
           /\ exists c, getCondition AbleToScale (Conditions (Status (out_wpa o))) = Some c
                        /\ c_Status c = ConditionFalse
       end.
Proof.
  intros Hu N D o. subst o. revert Hu. unfold reconcileScale. fold (gotScale env wpa).
  destruct (decide_replicas env replicaCalc (gotScale env wpa) (Status wpa) scale)
    as [o|wpa' d rescale ms] eqn:Hd.
  { intros Hu. apply decide_replicas_Return in Hd as [Hn _]. congruence. }
  pose proof (decide_replicas_Proceed_step _ _ _ _ _ _ _ _ _ Hd) as Hstep.
  assert (Hstep0 : conditions_step wpa wpa').
  { eapply conditions_step_trans; [|exact Hstep]. apply setCondition_step. left. }
  apply conditions_step_fields in Hstep0 as (_ & Ens & Esp & _ & Ed & Em & El).
  destruct rescale; [|destruct (updateStatusIfNeeded _ _ _); cbn; discriminate].
  cbn [Spec Namespace setCondition with_Conditions with_Status].
  rewrite Esp, Ens.
  destruct (DryRun (Spec wpa)) eqn:Edry;
    [destruct (updateStatusIfNeeded _ _ _); cbn; discriminate|].
  destruct (Scales_Update env (Namespace wpa) gr _) as [err|] eqn:Eupd.
  - destruct (updateStatusIfNeeded _ _ _) as [sent [err2|]];
      cbn [out_scaleUpdate]; intros [= <-]; subst D;
      cbn [su_scale su_error scale_SpecReplicas scale_StatusReplicas out_return out_wpa];
      exists wpa', ms; (split; [reflexivity|]); (split; [reflexivity|]);
      (split; [reflexivity|]); (split; [symmetry; exact Eupd|]);
      (split; [reflexivity|]).
    + split.
      * cbn [Status Conditions setCondition setCurrentReplicasInStatus setStatus
             with_Conditions with_Status CurrentReplicas DesiredReplicas
             CurrentMetrics LastScaleTime].
        rewrite Ed, Em, El. reflexivity.
      * eexists. split; [apply getCondition_setConditionInList|reflexivity].
    + split.
      * cbn [Status Conditions setCondition setCurrentReplicasInStatus setStatus
             with_Conditions with_Status CurrentReplicas DesiredReplicas
             CurrentMetrics LastScaleTime].
        rewrite Ed, Em, El. reflexivity.
      * eexists. split; [apply getCondition_setConditionInList|reflexivity].
  - destruct (updateStatusIfNeeded _ _ _) as [sent err2];
      cbn [out_scaleUpdate]; intros [= <-]; subst D;
      cbn [su_scale su_error scale_SpecReplicas scale_StatusReplicas out_return out_wpa];
      exists wpa', ms; (split; [reflexivity|]); (split; [reflexivity|]);
      (split; [reflexivity|]); (split; [symmetry; exact Eupd|]).
    split; [reflexivity|].
    eexists. split; [apply getCondition_setConditionInList|]. split; reflexivity.
Qed.

(** What [reconcileScale] leaves when the [switch] asks for no rescale. *)
Lemma reconcileScale_no_rescale (env : Env) (replicaCalc : ReplicaCalculatorItf)
    (wpa : WatermarkPodAutoscaler) (scale : Scale) (gr : GroupResource)
    (wpa' : WatermarkPodAutoscaler) (d : Z) (ms : list MetricStatus) :
  decide_replicas env replicaCalc (gotScale env wpa) (Status wpa) scale
  = Proceed wpa' d false ms ->
  let o := reconcileScale env replicaCalc wpa scale gr in
  out_scaleUpdate o = None
  /\ Status (out_wpa o)
     = {| CurrentReplicas := scale_StatusReplicas scale;
          DesiredReplicas := scale_StatusReplicas scale;
          CurrentMetrics := ms;
          LastScaleTime := LastScaleTime (Status wpa);
          Conditions := Conditions (Status wpa') |}.
Proof.
  intros Hd o. subst o. unfold reconcileScale. fold (gotScale env wpa). rewrite Hd.
  pose proof (decide_replicas_Proceed_step _ _ _ _ _ _ _ _ _ Hd) as Hstep.
  apply conditions_step_fields in Hstep as (_ & _ & _ & _ & _ & _ & El).
  cbn [LastScaleTime Status gotScale setCondition with_Conditions with_Status] in El.
  destruct (updateStatusIfNeeded _ _ _) as [sent err].
  cbn [out_scaleUpdate out_wpa Status setStatus with_Status]. rewrite El.
  split; reflexivity.
Qed.

(** What [reconcileScale] writes when the [switch] asks for a rescale. *)
Lemma reconcileScale_rescale (env : Env) (replicaCalc : ReplicaCalculatorItf)
    (wpa : WatermarkPodAutoscaler) (scale : Scale) (gr : GroupResource)
    (wpa' : WatermarkPodAutoscaler) (d : Z) (ms : list MetricStatus) :
  decide_replicas env replicaCalc (gotScale env wpa) (Status wpa) scale
  = Proceed wpa' d true ms ->
  DryRun (Spec wpa) = false ->
  written (reconcileScale env replicaCalc wpa scale gr) = Some d.
Proof.
  intros Hd Hdry. unfold written, reconcileScale. fold (gotScale env wpa). rewrite Hd.
  pose proof (decide_replicas_Proceed_step _ _ _ _ _ _ _ _ _ Hd) as Hstep.
  apply conditions_step_fields in Hstep as (_ & _ & Esp & _).
  cbn [Spec gotScale setCondition with_Conditions with_Status] in Esp.
  cbn [Spec Namespace setCondition with_Conditions with_Status].
  rewrite Esp, Hdry.
  destruct (Scales_Update _ _ _ _) as [err|].
  - destruct (updateStatusIfNeeded _ _ _) as [sent [err2|]]; reflexivity.
  - destruct (updateStatusIfNeeded _ _ _) as [sent err2]; reflexivity.
Qed.

End DriverOutcome.

Section DriverTheorems.
Context {arch : Arch}.

(** X19.  In dry-run mode [reconcileWPA] never updates the scale of the
    target. *)
Theorem reconcileWPA_dry_run (env : Env) (replicaCalc : ReplicaCalculatorItf)
    (wpa : WatermarkPodAutoscaler) :
  DryRun (Spec wpa) = true ->
  out_scaleUpdate (reconcileWPA env replicaCalc wpa) = None.
Proof.
  intros Hdry.
  destruct (out_scaleUpdate (reconcileWPA env replicaCalc wpa)) as [u|] eqn:Hu;
    [|reflexivity].
  apply reconcileWPA_update in Hu as (scale & gr & _ & Hu).
  apply reconcileScale_write in Hu as (_ & _ & _ & Hd & _). congruence.
Qed.

(** X20.  A target whose scale asks for zero replicas is left alone: the
    scale is not updated and no metric is read, the status records the
    observed replicas as both current and desired replicas, keeps the metric
    statuses and the last scale time, and [ScalingActive] is false with
    reason [ScalingDisabled]. *)
Theorem reconcileWPA_scaling_disabled (env : Env) (replicaCalc : ReplicaCalculatorItf)
    (wpa : WatermarkPodAutoscaler) (scale : Scale) (gr : GroupResource) :
  getTargetScale env wpa = Ok (scale, gr) ->
  scale_SpecReplicas scale = 0 ->
  let o := reconcileWPA env replicaCalc wpa in
  let st := Status (out_wpa o) in
  out_scaleUpdate o = None
  /\ CurrentReplicas st = scale_StatusReplicas scale
  /\ DesiredReplicas st = scale_StatusReplicas scale
  /\ CurrentMetrics st = CurrentMetrics (Status wpa)
  /\ LastScaleTime st = LastScaleTime (Status wpa)
  /\ condition_is (out_wpa o) ScalingActive ConditionFalse "ScalingDisabled".
Proof.
  intros Hget H0 o st. subst st o. unfold reconcileWPA. rewrite Hget.
  assert (Hd : decide_replicas env replicaCalc (gotScale env wpa) (Status wpa) scale
               = Proceed
                   (setCondition env (gotScale env wpa) ScalingActive ConditionFalse
                      "ScalingDisabled"
                      "scaling is disabled since the replica count of the target is zero")
                   0 false (CurrentMetrics (Status wpa))).
  { unfold decide_replicas. rewrite H0. reflexivity. }
  destruct (reconcileScale_no_rescale _ _ _ _ gr _ _ _ Hd) as [Hn Hs].
  split; [exact Hn|]. rewrite Hs. cbn [CurrentReplicas DesiredReplicas CurrentMetrics
    LastScaleTime]. repeat split.
  unfold condition_is. rewrite Hs. cbn [Conditions]. apply setCondition_condition_is.
Qed.

(** X21.  The replica bounds come first: with dry-run off and a scale that
    asks for replicas, a target observed above [MaxReplicas] is written
    [MaxReplicas], one observed below [MinReplicas] is written
    [MinReplicas], and one observed with zero replicas is written 1,
    whatever the metrics, the rate limits and the last scale time are. *)
Theorem reconcileWPA_bounds_first (env : Env) (replicaCalc : ReplicaCalculatorItf)
    (wpa : WatermarkPodAutoscaler) (scale : Scale) (gr : GroupResource) :
  getTargetScale env wpa = Ok (scale, gr) ->
  scale_SpecReplicas scale <> 0 ->
  DryRun (Spec wpa) = false ->
  let N := scale_StatusReplicas scale in
  let M := MaxReplicas (Spec wpa) in
  let o := reconcileWPA env replicaCalc wpa in
  (M < N -> written o = Some M)
  /\ (forall m, N <= M -> MinReplicas (Spec wpa) = Some m -> N < m -> written o = Some m)
  /\ (N <= M -> (forall m, MinReplicas (Spec wpa) = Some m -> m <= N) -> N = 0 ->
      written o = Some 1).
Proof.
  intros Hget H0 Hdry N M o. subst o. unfold reconcileWPA. rewrite Hget.
  apply Z.eqb_neq in H0.
  split; [|split].
  - intros HM. apply Z.ltb_lt in HM.
    eapply reconcileScale_rescale; [|exact Hdry].
    unfold decide_replicas. rewrite H0. cbn [Spec gotScale setCondition with_Conditions
      with_Status]. fold N M. rewrite HM. reflexivity.
  - intros m HM Hm Hlt. apply Z.ltb_ge in HM. apply Z.ltb_lt in Hlt.
    eapply reconcileScale_rescale; [|exact Hdry].
    unfold decide_replicas. rewrite H0. cbn [Spec gotScale setCondition with_Conditions
      with_Status]. fold N M. rewrite HM, Hm, Hlt. reflexivity.
  - intros HM Hmin HN. apply Z.ltb_ge in HM.
    eapply reconcileScale_rescale; [|exact Hdry].
    unfold decide_replicas. rewrite H0. cbn [Spec gotScale setCondition with_Conditions
      with_Status]. fold N M. rewrite HM.
    destruct (MinReplicas (Spec wpa)) as [m|].
    + specialize (Hmin m eq_refl). apply Z.ltb_ge in Hmin. rewrite Hmin.
      subst N. rewrite HN. reflexivity.
    + subst N. rewrite HN. reflexivity.
Qed.

(** X22.  After a successful update of the scale, the status records the
    observed replicas as current replicas, the value written as desired
    replicas and the time of the reconciliation as last scale time, and
    [AbleToScale] is true with reason [SucceededRescale]. *)
Theorem reconcileWPA_successful_write (env : Env) (replicaCalc : ReplicaCalculatorItf)
    (wpa : WatermarkPodAutoscaler) (u : ScaleUpdate) :
  let o := reconcileWPA env replicaCalc wpa in
  out_scaleUpdate o = Some u ->
  su_error u = None ->
  CurrentReplicas (Status (out_wpa o)) = scale_StatusReplicas (su_scale u)
  /\ DesiredReplicas (Status (out_wpa o)) = scale_SpecReplicas (su_scale u)
  /\ LastScaleTime (Status (out_wpa o)) = Some (Now env)
  /\ condition_is (out_wpa o) AbleToScale ConditionTrue ConditionReasonSucceededRescale.
Proof.
  intros o Hu He. subst o.
  pose proof (reconcileWPA_update _ _ _ _ Hu) as (scale & gr & Hget & Hu').
  unfold reconcileWPA in *. rewrite Hget in *.
  destruct (reconcileScale_write _ _ _ _ _ _ Hu') as (wpa' & ms & _ & _ & EN & _ & Hres).
  rewrite He in Hres. destruct Hres as [Hs Hc].
  rewrite Hs. cbn [CurrentReplicas DesiredReplicas LastScaleTime].
  repeat split; [symmetry; exact EN|exact Hc].
Qed.

(** X23.  A failed update of the scale is not returned as an error:
    [reconcileWPA] returns nil, the status records the observed replicas as
    current replicas and keeps the desired replicas, the metric statuses and
    the last scale time it had, and [AbleToScale] is false. *)
Theorem reconcileWPA_failed_write (env : Env) (replicaCalc : ReplicaCalculatorItf)
    (wpa : WatermarkPodAutoscaler) (u : ScaleUpdate) (e : string) :
  let o := reconcileWPA env replicaCalc wpa in
  out_scaleUpdate o = Some u ->
  su_error u = Some e ->
  out_return o = Ok tt
  /\ CurrentReplicas (Status (out_wpa o)) = scale_StatusReplicas (su_scale u)
  /\ DesiredReplicas (Status (out_wpa o)) = DesiredReplicas (Status wpa)
  /\ CurrentMetrics (Status (out_wpa o)) = CurrentMetrics (Status wpa)
  /\ LastScaleTime (Status (out_wpa o)) = LastScaleTime (Status wpa)
  /\ exists c, getCondition AbleToScale (Conditions (Status (out_wpa o))) = Some c
               /\ c_Status c = ConditionFalse.
Proof.
  intros o Hu He. subst o.
  pose proof (reconcileWPA_update _ _ _ _ Hu) as (scale & gr & Hget & Hu').
  unfold reconcileWPA in *. rewrite Hget in *.
  destruct (reconcileScale_write _ _ _ _ _ _ Hu') as (wpa' & ms & _ & _ & EN & _ & Hres).
  rewrite He in Hres. destruct Hres as (Hr & Hs & Hc).
  split; [exact Hr|]. rewrite Hs.
  cbn [CurrentReplicas DesiredReplicas CurrentMetrics LastScaleTime].
  repeat split; [symmetry; exact EN|]. rewrite <- Hs. exact Hc.
Qed.

End DriverTheorems.

(** ** The reconciliation driver: the object and its status *)

Lemma reconciled_from_refl (a : WatermarkPodAutoscaler) : reconciled_from a a.
Proof. repeat split; reflexivity. Qed.

Lemma conditions_step_reconciled (a b c : WatermarkPodAutoscaler) :
  reconciled_from a b -> conditions_step b c -> reconciled_from a c.
Proof.
  intros (En & Ens & Esp & F) [-> Fc]. repeat split; try assumption.
  intros t Ht. rewrite (Fc t Ht). apply F, Ht.
Qed.

Lemma setCondition_reconciled (env : Env) (a b : WatermarkPodAutoscaler)
    (conditionType status reason message : string) :
  reconciled_from a b -> conditionType ∈ driverConditions ->
  reconciled_from a (setCondition env b conditionType status reason message).
Proof.
  intros H Hin. eapply conditions_step_reconciled; [exact H|].
  apply setCondition_step, Hin.
Qed.

Lemma setStatus_reconciled (env : Env) (a b : WatermarkPodAutoscaler)
    (currentReplicas desiredReplicas : Z) (ms : list MetricStatus) (rescale : bool) :
  reconciled_from a b ->
  reconciled_from a (setStatus env b currentReplicas desiredReplicas ms rescale).
Proof. intros (En & Ens & Esp & F). repeat split; assumption. Qed.

Lemma setCurrentReplicasInStatus_reconciled (env : Env) (a b : WatermarkPodAutoscaler)
    (currentReplicas : Z) :
  reconciled_from a b ->
  reconciled_from a (setCurrentReplicasInStatus env b currentReplicas).
Proof. apply setStatus_reconciled. Qed.

#[local] Hint Resolve reconciled_from_refl setCondition_reconciled setStatus_reconciled
  setCurrentReplicasInStatus_reconciled : steps.

Section DriverObject.
Context {arch : Arch}.

(** The object left by a run of [reconcileWPA], and the object sent to the
    status client. *)
Lemma reconcileWPA_reconciled (env : Env) (replicaCalc : ReplicaCalculatorItf)
    (wpa : WatermarkPodAutoscaler) :
  let o := reconcileWPA env replicaCalc wpa in
  reconciled_from wpa (out_wpa o)
  /\ forall w, out_statusUpdate o = Some w ->
       reconciled_from wpa w /\ Status w <> Status wpa.
Proof.
  intros o. subst o. unfold reconcileWPA.
  destruct (getTargetScale env wpa) as [[scale gr]|e|];
    [|split; [apply reconciled_from_refl|discriminate]..].
  unfold reconcileScale. fold (gotScale env wpa).
  assert (Hrf0 : reconciled_from wpa (gotScale env wpa))
    by (apply setCondition_reconciled; auto with steps).
  destruct (decide_replicas env replicaCalc (gotScale env wpa) (Status wpa) scale)
    as [o|wpa' d rescale ms] eqn:Hd.
  - revert Hd. unfold decide_replicas. repeat (case_match; try discriminate).
    all: match goal with
         | Hc : computeReplicasForMetrics ?e ?c ?w ?s = (?w1, _) |- _ =>
             pose proof (computeReplicasForMetrics_step e c w s) as Hstep;
             rewrite Hc in Hstep; cbn [fst] in Hstep;
             pose proof (conditions_step_reconciled _ _ _ Hrf0 Hstep) as Hrf1
         end.
    all: intros [= <-]; cbn [out_wpa out_statusUpdate returned].
    all: repeat match goal with
         | Hu : updateStatusIfNeeded ?e ?s ?x = (?sent, _) |- _ =>
             let Hsent := fresh "Hsent" in
             pose proof (updateStatusIfNeeded_sent e s x) as Hsent;
             rewrite Hu in Hsent; cbn [fst] in Hsent; clear Hu
         end.
    all: split; [auto 6 with steps|].
    all: intros sentObject Hw; try discriminate Hw.
    all: match goal with
         | Hsent : forall w, ?s = Some w -> _ |- _ =>
             destruct (Hsent sentObject Hw) as [-> Hne]
         end.
    all: split; [auto 6 with steps|exact Hne].
  - pose proof (decide_replicas_Proceed_step _ _ _ _ _ _ _ _ _ Hd) as Hstep.
    pose proof (conditions_step_reconciled _ _ _ Hrf0 Hstep) as Hrf1.
    repeat match goal with
           | |- context [updateStatusIfNeeded ?e ?s ?w] =>
               let Hsent := fresh "Hsent" in
               let sent := fresh "sent" in
               let err := fresh "err" in
               pose proof (updateStatusIfNeeded_sent e s w) as Hsent;
               destruct (updateStatusIfNeeded e s w) as [sent err];
               cbn [fst] in Hsent
           | |- context [if ?b then _ else _] => destruct b
           | |- context [match ?x with Some _ => _ | None => _ end] => destruct x
           end; cbn [out_wpa out_statusUpdate].
    all: split; [auto 8 with steps|].
    all: intros sentObject Hw.
    all: match goal with
         | Hsent : forall w, ?s = Some w -> _ |- _ =>
             destruct (Hsent sentObject Hw) as [-> Hne]
         end.
    all: split; [auto 8 with steps|exact Hne].
Qed.

(** X24.  What [reconcileWPA] sends to the status client is the policy
    object with a status that differs from the one it had: an unchanged
    status is not sent, and the name, the namespace and the spec are never
    altered. *)
Theorem reconcileWPA_status_update (env : Env) (replicaCalc : ReplicaCalculatorItf)
    (wpa w : WatermarkPodAutoscaler) :
  out_statusUpdate (reconcileWPA env replicaCalc wpa) = Some w ->
  Status w <> Status wpa
  /\ Name w = Name wpa /\ Namespace w = Namespace wpa /\ Spec w = Spec wpa.
Proof.
  intros Hw.
  destruct (reconcileWPA_reconciled env replicaCalc wpa) as [_ H].
  destruct (H w Hw) as [(En & Ens & Esp & _) Hne]. repeat split; assumption.
Qed.

(** X25.  [reconcileWPA] sets conditions of the types [AbleToScale],
    [ScalingActive] and [ScalingLimited] only: the condition found for any
    other type in the object it leaves is the one found before. *)
Theorem reconcileWPA_conditions_frame (env : Env) (replicaCalc : ReplicaCalculatorItf)
    (wpa : WatermarkPodAutoscaler) (conditionType : string) :
  conditionType <> AbleToScale -> conditionType <> ScalingActive ->
  conditionType <> ScalingLimited ->
  getCondition conditionType
    (Conditions (Status (out_wpa (reconcileWPA env replicaCalc wpa))))
  = getCondition conditionType (Conditions (Status wpa)).
Proof.
  intros H1 H2 H3.
  destruct (reconcileWPA_reconciled env replicaCalc wpa) as [(_ & _ & _ & F) _].
  apply F. unfold driverConditions. intros Hin.
  repeat (apply elem_of_cons in Hin as [Hin|Hin]; [congruence|]).
  inversion Hin.
Qed.

End DriverObject.

(** ** The reconciliation driver: cooldown and failures of the metrics *)

Section DriverGate.
Context {arch : Arch}.

(** X26.  The cooldown is respected by every write that follows an
    evaluation of the metrics.  For a policy that has a last scale time [T0]
    and a target observed with [N] replicas, none of them zero and [N]
    within the replica bounds: a reconciliation that updates the scale has
    evaluated the metrics successfully, writes a value other than [N],
    writes more than [N] only if the timestamp of the decision is not before
    [T0] plus the upscale window, and writes less than [N] only if it is not
    before [T0] plus the downscale window. *)
Theorem reconcileWPA_respects_cooldown (env : Env) (replicaCalc : ReplicaCalculatorItf)
    (wpa : WatermarkPodAutoscaler) (scale : Scale) (gr : GroupResource)
    (u : ScaleUpdate) (T0 : Time) :
  getTargetScale env wpa = Ok (scale, gr) ->
  out_scaleUpdate (reconcileWPA env replicaCalc wpa) = Some u ->
  LastScaleTime (Status wpa) = Some T0 ->
  let N := scale_StatusReplicas scale in
  let D := scale_SpecReplicas (su_scale u) in
  N <= MaxReplicas (Spec wpa) ->
  (forall m, MinReplicas (Spec wpa) = Some m -> m <= N) ->
  N <> 0 ->
  exists wpa1 r,
    computeReplicasForMetrics env replicaCalc (gotScale env wpa) scale = (wpa1, Ok r)
    /\ D <> N
    /\ (N < D ->
        T0 + seconds (UpscaleForbiddenWindowSeconds (Spec wpa)) <= gate_timestamp env r)
    /\ (D < N ->
        T0 + seconds (DownscaleForbiddenWindowSeconds (Spec wpa)) <= gate_timestamp env r).
Proof.
  intros Hget Hu HT N D HM Hmin HN. unfold reconcileWPA in Hu. rewrite Hget in Hu.
  destruct (reconcileScale_write _ _ _ _ _ _ Hu) as (wpa' & ms & Hd & _).
  fold D in Hd.
  destruct (decide_replicas_cases _ _ _ _ _ _ _ _ _ Hd) as [_ Hcases].
  cbn [Spec gotScale setCondition with_Conditions with_Status] in Hcases.
  fold N in Hcases.
  destruct Hcases as [(_ & Hf)|[(Hlt & _)|[(_ & (m & Hm & Hlt & _) & _)|
                     [(_ & _ & H0 & _)|(_ & _ & _ & _ & wpa1 & r & Hc & _ & Hg)]]]].
  - discriminate Hf.
  - lia.
  - specialize (Hmin m Hm). lia.
  - contradiction.
  - exists wpa1, r. split; [exact Hc|].
    unfold gate in Hg.
    cbn [Status Spec LastScaleTime gotScale setCondition with_Conditions with_Status] in Hg.
    rewrite HT in Hg. unfold canScale, Time_Add in Hg. rewrite !Time_Sub_pos in Hg.
    symmetry in Hg.
    destruct (D =? N) eqn:E; [discriminate Hg|]. apply Z.eqb_neq in E.
    split; [exact E|].
    apply orb_true_iff in Hg. split.
    + intros Hlt. destruct Hg as [Hg|Hg]; apply andb_true_iff in Hg as [Hb Hc'].
      * apply negb_true_iff, Z.ltb_ge in Hb. exact Hb.
      * apply Z.ltb_lt in Hc'. lia.
    + intros Hlt. destruct Hg as [Hg|Hg]; apply andb_true_iff in Hg as [Hb Hc'].
      * apply Z.ltb_lt in Hc'. lia.
      * apply negb_true_iff, Z.ltb_ge in Hb. exact Hb.
Qed.

(** X27.  A failure to evaluate the metrics is not returned as an error.
    For a target observed with [N] replicas, none of them zero, [N] within
    the replica bounds and a scale that asks for replicas: when
    [computeReplicasForMetrics] fails, [reconcileWPA] returns nil without
    updating the scale, and the status records [N] as current replicas and
    keeps the desired replicas, the metric statuses and the last scale time
    it had. *)
Theorem reconcileWPA_metrics_failure (env : Env) (replicaCalc : ReplicaCalculatorItf)
    (wpa : WatermarkPodAutoscaler) (scale : Scale) (gr : GroupResource)
    (wpa1 : WatermarkPodAutoscaler) (e : string) :
  getTargetScale env wpa = Ok (scale, gr) ->
  scale_SpecReplicas scale <> 0 ->
  let N := scale_StatusReplicas scale in
  N <= MaxReplicas (Spec wpa) ->
  (forall m, MinReplicas (Spec wpa) = Some m -> m <= N) ->
  N <> 0 ->
  computeReplicasForMetrics env replicaCalc (gotScale env wpa) scale = (wpa1, Err e) ->
  let o := reconcileWPA env replicaCalc wpa in
  out_return o = Ok tt
  /\ out_scaleUpdate o = None
  /\ CurrentReplicas (Status (out_wpa o)) = N
  /\ DesiredReplicas (Status (out_wpa o)) = DesiredReplicas (Status wpa)
  /\ CurrentMetrics (Status (out_wpa o)) = CurrentMetrics (Status wpa)
  /\ LastScaleTime (Status (out_wpa o)) = LastScaleTime (Status wpa).
Proof.
  intros Hget H0 N HM Hmin HN Hc o. subst o.
  unfold reconcileWPA. rewrite Hget. unfold reconcileScale. fold (gotScale env wpa).
  pose proof (computeReplicasForMetrics_step env replicaCalc (gotScale env wpa) scale)
    as Hstep.
  rewrite Hc in Hstep. cbn [fst] in Hstep.
  assert (Hstep0 : conditions_step wpa wpa1).
  { eapply conditions_step_trans; [|exact Hstep]. apply setCondition_step. left. }
  apply conditions_step_fields in Hstep0 as (_ & _ & _ & _ & Ed & Em & El).
  unfold decide_replicas.
  apply Z.eqb_neq in H0, HN. apply Z.ltb_ge in HM. fold N.
  cbn [Spec gotScale setCondition with_Conditions with_Status] in *.
  rewrite H0, HM, HN.
  replace (match MinReplicas (Spec wpa) with
           | Some minReplicas => N <? minReplicas
           | None => false
           end) with false.
  2: { destruct (MinReplicas (Spec wpa)) as [m|]; [|reflexivity].
       symmetry. apply Z.ltb_ge, Hmin. reflexivity. }
  fold (gotScale env wpa). rewrite Hc.
  destruct (updateStatusIfNeeded _ _ _) as [sent [err2|]];
    cbn [out_return out_scaleUpdate out_wpa Status setCondition
         setCurrentReplicasInStatus setStatus with_Conditions with_Status
         CurrentReplicas DesiredReplicas CurrentMetrics LastScaleTime];
    repeat split; assumption.
Qed.

End DriverGate.

(** ** Errors of [reconcileWPA] and the entry point *)

Lemma updateStatusIfNeeded_error (env : Env) (st0 : WatermarkPodAutoscalerStatus)
    (wpa : WatermarkPodAutoscaler) (sent : option WatermarkPodAutoscaler) (e : string) :
  updateStatusIfNeeded env st0 wpa = (sent, Some e) ->
  sent = Some wpa /\ Status_Update env wpa = Some e.
Proof.
  unfold updateStatusIfNeeded. destruct (bool_decide (st0 = Status wpa));
    [discriminate|]. intros [= <- ->]. split; reflexivity.
Qed.

Section EntryPointProperties.
Context {arch : Arch}.

(** X28.  [reconcileWPA] returns an error in two cases only: the scale of
    the target could not be fetched, and then nothing was updated and the
    object is as it was; or the status client refused the status, and then
    the error is its error and the object refused is the object left in
    memory.  Failures of the metrics and of the update of the scale are not
    returned. *)
Theorem reconcileWPA_errors (env : Env) (replicaCalc : ReplicaCalculatorItf)
    (wpa : WatermarkPodAutoscaler) (e : string) :
  let o := reconcileWPA env replicaCalc wpa in
  out_return o = Err e ->
  (getTargetScale env wpa = Err e
   /\ out_scaleUpdate o = None /\ out_statusUpdate o = None /\ out_wpa o = wpa)
  \/ (out_statusUpdate o = Some (out_wpa o) /\ Status_Update env (out_wpa o) = Some e).
Proof.
  intros o. subst o. unfold reconcileWPA.
  destruct (getTargetScale env wpa) as [[scale gr]|e'|];
    [|cbn; intros [= ->]; left; repeat split; reflexivity|discriminate].
  unfold reconcileScale. fold (gotScale env wpa).
  destruct (decide_replicas env replicaCalc (gotScale env wpa) (Status wpa) scale)
    as [o|wpa' d rescale ms] eqn:Hd.
  - revert Hd. unfold decide_replicas. repeat (case_match; try discriminate).
    all: intros [= <-]; cbn [out_return returned]; discriminate.
  - repeat match goal with
           | |- context [if ?b then _ else _] => destruct b
           | |- context [match ?x with Some _ => _ | None => _ end] => destruct x
           end.
    all: match goal with
         | |- context [updateStatusIfNeeded ?e ?s ?w] =>
             destruct (updateStatusIfNeeded e s w) as [sent [err|]] eqn:Hupd
         end; cbn [out_return out_statusUpdate out_wpa error_result];
         try discriminate.
    all: intros [= ->]; right.
    all: apply updateStatusIfNeeded_error in Hupd as [-> Herr].
    all: split; [reflexivity|exact Herr].
Qed.

(** The entry point, when it comes to run [reconcileWPA]. *)
Lemma Reconcile_run_cases (env : Env) (r : Reconciler) (namespace name : string)
    (o : Outcome) :
  rec_reconcileWPA (Reconcile env r namespace name) = Some o ->
  exists instance0 instance,
    client_Get r namespace name = Found instance0
    /\ handleFinalizer r instance0 = (instance, false, None)
    /\ IsDefaultWatermarkPodAutoscaler r instance = true
    /\ CheckWPAValidity r instance = None
    /\ let checked :=
         if DryRun (Spec instance)
         then setCondition env instance dryRunCondition ConditionTrue
                "DryRun mode enabled" "Scaling changes won't be applied"
         else setCondition env instance dryRunCondition ConditionFalse
                "DryRun mode disabled" "Scaling changes can be applied" in
       let o' := reconcileWPA env (replicaCalc r) checked in
       out_scaleUpdate o = out_scaleUpdate o'
       /\ out_statusUpdate o = out_statusUpdate o'
       /\ out_return o = out_return o'
       /\ conditions_step (out_wpa o') (out_wpa o)
       /\ rec_error (Reconcile env r namespace name) = None
       /\ rec_update (Reconcile env r namespace name) = None
       /\ rec_result (Reconcile env r namespace name)
          = {| Requeue := false;
               RequeueAfter := match out_return o' with
                               | Err _ => Second
                               | _ => syncPeriod r
                               end |}.
Proof.
  unfold Reconcile.
  destruct (client_Get r namespace name) as [instance0| |err] eqn:Hget;
    try discriminate.
  destruct (handleFinalizer r instance0) as [[instance needToReturn] err] eqn:Hf.
  destruct err as [err|]; [discriminate|].
  destruct needToReturn; [discriminate|]. cbn [orb bool_decide].
  rewrite bool_decide_eq_false_2 by (intros H; apply H; reflexivity). cbn [orb].
  destruct (IsDefaultWatermarkPodAutoscaler r instance) eqn:Hdef; cbn [negb];
    [|destruct (client_Update r _); discriminate].
  destruct (CheckWPAValidity r instance) as [err|] eqn:Hval;
    [destruct (updateStatusIfNeeded _ _ _); discriminate|].
  cbn zeta.
  destruct (out_return (reconcileWPA env (replicaCalc r) _)) eqn:Hret;
    cbn [rec_reconcileWPA rec_error rec_update rec_result]; intros [= <-];
    exists instance0, instance;
    (split; [reflexivity|]); (split; [exact Hf|]); (split; [exact Hdef|]);
    (split; [exact Hval|]);
    cbn [out_scaleUpdate out_statusUpdate out_return out_wpa];
    (split; [reflexivity|]); (split; [reflexivity|]);
    (split; [first [reflexivity | symmetry; exact Hret]|]);
    (split; [first [apply conditions_step_refl | apply setCondition_step; left]|]);
    (split; [reflexivity|]); (split; [reflexivity|]); rewrite ?Hret; reflexivity.
Qed.

Lemma dryRunCondition_frame : dryRunCondition ∉ driverConditions.
Proof.
  unfold driverConditions. intros Hin.
  repeat (apply elem_of_cons in Hin as [Hin|Hin]; [discriminate Hin|]).
  inversion Hin.
Qed.

(** X29.  When [Reconcile] comes to run [reconcileWPA], the policy was
    fetched, [handleFinalizer] asked for no return, the policy has its
    defaults and is valid.  [Reconcile] then returns no error, whatever
    [reconcileWPA] returns; it asks for a requeue after one second when
    [reconcileWPA] returned an error and after the sync period otherwise, a
    recovered panic included.  The scale is updated only with [DryRun] off,
    and the object left in memory carries the condition [DryRun], true
    exactly when [DryRun] is set. *)
Theorem Reconcile_runs_reconcileWPA (env : Env) (r : Reconciler)
    (namespace name : string) (o : Outcome) :
  let run := Reconcile env r namespace name in
  rec_reconcileWPA run = Some o ->
  rec_error run = None
  /\ rec_result run
     = {| Requeue := false;
          RequeueAfter := match out_return o with
                          | Err _ => Second
                          | _ => syncPeriod r
                          end |}
  /\ exists instance0 instance,
       client_Get r namespace name = Found instance0
       /\ handleFinalizer r instance0 = (instance, false, None)
       /\ IsDefaultWatermarkPodAutoscaler r instance = true
       /\ CheckWPAValidity r instance = None
       /\ Spec (out_wpa o) = Spec instance
       /\ (out_scaleUpdate o <> None -> DryRun (Spec instance) = false)
       /\ exists c,
            getCondition dryRunCondition (Conditions (Status (out_wpa o))) = Some c
            /\ c_Status c = if DryRun (Spec instance) then ConditionTrue else ConditionFalse.
Proof.
  intros run Hrun. subst run.
  destruct (Reconcile_run_cases _ _ _ _ _ Hrun)
    as (instance0 & instance & Hget & Hfin & Hdef & Hval & Hsu & _ & Hret & Hstep
        & Herr & _ & Hres).
  split; [exact Herr|]. split; [rewrite Hres, Hret; reflexivity|].
  exists instance0, instance. repeat (split; [assumption|]).
  set (checked := if DryRun (Spec instance) then _ else _) in *.
  assert (Hspec : Spec checked = Spec instance)
    by (subst checked; destruct (DryRun (Spec instance)); reflexivity).
  destruct (reconcileWPA_reconciled env (replicaCalc r) checked)
    as [(_ & _ & Esp & F) _].
  destruct Hstep as [Eo Fo].
  split; [rewrite Eo; cbn [Spec with_Conditions with_Status]; congruence|].
  split.
  - intros Hne. rewrite Hsu in Hne.
    destruct (out_scaleUpdate (reconcileWPA env (replicaCalc r) checked)) as [u|] eqn:Hu;
      [|contradiction].
    apply reconcileWPA_update in Hu as (scale & gr & _ & Hu).
    apply reconcileScale_write in Hu as (_ & _ & _ & Hd & _). congruence.
  - rewrite (Fo _ dryRunCondition_frame), (F _ dryRunCondition_frame).
    subst checked. destruct (DryRun (Spec instance)); unfold setCondition;
      cbn [Status Conditions with_Conditions with_Status];
      rewrite getCondition_setConditionInList; eexists; split; reflexivity.
Qed.

(** X30.  An invalid policy is marked and left alone: for a fetched policy
    that has its defaults and fails [CheckWPAValidity], [Reconcile] does not
    run [reconcileWPA], updates neither the object nor the scale, and asks
    for no requeue.  It sends the status with [AbleToScale] false and reason
    [FailedSpecCheck] to the status client and returns the error of that
    call, unless the status already says so, in which case it sends
    nothing. *)
Theorem Reconcile_invalid_policy (env : Env) (r : Reconciler)
    (namespace name : string) (instance0 instance : WatermarkPodAutoscaler)
    (err : string) :
  client_Get r namespace name = Found instance0 ->
  handleFinalizer r instance0 = (instance, false, None) ->
  IsDefaultWatermarkPodAutoscaler r instance = true ->
  CheckWPAValidity r instance = Some err ->
  let run := Reconcile env r namespace name in
  rec_reconcileWPA run = None
  /\ rec_update run = None
  /\ rec_result run = {| Requeue := false; RequeueAfter := 0 |}
  /\ match rec_statusUpdate run with
     | Some w =>
         condition_is w AbleToScale ConditionFalse "FailedSpecCheck"
         /\ Status w <> Status instance
         /\ Spec w = Spec instance
         /\ rec_error run = Status_Update env w
     | None =>
         condition_is instance AbleToScale ConditionFalse "FailedSpecCheck"
         /\ rec_error run = None
     end.
Proof.
  intros Hget Hfin Hdef Hval run. subst run. unfold Reconcile.
  rewrite Hget, Hfin. cbn [orb].
  rewrite bool_decide_eq_false_2 by (intros H; apply H; reflexivity). cbn [orb].
  rewrite Hdef, Hval. cbn [negb].
  pose proof (setCondition_condition_is env instance AbleToScale ConditionFalse
                "FailedSpecCheck" ("Invalid WPA specification: " +:+ err)) as Hc.
  unfold updateStatusIfNeeded.
  destruct (bool_decide (Status instance = Status (setCondition env instance _ _ _ _)))
    eqn:E; cbn [rec_reconcileWPA rec_update rec_result rec_statusUpdate rec_error].
  - apply bool_decide_eq_true in E. repeat split.
    unfold condition_is in *. rewrite E. exact Hc.
  - apply bool_decide_eq_false in E. repeat split; [exact Hc|congruence].
Qed.

End EntryPointProperties.

(** ** The further properties at the sample inputs *)

Lemma shouldScale_conditions_witness :
  condition_is
    (shouldScale (upscale_env None) (upscale_wpa false (Some (950 * Second))) 10 15
       (990 * Second)).1
    AbleToScale ConditionFalse "BackoffBoth".
Proof.
  exact (shouldScale_conditions (upscale_env None)
           (upscale_wpa false (Some (950 * Second))) 10 15 (990 * Second)
           (950 * Second) eq_refl).
Defined.

Lemma convertDesiredReplicasWithRules_idempotent_witness :
  let normalized x :=
    (convertDesiredReplicasWithRules (arch:=amd64) (upscale_wpa false None) 10 x 1 20).1.1 in
  normalized 100 = 15 /\ normalized (normalized 100) = normalized 100.
Proof.
  split; [reflexivity|].
  apply (convertDesiredReplicasWithRules_idempotent (arch:=amd64)
           (upscale_wpa false None) 10 100); by_evaluation.
Defined.

Lemma convertDesiredReplicasWithRules_monotone_witness :
  (convertDesiredReplicasWithRules (arch:=amd64) (upscale_wpa false None) 10 3 1 20).1.1
  <= (convertDesiredReplicasWithRules (arch:=amd64) (upscale_wpa false None) 10 12 1 20).1.1.
Proof.
  apply (convertDesiredReplicasWithRules_monotone (arch:=amd64)
           (upscale_wpa false None) 10 3 12); by_evaluation.
Defined.


Lemma getReadyPodsCount_count_witness :
  getReadyPodsCount (upscale_env None) NamespaceAll None 0 = Ok 10
  /\ 10 = Z.of_nat (length (toleratedPods 0 (ready_pods 10)))
  /\ 1 <= 10 <= Z.of_nat (length (ready_pods 10)).
Proof.
  split; [reflexivity|].
  exact (getReadyPodsCount_count (upscale_env None) NamespaceAll None 0 (ready_pods 10)
           eq_refl ltac:(discriminate)).
Defined.

Lemma groupPods_disjoint_witness :
  (groupPods (ready_pods 2) dead_band_samples "cpu" 0).1
  ## (groupPods (ready_pods 2) dead_band_samples "cpu" 0).2.
Proof.
  apply (groupPods_disjoint (ready_pods 2) dead_band_samples "cpu" 0).
  apply (bool_decide_unpack (NoDup (pod_Name <$> ready_pods 2))). vm_compute. reflexivity.
Defined.

Lemma GetResourceReplicas_no_ready_pod_witness :
  GetResourceReplicas (arch:=amd64) failed_env (sample_scale 3 3) dead_band_metric
    (stale_wpa "average")
  = Err "did not receive metrics for any ready pods".
Proof.
  eapply (GetResourceReplicas_no_ready_pod (arch:=amd64) failed_env (sample_scale 3 3)
            dead_band_metric (stale_wpa "average") _ _ _ (one_sample "a" 100) _
            [failed_pod "a"]); reflexivity.
Defined.

Lemma resourceUsage_of_ready_pods_witness :
  exists ready remaining usage ts,
    resourceUsage dead_band_env (sample_scale 2 2) dead_band_metric (dead_band_wpa None)
    = Ok (ready, remaining, usage, ts)
    /\ ready <> ∅ /\ dom remaining ⊆ ready /\ exists q, usage = Fin q.
Proof.
  do 4 eexists. split; [vm_compute; reflexivity|].
  eapply (resourceUsage_of_ready_pods dead_band_env (sample_scale 2 2)
            dead_band_metric (dead_band_wpa None) _ _ _ dead_band_samples _
            (ready_pods 2)); reflexivity.
Defined.

Lemma computeReplicasForMetrics_first_error_witness :
  let calc := NewReplicaCalculator (arch:=amd64) several_env in
  computeReplicasForMetrics several_env calc unsupported_wpa (sample_scale 2 2)
  = ((evalMetricSpec several_env calc unsupported_wpa (sample_scale 2 2)
        unsupported_spec).1,
     Err "metricSpec.Type:Pods not supported").
Proof.
  eapply (computeReplicasForMetrics_first_error several_env
            (NewReplicaCalculator (arch:=amd64) several_env) unsupported_wpa
            (sample_scale 2 2) [external_spec "a" 500 1000] unsupported_spec
            [external_spec "b" 500 1000]);
    [reflexivity|vm_compute; reflexivity|left; discriminate|reflexivity].
Defined.

Lemma computeReplicasForMetrics_statuses_witness :
  let calc := NewReplicaCalculator (arch:=amd64) several_env in
  exists wpa' r,
    computeReplicasForMetrics several_env calc several_wpa (sample_scale 2 2)
    = (wpa', Ok r)
    /\ statuses r
       = map (statusOf several_env calc several_wpa (sample_scale 2 2))
             (Metrics (Spec several_wpa))
    /\ condition_is wpa' ScalingActive ConditionTrue "ValidMetricFound".
Proof.
  eapply (computeReplicasForMetrics_statuses several_env
            (NewReplicaCalculator (arch:=amd64) several_env) several_wpa
            (sample_scale 2 2)).
  vm_compute. reflexivity.
Defined.

Lemma getScaleForResourceMappings_first_working_witness :
  getScaleForResourceMappings fallback_env "default" "web"
    [extensions_mapping; sample_mapping]
  = (Some (sample_scale 10 10), m_GroupResource sample_mapping,
     NewAggregate [mappingError fallback_env "default" "web" extensions_mapping]).
Proof.
  apply (getScaleForResourceMappings_first_working fallback_env "default" "web"
           [extensions_mapping] sample_mapping [] (sample_scale 10 10));
    [|reflexivity].
  intros mapping Hin. apply list_elem_of_singleton in Hin. subst mapping. discriminate.
Defined.

Lemma reconcileWPA_dry_run_witness :
  out_scaleUpdate (reconcileWPA (arch:=amd64) (upscale_env None)
                     (NewReplicaCalculator (arch:=amd64) (upscale_env None))
                     (upscale_wpa true None)) = None.
Proof.
  apply (reconcileWPA_dry_run (arch:=amd64) (upscale_env None)
           (NewReplicaCalculator (arch:=amd64) (upscale_env None))
           (upscale_wpa true None)).
  reflexivity.
Defined.

Lemma reconcileWPA_scaling_disabled_witness :
  let o := reconcileWPA (arch:=amd64) disabled_env
             (NewReplicaCalculator (arch:=amd64) disabled_env) (upscale_wpa false None) in
  out_scaleUpdate o = None
  /\ CurrentReplicas (Status (out_wpa o)) = 3
  /\ DesiredReplicas (Status (out_wpa o)) = 3
  /\ CurrentMetrics (Status (out_wpa o)) = []
  /\ LastScaleTime (Status (out_wpa o)) = None
  /\ condition_is (out_wpa o) ScalingActive ConditionFalse "ScalingDisabled".
Proof.
  apply (reconcileWPA_scaling_disabled (arch:=amd64) disabled_env
           (NewReplicaCalculator (arch:=amd64) disabled_env) (upscale_wpa false None)
           (sample_scale 0 3) (m_GroupResource sample_mapping)); reflexivity.
Defined.

Lemma reconcileWPA_bounds_first_witness :
  written (reconcileWPA (arch:=amd64) over_max_env
             (NewReplicaCalculator (arch:=amd64) over_max_env) over_max_wpa) = Some 10.
Proof.
  apply (proj1 (reconcileWPA_bounds_first (arch:=amd64) over_max_env
                  (NewReplicaCalculator (arch:=amd64) over_max_env) over_max_wpa
                  (sample_scale 100 100) (m_GroupResource sample_mapping)
                  eq_refl ltac:(discriminate) eq_refl)).
  reflexivity.
Defined.

Lemma reconcileWPA_successful_write_witness :
  let o := reconcileWPA (arch:=amd64) (upscale_env None)
             (NewReplicaCalculator (arch:=amd64) (upscale_env None))
             (upscale_wpa false None) in
  exists u,
    out_scaleUpdate o = Some u
    /\ CurrentReplicas (Status (out_wpa o)) = scale_StatusReplicas (su_scale u)
    /\ DesiredReplicas (Status (out_wpa o)) = scale_SpecReplicas (su_scale u)
    /\ LastScaleTime (Status (out_wpa o)) = Some (Now (upscale_env None))
    /\ condition_is (out_wpa o) AbleToScale ConditionTrue ConditionReasonSucceededRescale.
Proof.
  eexists. split; [vm_compute; reflexivity|].
  apply (reconcileWPA_successful_write (arch:=amd64) (upscale_env None)
           (NewReplicaCalculator (arch:=amd64) (upscale_env None))
           (upscale_wpa false None)); vm_compute; reflexivity.
Defined.

Lemma reconcileWPA_failed_write_witness :
  let o := reconcileWPA (arch:=amd64) (upscale_env (Some "conflict"))
             (NewReplicaCalculator (arch:=amd64) (upscale_env (Some "conflict")))
             (upscale_wpa false None) in
  exists u,
    out_scaleUpdate o = Some u
    /\ out_return o = Ok tt
    /\ CurrentReplicas (Status (out_wpa o)) = scale_StatusReplicas (su_scale u)
    /\ DesiredReplicas (Status (out_wpa o)) = 0
    /\ CurrentMetrics (Status (out_wpa o)) = []
    /\ LastScaleTime (Status (out_wpa o)) = None
    /\ exists c, getCondition AbleToScale (Conditions (Status (out_wpa o))) = Some c
                 /\ c_Status c = ConditionFalse.
Proof.
  eexists. split; [vm_compute; reflexivity|].
  apply (reconcileWPA_failed_write (arch:=amd64) (upscale_env (Some "conflict"))
           (NewReplicaCalculator (arch:=amd64) (upscale_env (Some "conflict")))
           (upscale_wpa false None) _ "conflict"); vm_compute; reflexivity.
Defined.

Lemma reconcileWPA_status_update_witness :
  exists w,
    out_statusUpdate (reconcileWPA (arch:=amd64) (upscale_env None)
                        (NewReplicaCalculator (arch:=amd64) (upscale_env None))
                        (upscale_wpa false None)) = Some w
    /\ Status w <> Status (upscale_wpa false None)
    /\ Name w = Name (upscale_wpa false None)
    /\ Namespace w = Namespace (upscale_wpa false None)
    /\ Spec w = Spec (upscale_wpa false None).
Proof.
  eexists. split; [vm_compute; reflexivity|].
  apply (reconcileWPA_status_update (arch:=amd64) (upscale_env None)
           (NewReplicaCalculator (arch:=amd64) (upscale_env None))
           (upscale_wpa false None)); vm_compute; reflexivity.
Defined.

Lemma reconcileWPA_conditions_frame_witness :
  exists c,
    getCondition dryRunCondition (Conditions (Status checked_wpa)) = Some c
    /\ getCondition dryRunCondition
         (Conditions (Status (out_wpa (reconcileWPA (arch:=amd64) (upscale_env None)
                                         (NewReplicaCalculator (arch:=amd64)
                                            (upscale_env None))
                                         checked_wpa))))
       = getCondition dryRunCondition (Conditions (Status checked_wpa)).
Proof.
  eexists. split; [reflexivity|].
  apply (reconcileWPA_conditions_frame (arch:=amd64) (upscale_env None)
           (NewReplicaCalculator (arch:=amd64) (upscale_env None)) checked_wpa
           dryRunCondition); discriminate.
Defined.

Lemma reconcileWPA_respects_cooldown_witness :
  let env := upscale_env None in
  let calc := NewReplicaCalculator (arch:=amd64) env in
  let wpa := upscale_wpa false (Some (900 * Second)) in
  exists u wpa1 r,
    out_scaleUpdate (reconcileWPA (arch:=amd64) env calc wpa) = Some u
    /\ scale_SpecReplicas (su_scale u) = 12
    /\ computeReplicasForMetrics env calc (gotScale env wpa) (sample_scale 10 10)
       = (wpa1, Ok r)
    /\ scale_SpecReplicas (su_scale u) <> 10
    /\ (10 < scale_SpecReplicas (su_scale u) ->
        900 * Second + seconds 60 <= gate_timestamp env r)
    /\ (scale_SpecReplicas (su_scale u) < 10 ->
        900 * Second + seconds 60 <= gate_timestamp env r).
Proof.
  cbv zeta. eexists.
  assert (Hu : out_scaleUpdate
                 (reconcileWPA (arch:=amd64) (upscale_env None)
                    (NewReplicaCalculator (arch:=amd64) (upscale_env None))
                    (upscale_wpa false (Some (900 * Second)))) = Some _)
    by (vm_compute; reflexivity).
  destruct (reconcileWPA_respects_cooldown (arch:=amd64) (upscale_env None)
              (NewReplicaCalculator (arch:=amd64) (upscale_env None))
              (upscale_wpa false (Some (900 * Second)))
              (sample_scale 10 10) (m_GroupResource sample_mapping) _ (900 * Second)
              eq_refl Hu eq_refl ltac:(discriminate)
              ltac:(intros m [= <-]; discriminate) ltac:(discriminate))
    as (wpa1 & r & H).
  exists wpa1, r. split; [exact Hu|]. split; [reflexivity|]. exact H.
Defined.

Lemma reconcileWPA_metrics_failure_witness :
  let o := reconcileWPA (arch:=amd64) no_metrics_env
             (NewReplicaCalculator (arch:=amd64) no_metrics_env)
             (upscale_wpa false None) in
  out_return o = Ok tt
  /\ out_scaleUpdate o = None
  /\ CurrentReplicas (Status (out_wpa o)) = 10
  /\ DesiredReplicas (Status (out_wpa o)) = 0
  /\ CurrentMetrics (Status (out_wpa o)) = []
  /\ LastScaleTime (Status (out_wpa o)) = None.
Proof.
  eapply (reconcileWPA_metrics_failure (arch:=amd64) no_metrics_env
            (NewReplicaCalculator (arch:=amd64) no_metrics_env)
            (upscale_wpa false None) (sample_scale 10 10)
            (m_GroupResource sample_mapping)).
  - reflexivity.
  - discriminate.
  - discriminate.
  - intros m [= <-]. discriminate.
  - discriminate.
  - vm_compute. reflexivity.
Defined.

Lemma reconcileWPA_errors_witness :
  let o := reconcileWPA (arch:=amd64) no_scale_env
             (NewReplicaCalculator (arch:=amd64) no_scale_env) (upscale_wpa false None) in
  exists e,
    out_return o = Err e
    /\ ((getTargetScale no_scale_env (upscale_wpa false None) = Err e
         /\ out_scaleUpdate o = None /\ out_statusUpdate o = None
         /\ out_wpa o = upscale_wpa false None)
        \/ (out_statusUpdate o = Some (out_wpa o)
            /\ Status_Update no_scale_env (out_wpa o) = Some e)).
Proof.
  eexists. split; [vm_compute; reflexivity|].
  apply (reconcileWPA_errors (arch:=amd64) no_scale_env
           (NewReplicaCalculator (arch:=amd64) no_scale_env) (upscale_wpa false None)).
  vm_compute. reflexivity.
Defined.

Lemma Reconcile_runs_reconcileWPA_witness :
  let env := upscale_env None in
  let r := sample_reconciler (upscale_wpa false None) None
             (NewReplicaCalculator (arch:=amd64) env) in
  let run := Reconcile (arch:=amd64) env r "default" "wpa" in
  exists o,
    rec_reconcileWPA run = Some o
    /\ rec_error run = None
    /\ rec_result run = {| Requeue := false; RequeueAfter := 15 * Second |}
    /\ written o = Some 12.
Proof.
  cbv zeta. eexists.
  assert (Hrun : rec_reconcileWPA
                   (Reconcile (arch:=amd64) (upscale_env None)
                      (sample_reconciler (upscale_wpa false None) None
                         (NewReplicaCalculator (arch:=amd64) (upscale_env None)))
                      "default" "wpa") = Some _)
    by (vm_compute; reflexivity).
  destruct (Reconcile_runs_reconcileWPA (arch:=amd64) (upscale_env None)
              (sample_reconciler (upscale_wpa false None) None
                 (NewReplicaCalculator (arch:=amd64) (upscale_env None)))
              "default" "wpa" _ Hrun)
    as (Herr & Hres & _).
  split; [exact Hrun|]. split; [exact Herr|]. split; [exact Hres|]. reflexivity.
Defined.

Lemma Reconcile_invalid_policy_witness :
  let env := upscale_env None in
  let r := sample_reconciler (upscale_wpa false None) (Some "no metric")
             (NewReplicaCalculator (arch:=amd64) env) in
  let run := Reconcile (arch:=amd64) env r "default" "wpa" in
  rec_reconcileWPA run = None
  /\ rec_update run = None
  /\ rec_result run = {| Requeue := false; RequeueAfter := 0 |}
  /\ match rec_statusUpdate run with
     | Some w =>
         condition_is w AbleToScale ConditionFalse "FailedSpecCheck"
         /\ Status w <> Status (upscale_wpa false None)
         /\ Spec w = Spec (upscale_wpa false None)
         /\ rec_error run = Status_Update env w
     | None =>
         condition_is (upscale_wpa false None) AbleToScale ConditionFalse "FailedSpecCheck"
         /\ rec_error run = None
     end.
Proof.
  cbv zeta.
  exact (Reconcile_invalid_policy (arch:=amd64) (upscale_env None)
           (sample_reconciler (upscale_wpa false None) (Some "no metric")
              (NewReplicaCalculator (arch:=amd64) (upscale_env None)))
           "default" "wpa" (upscale_wpa false None) (upscale_wpa false None) "no metric"
           eq_refl eq_refl eq_refl eq_refl).
Defined.
